(** * steam_symlink_gui.py: library discovery and relocation engine

    A shallow embedding of [steam_symlink_gui.py] over a model of the POSIX
    name space, and the properties of its discovery, classification,
    planning and execution code. *)

From Stdlib Require Import Ascii String List Bool Arith Lia.
From stdpp Require Import base option list strings gmap sorting.

Local Open Scope string_scope.
Local Open Scope list_scope.

(** ** Text

    Python [str] values are modelled by [string]; a character stands for
    the code point of the same number (code points below 256). *)

Module Text.

(** [str.isspace] on the code points below 256: what [str.strip] removes
    and what [\s] matches in a [str] pattern. *)
Definition isspace (c : ascii) : bool :=
  let n := nat_of_ascii c in
  (((9 <=? n) && (n <=? 13)) || ((28 <=? n) && (n <=? 32))
   || (n =? 133) || (n =? 160))%nat.

Fixpoint lstrip (s : string) : string :=
  match s with
  | String c s' => if isspace c then lstrip s' else s
  | EmptyString => EmptyString
  end.

(** [rstrip]: a character is dropped when it is a space and all that
    follows it was dropped. *)
Fixpoint rstrip (s : string) : string :=
  match s with
  | String c s' =>
      match rstrip s' with
      | EmptyString => if isspace c then EmptyString else String c EmptyString
      | r => String c r
      end
  | EmptyString => EmptyString
  end.

(** [str.strip()] *)
Definition strip (s : string) : string := rstrip (lstrip s).

(** [sep.join(xs)] *)
Fixpoint join (sep : string) (xs : list string) : string :=
  match xs with
  | [] => ""
  | [x] => x
  | x :: xs' => x +:+ sep +:+ join sep xs'
  end.

(** [s.split("/")], as a list of segments (empty segments included). *)
Fixpoint split_slash_aux (acc : string) (s : string) : list string :=
  match s with
  | EmptyString => [String.rev acc]
  | String c s' =>
      if Ascii.eqb c "/"%char then String.rev acc :: split_slash_aux "" s'
      else split_slash_aux (String c acc) s'
  end.

Definition split_slash (s : string) : list string := split_slash_aux "" s.

End Text.

(** ** Pure paths ([pathlib.PurePosixPath])

    A path is its root ([""], ["/"] or ["//"]) and its components; the
    constructor drops empty and ["."] components and keeps [".."]. *)

Record Path := MkPath { root : string; parts : list string }.

#[export] Instance Path_eq_dec : EqDecision Path.
Proof. solve_decision. Defined.

Module PurePath.

Definition starts_with (p s : string) : bool := String.prefix p s.

(** The root of a path string: exactly two leading slashes are kept
    apart, one or three and more are ["/"]. *)
Definition parse_root (s : string) : string :=
  if starts_with "///" s then "/"
  else if starts_with "//" s then "//"
  else if starts_with "/" s then "/"
  else "".

Definition keep_part (c : string) : bool :=
  negb (String.eqb c "") && negb (String.eqb c ".").

(** [Path(s)] *)
Definition of_string (s : string) : Path :=
  MkPath (parse_root s) (List.filter keep_part (Text.split_slash s)).

(** [str(p)] *)
Definition str (p : Path) : string :=
  match root p, parts p with
  | EmptyString, [] => "."
  | r, ps => r +:+ Text.join "/" ps
  end.

(** [p.name] *)
Definition name (p : Path) : string := List.last (parts p) "".

(** [p.parent] *)
Definition parent (p : Path) : Path := MkPath (root p) (List.removelast (parts p)).

(** [p / s] *)
Definition joinpath (p : Path) (s : string) : Path :=
  let q := of_string s in
  if String.eqb (root q) "" then MkPath (root p) (parts p ++ parts q) else q.

End PurePath.

Notation "p // s" := (PurePath.joinpath p s) (at level 40, left associativity).

(** ** The file-system name space

    The state of the file system is a finite map from physical locations
    (the components below the root, symbolic links already followed) to
    nodes.  The root is a directory that is always there.  A location is
    visible only through a chain of directories, so that nodes below a
    missing or non-directory location play no role. *)

(** What the model keeps of a real system: one name space (a move is a
    rename: it succeeds or fails as a whole, also where the real call
    copies across devices), no owners or modes apart from a directory that
    cannot be listed, a file that cannot be read and a host that refuses
    symbolic links, a directory listed in the order of the map, and a
    budget of [MAXSYMLINKS] links per resolution, the exhaustion of which
    is a loop. *)

Inductive errno :=
  ENOENT | ENOTDIR | ELOOP | EEXIST | EISDIR | ENOTEMPTY | EACCES | EPERM | EINVAL | EBUSY.

(** Python exceptions raised by the primitives the program calls. *)
Inductive exn :=
| OSError (e : errno)           (* OSError and its errno subclasses *)
| ShutilError (msg : string)    (* shutil.Error, a subclass of OSError *)
| RuntimeError (msg : string).  (* Path.resolve() on a symlink loop *)

Inductive inode :=
| File (readable : bool) (content : string)
| Dir (listable : bool)
| Link (target : string).

#[export] Instance errno_eq_dec : EqDecision errno.
Proof. solve_decision. Defined.
#[export] Instance exn_eq_dec : EqDecision exn.
Proof. solve_decision. Defined.
#[export] Instance inode_eq_dec : EqDecision inode.
Proof. solve_decision. Defined.

(** The host the program runs on: the platform, whether it lets this
    process create symbolic links, and the working directory. *)
Record host := MkHost { windows : bool; may_symlink : bool; cwd : list string }.

Module FS.

(** Number of symbolic links one resolution may follow. *)
Definition MAXSYMLINKS : nat := 40.

Definition node (m : gmap (list string) inode) (k : list string) : option inode :=
  match k with
  | [] => Some (Dir true)
  | _ => m !! k
  end.

Definition unsnoc {A} (l : list A) : option (list A * A) :=
  match l with
  | [] => None
  | x :: _ => Some (List.removelast l, List.last l x)
  end.

Definition link_start (cur : list string) (t : string) : list string :=
  if PurePath.starts_with "/" t then [] else cur.

Definition link_parts (t : string) : list string :=
  List.filter PurePath.keep_part (Text.split_slash t).

(** Path resolution as the kernel does it, from the directory [cur]:
    every component is looked up in the directory reached so far, every
    symbolic link is followed. *)
Fixpoint walk (links : nat) (m : gmap (list string) inode)
  : list string -> list string -> errno + list string :=
  fix go (cur : list string) (rest : list string) {struct rest} :=
    match rest with
    | [] => inr cur
    | c :: rest' =>
        if String.eqb c ".." then
          match node m (removelast cur) with
          | Some (Dir _) => go (removelast cur) rest'
          | _ => inl ENOENT
          end
        else
          match m !! (cur ++ [c]) with
          | None => inl ENOENT
          | Some (Dir _) => go (cur ++ [c]) rest'
          | Some (File _ _) =>
              match rest' with [] => inr (cur ++ [c]) | _ => inl ENOTDIR end
          | Some (Link t) =>
              if String.eqb t "" then inl ENOENT
              else
                match links with
                | 0 => inl ELOOP
                | S l => walk l m (link_start cur t) (link_parts t ++ rest')
                end
          end
    end.

(** [os.path.realpath(p, strict=False)]: links are followed, components
    that are missing are kept as they are written. *)
Fixpoint realpath (links : nat) (m : gmap (list string) inode)
  : list string -> list string -> option (list string) :=
  fix go (cur : list string) (rest : list string) {struct rest} :=
    match rest with
    | [] => Some cur
    | c :: rest' =>
        if String.eqb c ".." then go (removelast cur) rest'
        else
          match m !! (cur ++ [c]) with
          | Some (Link t) =>
              match links with
              | 0 => None
              | S l => realpath l m (link_start cur t) (link_parts t ++ rest')
              end
          | _ => go (cur ++ [c]) rest'
          end
    end.

Section WithCwd.

Variable cwd : list string.

Definition start (p : Path) : list string :=
  if String.eqb (root p) "" then cwd else [].

(** [os.stat(p)]: the location and node [p] leads to. *)
Definition stat (m : gmap (list string) inode) (p : Path) : errno + (list string * inode) :=
  match node m (start p) with
  | Some (Dir _) =>
      match walk MAXSYMLINKS m (start p) (parts p) with
      | inl e => inl e
      | inr k => match node m k with Some n => inr (k, n) | None => inl ENOENT end
      end
  | _ => inl ENOENT
  end.

(** The location [p] names, its last component not followed: where
    [lstat], [mkdir], [symlink], [unlink], [rmdir] and [rename] act. *)
Definition locate (m : gmap (list string) inode) (p : Path) : errno + list string :=
  match unsnoc (parts p) with
  | None =>
      match node m (start p) with Some (Dir _) => inr (start p) | _ => inl ENOENT end
  | Some (ps, c) =>
      match stat m (MkPath (root p) ps) with
      | inl e => inl e
      | inr (d, Dir _) =>
          if String.eqb c ".." then
            match node m (removelast d) with
            | Some (Dir _) => inr (removelast d)
            | _ => inl ENOENT
            end
          else inr (d ++ [c])
      | inr (_, _) => inl ENOTDIR
      end
  end.

(** [os.lstat(p)] *)
Definition lstat (m : gmap (list string) inode) (p : Path) : errno + (list string * inode) :=
  match locate m p with
  | inl e => inl e
  | inr k => match node m k with Some n => inr (k, n) | None => inl ENOENT end
  end.

(** Names of the entries of the directory at location [d]. *)
Definition children (m : gmap (list string) inode) (d : list string) : list string :=
  omap (fun kv : list string * inode =>
          match unsnoc kv.1 with
          | Some (d', c) => if decide (d' = d) then Some c else None
          | None => None
          end) (map_to_list m).

Definition below (d k : list string) : bool := bool_decide (d `prefix_of` k).

(** The map without the subtree at [d]. *)
Definition prune (m : gmap (list string) inode) (d : list string) : gmap (list string) inode :=
  filter (fun kv : list string * inode => negb (below d kv.1) = true) m.

(** The map with the subtree at [s] moved to [d]. *)
Definition graft (m : gmap (list string) inode) (s d : list string) : gmap (list string) inode :=
  list_to_map
    (List.map (fun kv : list string * inode => (d ++ drop (length s) kv.1, kv.2))
       (map_to_list (filter (fun kv : list string * inode => below s kv.1 = true) m)))
  ∪ prune (prune m s) d.

(** [os.mkdir(p)] *)
Definition os_mkdir (m : gmap (list string) inode) (p : Path) : errno + gmap (list string) inode :=
  match locate m p with
  | inl e => inl e
  | inr k => match node m k with
             | Some _ => inl EEXIST
             | None => inr (<[k := Dir true]> m)
             end
  end.

(** [os.symlink(target, p)] on a host that may refuse it. *)
Definition os_symlink (allowed : bool) (m : gmap (list string) inode) (target : string) (p : Path)
  : errno + gmap (list string) inode :=
  if negb allowed then inl EPERM
  else
    match locate m p with
    | inl e => inl e
    | inr k => match node m k with
               | Some _ => inl EEXIST
               | None => inr (<[k := Link target]> m)
               end
    end.

(** [os.unlink(p)] *)
Definition os_unlink (m : gmap (list string) inode) (p : Path) : errno + gmap (list string) inode :=
  match lstat m p with
  | inl e => inl e
  | inr (_, Dir _) => inl EISDIR
  | inr (k, _) => inr (delete k m)
  end.

(** [os.rmdir(p)] *)
Definition os_rmdir (m : gmap (list string) inode) (p : Path) : errno + gmap (list string) inode :=
  match lstat m p with
  | inl e => inl e
  | inr (k, Dir _) =>
      match k, children m k with
      | [], _ => inl EBUSY
      | _, [] => inr (delete k m)
      | _, _ => inl ENOTEMPTY
      end
  | inr (_, _) => inl ENOTDIR
  end.

(** [os.listdir(p)] *)
Definition os_listdir (m : gmap (list string) inode) (p : Path) : errno + list string :=
  match stat m p with
  | inl e => inl e
  | inr (k, Dir true) => inr (children m k)
  | inr (_, Dir false) => inl EACCES
  | inr (_, _) => inl ENOTDIR
  end.

(** [os.rename(src, dst)] *)
Definition os_rename (m : gmap (list string) inode) (src dst : Path) : errno + gmap (list string) inode :=
  match lstat m src, locate m dst with
  | inl e, _ => inl e
  | _, inl e => inl e
  | inr (s, n), inr d =>
      if decide (s = d) then inr m
      else
        match n, node m d with
        | Dir _, Some (Dir _) =>
            if below s d then inl EINVAL
            else match children m d with [] => inr (graft m s d) | _ => inl ENOTEMPTY end
        | Dir _, Some _ => inl ENOTDIR
        | Dir _, None => if below s d then inl EINVAL else inr (graft m s d)
        | _, Some (Dir _) => inl EISDIR
        | _, _ => inr (graft m s d)
        end
  end.

(** *** The library calls of the program: [pathlib.Path] and [shutil] *)

Definition oserror {A} (r : errno + A) : exn + A :=
  match r with inl e => inl (OSError e) | inr a => inr a end.

(** [p.exists()] *)
Definition exists_ (m : gmap (list string) inode) (p : Path) : bool :=
  match stat m p with inr _ => true | inl _ => false end.

(** [p.is_dir()] *)
Definition is_dir (m : gmap (list string) inode) (p : Path) : bool :=
  match stat m p with inr (_, Dir _) => true | _ => false end.


(** [p.is_symlink()] *)
Definition is_symlink (m : gmap (list string) inode) (p : Path) : bool :=
  match lstat m p with inr (_, Link _) => true | _ => false end.

(** [p.resolve()]: the canonical absolute path; a symlink loop raises. *)
Definition resolve (m : gmap (list string) inode) (p : Path) : exn + Path :=
  match realpath MAXSYMLINKS m (start p) (parts p) with
  | Some k => inr (MkPath "/" k)
  | None => inl (RuntimeError "Symlink loop")
  end.


(** [p.mkdir(parents=parents, exist_ok=exist_ok)]; [n] bounds the
    calls on parents, one per component of [p]. *)
Fixpoint Path_mkdir (n : nat) (parents exist_ok : bool)
  (m : gmap (list string) inode) (p : Path) : exn + gmap (list string) inode :=
  match os_mkdir m p with
  | inr m' => inr m'
  | inl ENOENT =>
      if negb parents || bool_decide (PurePath.parent p = p) then inl (OSError ENOENT)
      else
        match n with
        | 0 => inl (OSError ENOENT)
        | S n' =>
            match Path_mkdir n' true true m (PurePath.parent p) with
            | inl e => inl e
            | inr m1 => Path_mkdir n' false exist_ok m1 p
            end
        end
  | inl e =>
      if negb exist_ok || negb (is_dir m p) then inl (OSError e) else inr m
  end.

(** [p.iterdir()], as the list of the children's paths. *)
Definition iterdir (m : gmap (list string) inode) (p : Path) : exn + list Path :=
  match os_listdir m p with
  | inl e => inl (OSError e)
  | inr names => inr (List.map (fun c => MkPath (root p) (parts p ++ [c])) names)
  end.

(** [os.path.samefile(a, b)] *)
Definition samefile (m : gmap (list string) inode) (a b : Path) : bool :=
  match stat m a, stat m b with
  | inr (k1, _), inr (k2, _) => bool_decide (k1 = k2)
  | _, _ => false
  end.

(** [shutil.move(src, dst)]: into [dst] when it is a directory,
    else onto it; a rename that the system refuses is an error. *)
Definition shutil_move (m : gmap (list string) inode) (src dst : Path)
  : exn + gmap (list string) inode :=
  if is_dir m dst then
    if samefile m src dst && negb (is_symlink m src) then oserror (os_rename m src dst)
    else
      let real_dst := dst // PurePath.name src in
      if exists_ m real_dst
      then inl (ShutilError ("Destination path '" +:+ PurePath.str real_dst +:+ "' already exists"))
      else oserror (os_rename m src real_dst)
  else oserror (os_rename m src dst).

(** [shutil.rmtree(p)] *)
Definition shutil_rmtree (m : gmap (list string) inode) (p : Path)
  : exn + gmap (list string) inode :=
  match lstat m p with
  | inl e => inl (OSError e)
  | inr (_, Link _) => inl (OSError ENOTDIR)
  | inr (_, File _ _) => inl (OSError ENOTDIR)
  | inr ([], Dir _) => inl (OSError EBUSY)
  | inr (k, Dir _) => inr (prune m k)
  end.

End WithCwd.

End FS.

#[export] Instance Path_countable : Countable Path.
Proof.
  apply (inj_countable' (fun p => (root p, parts p)) (fun rp => MkPath rp.1 rp.2)).
  by intros [].
Defined.

(** ** The [re.findall] call of [parse_libraryfolders] *)

Module Re.

Definition dq : ascii := ascii_of_nat 34.
Definition quoted_path : string := String dq ("path" +:+ String dq "").

(** The rest of [s] after the prefix [p]. *)
Fixpoint strip_prefix (p s : string) : option string :=
  match p, s with
  | EmptyString, _ => Some s
  | String a p', String b s' => if Ascii.eqb a b then strip_prefix p' s' else None
  | String _ _, EmptyString => None
  end.

(** The longest prefix of [s] whose characters satisfy [f], and the rest:
    a greedy character class. *)
Fixpoint span (f : ascii -> bool) (s : string) : string * string :=
  match s with
  | String c s' =>
      if f c then let '(a, b) := span f s' in (String c a, b) else (EmptyString, s)
  | EmptyString => (EmptyString, EmptyString)
  end.

Definition not_dq (c : ascii) : bool := negb (Ascii.eqb c dq).

(** A match of the pattern [Q path Q \s+ Q ([^Q]+) Q] at the start of
    [s], the pattern being written here with Q for the double quote and
    with blanks that it does not have: the group and the text after the
    match.  Both repetitions are over a class that excludes the character
    that must follow, so the greedy match is the only one. *)
Definition match_here (s : string) : option (string * string) :=
  match strip_prefix quoted_path s with
  | None => None
  | Some r1 =>
      match span Text.isspace r1 with
      | (EmptyString, _) => None
      | (_, r2) =>
          match r2 with
          | String c r3 =>
              if Ascii.eqb c dq then
                match span not_dq r3 with
                | (EmptyString, _) => None
                | (x, String _ r5) => Some (x, r5)
                | (_, EmptyString) => None
                end
              else None
          | EmptyString => None
          end
      end
  end.

(** [re.findall(pattern, text)]: the groups of the leftmost matches that
    do not overlap, scanning from the left; [n] bounds the positions
    tried. *)
Fixpoint findall_from (n : nat) (s : string) : list string :=
  match n with
  | 0 => []
  | S n' =>
      match match_here s with
      | Some (x, rest) => x :: findall_from n' rest
      | None =>
          match s with
          | String _ s' => findall_from n' s'
          | EmptyString => []
          end
      end
  end.

Definition findall (s : string) : list string := findall_from (String.length s) s.

End Re.

(** ** The user interface as seen from the core *)

Inductive event :=
| Log (msg : string)                            (* self._append_log(msg) *)
| AskYesNo (title msg : string) (answer : bool) (* messagebox.askyesno *)
| ShowWarning (title msg : string)              (* messagebox.showwarning *)
| ShowError (title msg : string)                (* messagebox.showerror *)
| ShowInfo (title msg : string).                (* messagebox.showinfo *)

#[export] Instance event_eq_dec : EqDecision event.
Proof. solve_decision. Defined.

(** The state a run acts on: the file system and what the user has been
    shown and asked so far. *)
Record world := MkWorld { fs : gmap (list string) inode; trace : list event }.

Inductive outcome (A : Type) :=
| Ret (a : A)
| Raise (e : exn).
Arguments Ret {A} a.
Arguments Raise {A} e.

#[export] Instance world_eq_dec : EqDecision world.
Proof. solve_decision. Defined.
#[export] Instance outcome_eq_dec {A} `{EqDecision A} : EqDecision (outcome A).
Proof. solve_decision. Defined.

(** Computations that read and change the world and may raise. *)
Definition M (A : Type) : Type := world -> outcome A * world.

Definition ret {A} (a : A) : M A := fun w => (Ret a, w).

Definition raise {A} (e : exn) : M A := fun w => (Raise e, w).

Definition bind {A B} (c : M A) (f : A -> M B) : M B :=
  fun w =>
    match c w with
    | (Ret a, w') => f a w'
    | (Raise e, w') => (Raise e, w')
    end.

Declare Scope run_scope.
Delimit Scope run_scope with run.
Notation "x ← y ; z" := (bind y (fun x => z))
  (at level 20, y at level 100, z at level 200, only parsing) : run_scope.
Notation "' x ← y ; z" := (bind y (fun x => z))
  (at level 20, x pattern, y at level 100, z at level 200, only parsing) : run_scope.
Notation "x ;; z" := (bind x (fun _ => z))
  (at level 100, z at level 200, only parsing, right associativity) : run_scope.

(** A query of the file system. *)
Definition ask_fs {A} (f : gmap (list string) inode -> A) : M A :=
  fun w => (Ret (f (fs w)), w).

(** A call that changes the file system or raises, leaving it as it is. *)
Definition call_fs (f : gmap (list string) inode -> exn + gmap (list string) inode) : M unit :=
  fun w =>
    match f (fs w) with
    | inr m' => (Ret tt, MkWorld m' (trace w))
    | inl e => (Raise e, w)
    end.

Definition emit (e : event) : M unit :=
  fun w => (Ret tt, MkWorld (fs w) (trace w ++ [e])).

(** [try: c except Exception as e: h e] *)
Definition try_except {A} (c : M A) (h : exn -> M A) : M A :=
  fun w =>
    match c w with
    | (Ret a, w') => (Ret a, w')
    | (Raise e, w') => h e w'
    end.

Definition nl : string := String (ascii_of_nat 10) "".

(** The text of an exception, as [str(e)] gives it, without file names. *)
Definition errno_str (e : errno) : string :=
  match e with
  | ENOENT => "[Errno 2] No such file or directory"
  | ENOTDIR => "[Errno 20] Not a directory"
  | ELOOP => "[Errno 40] Too many levels of symbolic links"
  | EEXIST => "[Errno 17] File exists"
  | EISDIR => "[Errno 21] Is a directory"
  | ENOTEMPTY => "[Errno 39] Directory not empty"
  | EACCES => "[Errno 13] Permission denied"
  | EPERM => "[Errno 1] Operation not permitted"
  | EINVAL => "[Errno 22] Invalid argument"
  | EBUSY => "[Errno 16] Device or resource busy"
  end.

Definition exn_str (x : exn) : string :=
  match x with
  | OSError e => errno_str e
  | ShutilError s => s
  | RuntimeError s => s
  end.

(** [except OSError] *)
Definition is_OSError (x : exn) : bool :=
  match x with
  | OSError _ | ShutilError _ => true
  | RuntimeError _ => false
  end.

(** ** The program *)

Section Program.

Local Open Scope run_scope.

(** The host, the user who answers the yes/no dialogs (the answer may
    depend on everything shown so far), and the two expansions of
    [os.path], which read the process environment. *)
Variable h : host.
Variable user : list event -> string -> string -> bool.
Variable expanduser : string -> string.
Variable expandvars : string -> string.

Definition APP_TITLE : string := "Steam Download Symlink Helper".


(** *** Discovery *)






(** The key of the final sort: [str(p)], compared as Python compares
    strings, in the lexicographic order of the code points. *)
Definition str_key_le (p q : Path) : Prop :=
  String.le (PurePath.str p) (PurePath.str q).

#[export] Instance str_key_le_dec p q : Decision (str_key_le p q).
Proof. unfold str_key_le. apply _. Defined.



(** *** Helpers of the executor *)

Definition is_symlink_to (m : gmap (list string) inode) (path target : Path) : bool :=
  if FS.is_symlink (cwd h) m path then
    match FS.resolve (cwd h) m path, FS.resolve (cwd h) m target with
    | inr a, inr b => bool_decide (a = b)
    | _, _ => false
    end
  else false.

Definition ensure_dir (m : gmap (list string) inode) (path : Path)
  : exn + gmap (list string) inode :=
  FS.Path_mkdir (cwd h) (length (parts path)) true true m path.

Definition dir_is_empty (m : gmap (list string) inode) (path : Path) : bool :=
  if negb (FS.exists_ (cwd h) m path) then true
  else if negb (FS.is_dir (cwd h) m path) then false
  else
    match FS.iterdir (cwd h) m path with
    | inr [] => true
    | inr (_ :: _) => false
    | inl _ => false
    end.

Definition privilege_message (link_path target_path : Path) : string :=
  "Failed to create symlink due to insufficient privileges." +:+ nl +:+
  "To fix this, either:" +:+ nl +:+
  "1. Run this application as Administrator, OR" +:+ nl +:+
  "2. Enable Developer Mode in Windows Settings:" +:+ nl +:+
  "   Settings > Update & Security > For developers > Developer Mode" +:+ nl +:+ nl +:+
  "Target: " +:+ PurePath.str link_path +:+ " -> " +:+ PurePath.str target_path.

(** [create_symlink_safe]: the refusal of the host is Windows error 1314
    there, [EPERM] elsewhere. *)
Definition create_symlink_safe (link_path target_path : Path) : M (bool * string) :=
  try_except
    (call_fs (fun m => FS.oserror
                (FS.os_symlink (cwd h) (may_symlink h) m (PurePath.str target_path) link_path));;
     ret (true, "Successfully created symlink: " +:+ PurePath.str link_path
                 +:+ " -> " +:+ PurePath.str target_path))
    (fun e =>
       if is_OSError e then
         if windows h && bool_decide (e = OSError EPERM)
         then ret (false, privilege_message link_path target_path)
         else ret (false, "Failed to create symlink: " +:+ exn_str e +:+ nl +:+
                           "Target: " +:+ PurePath.str link_path +:+ " -> "
                           +:+ PurePath.str target_path)
       else ret (false, "Unexpected error creating symlink: " +:+ exn_str e +:+ nl +:+
                         "Target: " +:+ PurePath.str link_path +:+ " -> "
                         +:+ PurePath.str target_path)).

(** The moves of [move_dir_contents], one per entry listed. *)
Fixpoint move_all (items : list Path) (dst : Path) : M unit :=
  match items with
  | [] => ret tt
  | item :: items' =>
      call_fs (fun m => FS.shutil_move (cwd h) m item (dst // PurePath.name item));;
      move_all items' dst
  end.

Definition move_dir_contents (src dst : Path) : M unit :=
  call_fs (fun m => ensure_dir m dst);;
  items ← (fun w => match FS.iterdir (cwd h) (fs w) src with
                    | inr l => (Ret l, w)
                    | inl e => (Raise e, w)
                    end);
  move_all items dst.

Definition _append_log (msg : string) : M unit := emit (Log msg).

Definition _confirm (title message : string) : M bool :=
  fun w =>
    let a := user (trace w) title message in
    (Ret a, MkWorld (fs w) (trace w ++ [AskYesNo title message a])).

Definition showwarning (title message : string) : M unit := emit (ShowWarning title message).
Definition showerror (title message : string) : M unit := emit (ShowError title message).
Definition showinfo (title message : string) : M unit := emit (ShowInfo title message).

(** The four places that create the link and report on it differ in the
    log line of the success only. *)
Definition link_and_report (done : string) (link_path target_path : Path) : M unit :=
  '(success, message) ← create_symlink_safe link_path target_path;
  if success then
    _append_log (done +:+ PurePath.str link_path +:+ " -> " +:+ PurePath.str target_path)
  else
    _append_log ("ERROR: " +:+ message);;
    showerror "Symlink Error" message.

(** *** [App._do_run], lines 296 to 360: handling of the existing
    [link_path].  The branches of the source, one definition each. *)

Definition already_linked (link_path target_path : Path) : M unit :=
  _append_log ("OK: " +:+ PurePath.str link_path +:+ " already links to "
               +:+ PurePath.str target_path).

Definition replace_symlink (link_path target_path : Path) : M unit :=
  ok ← _confirm "Replace symlink"
         (PurePath.str link_path +:+ " is a symlink to a different target. Replace it?");
  if negb ok then
    _append_log ("Skipped replacing symlink: " +:+ PurePath.str link_path)
  else
    call_fs (fun m => FS.oserror (FS.os_unlink (cwd h) m link_path));;
    link_and_report "Replaced symlink: " link_path target_path.

Definition replace_empty_dir (link_path target_path : Path) : M unit :=
  call_fs (fun m => FS.oserror (FS.os_rmdir (cwd h) m link_path));;
  link_and_report "Linked (empty replaced): " link_path target_path.

Definition move_and_link (link_path target_path : Path) : M unit :=
  ok ← _confirm "Move contents?"
         (PurePath.str link_path +:+ " is a non-empty directory. Move its contents to "
          +:+ PurePath.str target_path +:+ " and replace with a symlink?");
  if negb ok then
    _append_log ("Skipped: left existing directory: " +:+ PurePath.str link_path)
  else
    move_dir_contents link_path target_path;;
    try_except
      (call_fs (fun m => FS.oserror (FS.os_rmdir (cwd h) m link_path)))
      (fun e =>
         if is_OSError e
         then call_fs (fun m => FS.shutil_rmtree (cwd h) m link_path)
         else raise e);;
    link_and_report "Moved contents and linked: " link_path target_path.

Definition report_not_a_directory (link_path : Path) : M unit :=
  showerror "Path exists and is not a directory" (PurePath.str link_path);;
  _append_log ("ERROR: Path exists and is not a directory: " +:+ PurePath.str link_path).

Definition link_new (link_path target_path : Path) : M unit :=
  link_and_report "Linked: " link_path target_path.

Definition handle_link_path (link_path target_path : Path) : M unit :=
  is_link ← ask_fs (fun m => FS.is_symlink (cwd h) m link_path);
  if is_link then
    same ← ask_fs (fun m => is_symlink_to m link_path target_path);
    if same then already_linked link_path target_path
    else replace_symlink link_path target_path
  else
    present ← ask_fs (fun m => FS.exists_ (cwd h) m link_path);
    if present then
      isdir ← ask_fs (fun m => FS.is_dir (cwd h) m link_path);
      if isdir then
        empty ← ask_fs (fun m => dir_is_empty m link_path);
        if empty then replace_empty_dir link_path target_path
        else move_and_link link_path target_path
      else report_not_a_directory link_path
    else link_new link_path target_path.

(** *** [App._do_run], lines 292 to 360: the body of the loop, for the
    two paths of one subdirectory. *)
Definition do_run_body (link_path target_path : Path) : M unit :=
  call_fs (fun m => ensure_dir m target_path);;
  handle_link_path link_path target_path.

(** The loop [for sub, _ in plan]. *)
Fixpoint do_run_loop (steamapps target_root : Path) (plan : list (string * bool)) : M unit :=
  match plan with
  | [] => ret tt
  | (sub, _) :: plan' =>
      do_run_body (steamapps // sub) (target_root // sub);;
      do_run_loop steamapps target_root plan'
  end.

(** *** [App._do_run], lines 269 to 279: destination root and plan. *)
Definition do_run_plan (steamapps dest_base : Path) (link_temp : bool)
  : M (Path * list (string * bool)) :=
  call_fs (fun m => ensure_dir m dest_base);;
  let lib_name :=
    if String.eqb (PurePath.name (PurePath.parent steamapps)) "" then "steam_library"
    else PurePath.name (PurePath.parent steamapps) in
  let target_root := dest_base // (lib_name +:+ "_symlink") in
  call_fs (fun m => ensure_dir m target_root);;
  let plan := [("downloading", true)] ++ (if link_temp then [("temp", true)] else []) in
  ret (target_root, plan).

Definition summary_lines (steamapps target_root : Path) (plan : list (string * bool))
  : list string :=
  [ "Library steamapps: " +:+ PurePath.str steamapps;
    "Target root on SSD: " +:+ PurePath.str target_root ]
  ++ List.map (fun sp : string * bool =>
                 "  - " +:+ sp.1 +:+ ": " +:+ PurePath.str (steamapps // sp.1)
                 +:+ " -> " +:+ PurePath.str (target_root // sp.1)) plan.

(** *** [App._do_run]; the three arguments are the values of the
    widgets. *)
Definition _do_run (steamapps_var dest_var : string) (link_temp_var : bool) : M unit :=
  let sa_str := Text.strip steamapps_var in
  let dest_base_str := Text.strip dest_var in
  if String.eqb sa_str "" then
    showwarning "Missing input" "Please select a steamapps directory to modify."
  else if String.eqb dest_base_str "" then
    showwarning "Missing input" "Please select a destination base folder on your SSD."
  else
    let steamapps := PurePath.of_string sa_str in
    ok ← (if negb (String.eqb (PurePath.name steamapps) "steamapps") then
            _confirm "Confirm steamapps"
              ("Selected directory does not end with 'steamapps':" +:+ nl
               +:+ PurePath.str steamapps +:+ nl +:+ nl +:+ "Proceed anyway?")
          else ret true);
    if negb ok then ret tt
    else
      valid ← ask_fs (fun m => FS.exists_ (cwd h) m steamapps && FS.is_dir (cwd h) m steamapps);
      if negb valid then
        showerror "Invalid path" ("Not a directory: " +:+ PurePath.str steamapps)
      else
        let dest_base := PurePath.of_string dest_base_str in
        rp ← do_run_plan steamapps dest_base link_temp_var;
        let '(target_root, plan) := rp in
        go ← _confirm "Proceed?"
               ("This will create/replace symlinks as follows:" +:+ nl +:+ nl
                +:+ Text.join nl (summary_lines steamapps target_root plan));
        if negb go then ret tt
        else
          do_run_loop steamapps target_root plan;;
          showinfo "Done" "Requested symlinks processed. Check the log for details.".


End Program.

(** ** The state of a link path

    The source has no classifier of its own: the tests of
    [handle_link_path] decide the state.  [classify] is these tests, in
    their order, and [handle_state] the branch taken for each state. *)

Inductive PathState :=
| Missing
| SymlinkCorrect
| SymlinkWrong
| EmptyDirectory
| NonEmptyDirectory
| NonDirectoryFile.

#[export] Instance PathState_eq_dec : EqDecision PathState.
Proof. solve_decision. Defined.

Section Classifier.

Variable h : host.
Variable user : list event -> string -> string -> bool.

Definition classify (m : gmap (list string) inode) (link_path target_path : Path) : PathState :=
  if FS.is_symlink (cwd h) m link_path then
    if is_symlink_to h m link_path target_path then SymlinkCorrect else SymlinkWrong
  else if FS.exists_ (cwd h) m link_path then
    if FS.is_dir (cwd h) m link_path then
      if dir_is_empty h m link_path then EmptyDirectory else NonEmptyDirectory
    else NonDirectoryFile
  else Missing.

Definition handle_state (st : PathState) (link_path target_path : Path) : M unit :=
  match st with
  | SymlinkCorrect => already_linked link_path target_path
  | SymlinkWrong => replace_symlink h user link_path target_path
  | EmptyDirectory => replace_empty_dir h link_path target_path
  | NonEmptyDirectory => move_and_link h user link_path target_path
  | NonDirectoryFile => report_not_a_directory link_path
  | Missing => link_new h link_path target_path
  end.

End Classifier.

(** ** Occurrences of a path entry in a configuration text

    The words of the specification: an occurrence of the key [path], in
    double quotes, then blanks, then a value in double quotes. *)

Module VdfSpec.

Definition all_chars (f : ascii -> bool) (s : string) : Prop :=
  ∀ c, In c (list_ascii_of_string s) → f c = true.

(** [text] is [pre], then an entry with the value [x], then [post]. *)
Definition occurrence (text pre x post : string) : Prop :=
  ∃ ws, text = pre +:+ Re.quoted_path +:+ ws +:+ String Re.dq (x +:+ String Re.dq post)
        ∧ ws ≠ "" ∧ all_chars Text.isspace ws
        ∧ x ≠ "" ∧ all_chars Re.not_dq x.

(** The values of the entries of a text in their order of appearance: the
    leftmost entry, then those of the text after it. *)
Inductive entries : string -> list string -> Prop :=
| entries_none text :
    (∀ pre x post, ¬ occurrence text pre x post) → entries text []
| entries_next text pre x post xs :
    occurrence text pre x post →
    (∀ pre' x' post', occurrence text pre' x' post' →
                      (String.length pre <= String.length pre')%nat) →
    entries post xs →
    entries text (x :: xs).

End VdfSpec.

(** A computation that leaves the dialogs and the log alone. *)
Definition silent {A} (c : M A) : Prop :=
  ∀ w r w', c w = (r, w') → trace w' = trace w.

(** Where a greedy character class stops: at the end of the text or at a
    character that is not in the class. *)
Definition stops (f : ascii -> bool) (b : string) : Prop :=
  match b with String c _ => f c = false | EmptyString => True end.

(** ** Concrete hosts, users and file systems *)

Module Ex.

Definition linux : host := MkHost false true ["home"; "u"].

(** A Windows host without the privilege to create symbolic links. *)
Definition unprivileged : host := MkHost true false ["home"; "u"].

Definition yes : list event -> string -> string -> bool := fun _ _ _ => true.
Definition no : list event -> string -> string -> bool := fun _ _ _ => false.


Definition steamapps : Path := MkPath "/" ["home"; "u"; "lib"; "steamapps"].
Definition ssd : Path := MkPath "/" ["mnt"; "ssd"].
Definition target_root : Path := ssd // "lib_symlink".
Definition link_path : Path := steamapps // "downloading".
Definition target_path : Path := target_root // "downloading".

Definition dirs (ks : list (list string)) : gmap (list string) inode :=
  list_to_map (List.map (fun k => (k, Dir true)) ks).

(** A library and an empty destination. *)
Definition base : gmap (list string) inode :=
  dirs [ ["home"]; ["home"; "u"]; ["home"; "u"; "lib"];
         ["home"; "u"; "lib"; "steamapps"]; ["mnt"]; ["mnt"; "ssd"] ].

Definition with_root : gmap (list string) inode :=
  <[ ["mnt"; "ssd"; "lib_symlink"] := Dir true ]> base.

Definition with_target : gmap (list string) inode :=
  <[ ["mnt"; "ssd"; "lib_symlink"; "downloading"] := Dir true ]> with_root.

(** "downloading" is a link to its directory on the destination. *)
Definition linked : gmap (list string) inode :=
  <[ ["home"; "u"; "lib"; "steamapps"; "downloading"]
     := Link "/mnt/ssd/lib_symlink/downloading" ]> with_target.

(** The same link when the directory it points to is gone. *)
Definition dangling : gmap (list string) inode :=
  <[ ["home"; "u"; "lib"; "steamapps"; "downloading"]
     := Link "/mnt/ssd/lib_symlink/downloading" ]> with_root.

(** "downloading" is a link to another place. *)
Definition elsewhere : gmap (list string) inode :=
  <[ ["home"; "u"; "lib"; "steamapps"; "downloading"] := Link "/mnt" ]> with_target.

(** "downloading" is a directory with one file; nothing yet on the
    destination. *)
Definition nonempty : gmap (list string) inode :=
  <[ ["home"; "u"; "lib"; "steamapps"; "downloading"; "a"] := File true "A" ]>
    (<[ ["home"; "u"; "lib"; "steamapps"; "downloading"] := Dir true ]> base).



(** "downloading" is a file. *)
Definition plain_file : gmap (list string) inode :=
  <[ ["home"; "u"; "lib"; "steamapps"; "downloading"] := File true "x" ]> with_target.

(** The directory on the destination is a link back to "downloading",
    which is a directory with one file. *)
Definition reversed : gmap (list string) inode :=
  <[ ["mnt"; "ssd"; "lib_symlink"; "downloading"]
     := Link "/home/u/lib/steamapps/downloading" ]>
    (<[ ["mnt"; "ssd"; "lib_symlink"] := Dir true ]> nonempty).

Definition quoted (s : string) : string := String Re.dq (s +:+ String Re.dq "").

(** A configuration text with two libraries. *)
Definition vdf_text : string :=
  quoted "libraryfolders" +:+ nl +:+ "{" +:+ nl +:+
  "  " +:+ quoted "0" +:+ " { " +:+ quoted "path" +:+ "  " +:+ quoted "/mnt/games" +:+ " }" +:+ nl +:+
  "  " +:+ quoted "1" +:+ " { " +:+ quoted "path" +:+ " " +:+ quoted "/gone" +:+ " }" +:+ nl +:+
  "}" +:+ nl.



End Ex.

(** The lines of the log among the events. *)
Definition logs (evs : list event) : list string :=
  omap (fun ev => match ev with Log s => Some s | _ => None end) evs.

(** The node of a directory. *)
Definition is_Dir (o : option inode) : Prop := ∃ b, o = Some (Dir b).

(** What [os.mkdir] and [Path.mkdir] do to the map: nothing is removed
    or changed, and what is added is a directory. *)
Definition adds_dirs_only (m m' : gmap (list string) inode) : Prop :=
  ∀ k, m' !! k = m !! k ∨ (m !! k = None ∧ m' !! k = Some (Dir true)).

(** A location that is reached without symbolic links: every component
    is an ordinary name and leads to a directory. *)
Fixpoint plain_from (m : gmap (list string) inode) (cur rest : list string) : bool :=
  match rest with
  | [] => true
  | c :: rest' =>
      negb (String.eqb c "..")
      && match m !! (cur ++ [c]) with
         | Some (Dir _) => plain_from m (cur ++ [c]) rest'
         | _ => false
         end
  end.

Definition plain (m : gmap (list string) inode) (k : list string) : bool :=
  plain_from m [] k.

(** A name that is one component of a path. *)
Definition clean (c : string) : bool :=
  bool_decide (PurePath.of_string c = MkPath "" [c]) && negb (String.eqb c "..").

(** "downloading" is a directory with one file, and its directory on the
    destination is there and empty. *)
Definition ready_to_move : gmap (list string) inode :=
  <[ ["mnt"; "ssd"; "lib_symlink"; "downloading"] := Dir true ]>
    (<[ ["mnt"; "ssd"; "lib_symlink"] := Dir true ]> Ex.nonempty).

(** * Properties *)

Arguments FS.walk : simpl never.
Arguments FS.realpath : simpl never.

(** ** Resolution *)

Section Resolution.

Implicit Types (m : gmap (list string) inode) (cur rest k d : list string) (c : string).

Lemma walk_nil links m cur : FS.walk links m cur [] = inr cur.
Proof. by destruct links. Qed.

Lemma walk_cons links m cur c rest :
  FS.walk links m cur (c :: rest) =
  if String.eqb c ".." then
    match FS.node m (removelast cur) with
    | Some (Dir _) => FS.walk links m (removelast cur) rest
    | _ => inl ENOENT
    end
  else
    match m !! (cur ++ [c]) with
    | None => inl ENOENT
    | Some (Dir _) => FS.walk links m (cur ++ [c]) rest
    | Some (File _ _) => match rest with [] => inr (cur ++ [c]) | _ => inl ENOTDIR end
    | Some (Link t) =>
        if String.eqb t "" then inl ENOENT
        else
          match links with
          | 0 => inl ELOOP
          | S l => FS.walk l m (FS.link_start cur t) (FS.link_parts t ++ rest)
          end
    end.
Proof. by destruct links. Qed.

Lemma node_snoc m cur c : FS.node m (cur ++ [c]) = m !! (cur ++ [c]).
Proof. by destruct cur. Qed.

(** A walk that ends on a directory goes on from there, with what is left
    of its budget of links. *)
Lemma walk_app links m cur rest rest2 d :
  FS.walk links m cur rest = inr d → is_Dir (FS.node m d) →
  ∃ l', (l' <= links)%nat ∧ FS.walk links m cur (rest ++ rest2) = FS.walk l' m d rest2.
Proof.
  revert cur rest. induction links as [|l IHl]; intros cur rest; revert cur;
    (induction rest as [|c rest IH]; intros cur Hw Hd;
     [rewrite walk_nil in Hw; injection Hw as <-; eexists; split; [|reflexivity]; lia |]);
    rewrite walk_cons in Hw; simpl app; rewrite walk_cons;
    destruct (String.eqb c "..").
  - destruct (FS.node m (removelast cur)) as [[]|]; try done. by apply IH.
  - destruct (m !! (cur ++ [c])) as [[| |t]|] eqn:E; try done.
    + destruct rest; [|done]. injection Hw as <-. destruct Hd as [b Hd].
      rewrite node_snoc, E in Hd. done.
    + by apply IH.
    + by destruct (String.eqb t "").
  - destruct (FS.node m (removelast cur)) as [[]|]; try done. by apply IH.
  - destruct (m !! (cur ++ [c])) as [[| |t]|] eqn:E; try done.
    + destruct rest; [|done]. injection Hw as <-. destruct Hd as [b Hd].
      rewrite node_snoc, E in Hd. done.
    + by apply IH.
    + destruct (String.eqb t ""); [done|].
      rewrite app_assoc.
      destruct (IHl _ _ Hw Hd) as (l' & Hle & ->). exists l'. split; [lia|done].
Qed.


Lemma is_Dir_root m : is_Dir (FS.node m []).
Proof. by exists true. Qed.

Lemma is_Dir_link_start m cur t :
  is_Dir (FS.node m cur) → is_Dir (FS.node m (FS.link_start cur t)).
Proof. unfold FS.link_start. destruct (PurePath.starts_with _ _); [intros; apply is_Dir_root|done]. Qed.

(** A walk over a path and more components passes through the directory
    the path leads to. *)
Lemma walk_app_inv links m cur rest rest2 k :
  rest2 ≠ [] → is_Dir (FS.node m cur) →
  FS.walk links m cur (rest ++ rest2) = inr k →
  ∃ d l', FS.walk links m cur rest = inr d ∧ is_Dir (FS.node m d)
          ∧ FS.walk l' m d rest2 = inr k.
Proof.
  intros Hne. revert cur rest. induction links as [|l IHl]; intros cur rest; revert cur;
    (induction rest as [|c rest IH]; intros cur Hd Hw;
     [rewrite walk_nil; eauto |]);
    simpl app in Hw; rewrite walk_cons in Hw; rewrite walk_cons;
    destruct (String.eqb c "..").
  - destruct (FS.node m (removelast cur)) as [[| b |]|] eqn:E; try done.
    apply IH; [by exists b|done].
  - destruct (m !! (cur ++ [c])) as [[| b |t]|] eqn:E; try done.
    + destruct rest, rest2; done.
    + apply IH; [|done]. exists b. by rewrite node_snoc.
    + by destruct (String.eqb t "").
  - destruct (FS.node m (removelast cur)) as [[| b |]|] eqn:E; try done.
    apply IH; [by exists b|done].
  - destruct (m !! (cur ++ [c])) as [[| b |t]|] eqn:E; try done.
    + destruct rest, rest2; done.
    + apply IH; [|done]. exists b. by rewrite node_snoc.
    + destruct (String.eqb t ""); [done|].
      rewrite app_assoc in Hw. apply IHl in Hw; [done|]. by apply is_Dir_link_start.
Qed.

(** Where a walk ends there is a directory or a file. *)
Lemma walk_result links m cur rest k :
  is_Dir (FS.node m cur) → FS.walk links m cur rest = inr k →
  ∃ n, FS.node m k = Some n ∧ ∀ t, n ≠ Link t.
Proof.
  revert cur rest. induction links as [|l IHl]; intros cur rest; revert cur;
    (induction rest as [|c rest IH]; intros cur [b Hd] Hw;
     [rewrite walk_nil in Hw; injection Hw as <-; by exists (Dir b) |]);
    rewrite walk_cons in Hw; destruct (String.eqb c "..").
  - destruct (FS.node m (removelast cur)) as [[| b' |]|] eqn:E; try done.
    eapply IH; [by exists b'|done].
  - destruct (m !! (cur ++ [c])) as [[r s| b' |t]|] eqn:E; try done.
    + destruct rest; [|done]. injection Hw as <-. exists (File r s). by rewrite node_snoc.
    + eapply IH; [|done]. exists b'. by rewrite node_snoc.
    + by destruct (String.eqb t "").
  - destruct (FS.node m (removelast cur)) as [[| b' |]|] eqn:E; try done.
    eapply IH; [by exists b'|done].
  - destruct (m !! (cur ++ [c])) as [[r s| b' |t]|] eqn:E; try done.
    + destruct rest; [|done]. injection Hw as <-. exists (File r s). by rewrite node_snoc.
    + eapply IH; [|done]. exists b'. by rewrite node_snoc.
    + destruct (String.eqb t ""); [done|].
      eapply IHl; [|done]. apply is_Dir_link_start. by exists b.
Qed.

Lemma node_insert_fresh m k0 n0 k n :
  FS.node m k0 = None → FS.node m k = Some n → FS.node (<[k0:=n0]> m) k = Some n.
Proof.
  intros H0 Hk. destruct k as [|c k]; [done|]. simpl in *.
  rewrite lookup_insert_ne; [done|]. intros ->. simpl in H0. congruence.
Qed.

(** A node added at a free location changes no walk that succeeds. *)
Lemma walk_insert_fresh links m k0 n0 cur rest r :
  FS.node m k0 = None → FS.walk links m cur rest = inr r →
  FS.walk links (<[k0:=n0]> m) cur rest = inr r.
Proof.
  intros H0. revert cur rest. induction links as [|l IHl]; intros cur rest; revert cur;
    (induction rest as [|c rest IH]; intros cur Hw; [by rewrite walk_nil in * |]);
    rewrite walk_cons in Hw; rewrite walk_cons; destruct (String.eqb c "..").
  - destruct (FS.node m (removelast cur)) as [[| b |]|] eqn:E; try done.
    rewrite (node_insert_fresh _ _ _ _ _ H0 E). by apply IH.
  - destruct (m !! (cur ++ [c])) as [n|] eqn:E; [|done].
    rewrite <- node_snoc in E. rewrite <- node_snoc, (node_insert_fresh _ _ _ _ _ H0 E).
    destruct n as [| |t]; try done. by apply IH.
  - destruct (FS.node m (removelast cur)) as [[| b |]|] eqn:E; try done.
    rewrite (node_insert_fresh _ _ _ _ _ H0 E). by apply IH.
  - destruct (m !! (cur ++ [c])) as [n|] eqn:E; [|done].
    rewrite <- node_snoc in E. rewrite <- node_snoc, (node_insert_fresh _ _ _ _ _ H0 E).
    destruct n as [| |t]; try done; [by apply IH|].
    destruct (String.eqb t ""); [done|]. by apply IHl.
Qed.

End Resolution.

Section Stat.

Variable cwd : list string.
Implicit Types (m : gmap (list string) inode) (p : Path) (k d : list string).

Lemma unsnoc_app {A} (l : list A) x : FS.unsnoc (l ++ [x]) = Some (l, x).
Proof.
  unfold FS.unsnoc. destruct (l ++ [x]) as [|y l'] eqn:E; [by destruct l|].
  by rewrite <- E, removelast_last, last_last.
Qed.

Lemma unsnoc_inv {A} (l : list A) : 
  match FS.unsnoc l with
  | None => l = []
  | Some (ps, c) => l = ps ++ [c]
  end.
Proof.
  destruct l as [|y l']; [done|].
  destruct (exists_last (l:=y :: l')) as (ps & c & E); [done|].
  rewrite E, unsnoc_app. done.
Qed.

Lemma stat_inv m p k n :
  FS.stat cwd m p = inr (k, n) →
  is_Dir (FS.node m (FS.start cwd p))
  ∧ FS.walk FS.MAXSYMLINKS m (FS.start cwd p) (parts p) = inr k
  ∧ FS.node m k = Some n.
Proof.
  unfold FS.stat. destruct (FS.node m (FS.start cwd p)) as [[| b |]|]; try done.
  destruct (FS.walk _ _ _ _) as [|k']; [done|]. destruct (FS.node m k') eqn:E; [|done].
  intros [= <- <-]. split; [by exists b|done].
Qed.

Lemma stat_intro m p k n :
  is_Dir (FS.node m (FS.start cwd p)) →
  FS.walk FS.MAXSYMLINKS m (FS.start cwd p) (parts p) = inr k →
  FS.node m k = Some n →
  FS.stat cwd m p = inr (k, n).
Proof. intros [b Hb] Hw Hn. unfold FS.stat. by rewrite Hb, Hw, Hn. Qed.

(** [stat] never ends on a symbolic link. *)
Lemma stat_not_link m p k n : FS.stat cwd m p = inr (k, n) → ∀ t, n ≠ Link t.
Proof.
  intros (Hd & Hw & Hn)%stat_inv.
  destruct (walk_result _ _ _ _ _ Hd Hw) as (n' & Hn' & Hl). congruence.
Qed.

(** What is not a symbolic link is the same for [lstat] and [stat]. *)
Lemma lstat_stat m p k n :
  FS.lstat cwd m p = inr (k, n) → (∀ t, n ≠ Link t) → FS.stat cwd m p = inr (k, n).
Proof.
  unfold FS.lstat, FS.locate. intros H Hn.
  pose proof (unsnoc_inv (parts p)) as Hp.
  destruct (FS.unsnoc (parts p)) as [[ps c]|].
  - destruct (FS.stat cwd m (MkPath (root p) ps)) as [|[d [| b |]]] eqn:Es; try done.
    apply stat_inv in Es as (Hd & Hw & Hnd). simpl in Hw.
    change (FS.start cwd (MkPath (root p) ps)) with (FS.start cwd p) in *.
    destruct (walk_app _ _ _ _ [c] _ Hw) as (l' & _ & Hw'); [by exists b|].
    rewrite <- Hp in Hw'. rewrite walk_cons in Hw'.
    destruct (String.eqb c "..").
    + destruct (FS.node m (removelast d)) as [[| b' |]|] eqn:E; try done.
      rewrite walk_nil in Hw'. rewrite E in H. injection H as <- <-. by apply stat_intro.
    + rewrite node_snoc in H. destruct (m !! (d ++ [c])) as [n'|] eqn:E; [|done].
      injection H as <- <-. apply stat_intro; [done| |by rewrite node_snoc].
      rewrite Hw'. destruct n' as [| |t]; [done|by rewrite walk_nil|by destruct (Hn t)].
  - destruct (FS.node m (FS.start cwd p)) as [[| b |]|] eqn:E; try done.
    rewrite E in H. injection H as <- <-. apply stat_intro; [by exists b| by rewrite Hp, walk_nil|done].
Qed.

(** What [stat] finds, [lstat] finds too, or a symbolic link. *)
Lemma stat_lstat m p k n :
  FS.stat cwd m p = inr (k, n) →
  FS.lstat cwd m p = inr (k, n) ∨ ∃ k' t, FS.lstat cwd m p = inr (k', Link t).
Proof.
  intros (Hd & Hw & Hn)%stat_inv. unfold FS.lstat, FS.locate.
  pose proof (unsnoc_inv (parts p)) as Hp.
  destruct (FS.unsnoc (parts p)) as [[ps c]|].
  - rewrite Hp in Hw. apply walk_app_inv in Hw as (d & l' & Hw & [b Hb] & Hc); [|done|done].
    rewrite (stat_intro m (MkPath (root p) ps) d (Dir b)); [|done|done|done].
    rewrite walk_cons in Hc. destruct (String.eqb c "..").
    + destruct (FS.node m (removelast d)) as [[| b' |]|] eqn:E; try done.
      rewrite walk_nil in Hc. injection Hc as <-. rewrite E. left. congruence.
    + rewrite node_snoc. destruct (m !! (d ++ [c])) as [[| b' |t]|] eqn:E; try done.
      * injection Hc as <-. left. rewrite node_snoc in Hn. congruence.
      * rewrite walk_nil in Hc. injection Hc as <-. left. rewrite node_snoc in Hn. congruence.
      * right. eauto.
  - rewrite Hp, walk_nil in Hw. injection Hw as <-. destruct Hd as [b Hb].
    rewrite Hb. left. by rewrite Hn.
Qed.


Lemma stat_insert_fresh m k0 n0 p k n :
  FS.node m k0 = None → FS.stat cwd m p = inr (k, n) →
  FS.stat cwd (<[k0:=n0]> m) p = inr (k, n).
Proof.
  intros H0 ([b Hb] & Hw & Hn)%stat_inv. apply stat_intro.
  - exists b. by apply node_insert_fresh.
  - by apply walk_insert_fresh.
  - by apply node_insert_fresh.
Qed.

(** [os.mkdir] leaves a directory at its path. *)
Lemma os_mkdir_is_dir m p m' :
  FS.os_mkdir cwd m p = inr m' → FS.is_dir cwd m' p = true.
Proof.
  unfold FS.os_mkdir, FS.locate. pose proof (unsnoc_inv (parts p)) as Hp.
  destruct (FS.unsnoc (parts p)) as [[ps c]|].
  - destruct (FS.stat cwd m (MkPath (root p) ps)) as [|[d [| b |]]] eqn:Es; try done.
    destruct (String.eqb c "..") eqn:Ec.
    { destruct (FS.node m (removelast d)) as [[| b' |]|] eqn:E; try done. by rewrite E. }
    destruct (FS.node m (d ++ [c])) eqn:E; [done|]. intros [= <-].
    apply (stat_insert_fresh _ _ (Dir true) _ _ _ E) in Es.
    apply stat_inv in Es as (Hd & Hw & Hnd).
    change (FS.start cwd (MkPath (root p) ps)) with (FS.start cwd p) in *.
    change (parts (MkPath (root p) ps)) with ps in Hw.
    destruct (walk_app _ _ _ _ [c] _ Hw) as (l' & _ & Hw'); [by exists b|].
    rewrite <- Hp in Hw'. rewrite walk_cons, Ec, lookup_insert_eq, walk_nil in Hw'.
    unfold FS.is_dir.
    rewrite (stat_intro _ p (d ++ [c]) (Dir true)); [done|done|done|].
    by rewrite node_snoc, lookup_insert_eq.
  - destruct (FS.node m (FS.start cwd p)) as [[| b |]|] eqn:E; try done. by rewrite E.
Qed.

(** Where there is a directory, [os.mkdir] fails with [EEXIST]. *)
Lemma os_mkdir_exists m p :
  FS.is_dir cwd m p = true → FS.os_mkdir cwd m p = inl EEXIST.
Proof.
  unfold FS.is_dir. destruct (FS.stat cwd m p) as [|[k n]] eqn:Es; [done|]. intros _.
  assert (∃ kn, FS.lstat cwd m p = inr kn) as [[k' n'] Hl].
  { destruct (stat_lstat _ _ _ _ Es) as [?|(? & ? & ?)]; eauto. }
  unfold FS.os_mkdir. unfold FS.lstat in Hl.
  destruct (FS.locate cwd m p) as [|k'']; [done|].
  by destruct (FS.node m k'').
Qed.

Lemma Path_mkdir_is_dir n parents exist_ok m p m' :
  FS.Path_mkdir cwd n parents exist_ok m p = inr m' → FS.is_dir cwd m' p = true.
Proof.
  revert parents exist_ok m p m'. induction n as [|n IH]; intros parents exist_ok m p m';
    simpl; destruct (FS.os_mkdir cwd m p) as [e|m1] eqn:E.
  - destruct e; try (destruct (negb exist_ok || negb (FS.is_dir cwd m p)) eqn:C; [done|];
      intros [= <-]; apply orb_false_elim in C as [_ C]; by apply negb_false_iff in C).
    by destruct (negb parents || _).
  - intros [= <-]. by eapply os_mkdir_is_dir.
  - destruct e; try (destruct (negb exist_ok || negb (FS.is_dir cwd m p)) eqn:C; [done|];
      intros [= <-]; apply orb_false_elim in C as [_ C]; by apply negb_false_iff in C).
    destruct (negb parents || _); [done|].
    destruct (FS.Path_mkdir cwd n true true m (PurePath.parent p)); [done|]. apply IH.
  - intros [= <-]. by eapply os_mkdir_is_dir.
Qed.

Lemma Path_mkdir_noop n parents m p :
  FS.is_dir cwd m p = true → FS.Path_mkdir cwd n parents true m p = inr m.
Proof.
  intros Hd. destruct n; simpl; by rewrite (os_mkdir_exists _ _ Hd), Hd.
Qed.

(** Without [parents] the bound is not consulted. *)
Lemma Path_mkdir_no_parents n n' exist_ok m p :
  FS.Path_mkdir cwd n false exist_ok m p = FS.Path_mkdir cwd n' false exist_ok m p.
Proof. by destruct n, n'; simpl; destruct (FS.os_mkdir cwd m p) as [[]|]. Qed.

(** Enough calls on parents: one per component. *)
Lemma Path_mkdir_fuel n parents exist_ok m p :
  (length (parts p) <= n)%nat →
  FS.Path_mkdir cwd n parents exist_ok m p
  = FS.Path_mkdir cwd (length (parts p)) parents exist_ok m p.
Proof.
  revert parents exist_ok m p. induction n as [|n IH]; intros parents exist_ok m p Hn.
  { by replace (length (parts p)) with 0 by lia. }
  destruct (parts p) as [|c ps] eqn:Hp.
  - simpl. destruct (FS.os_mkdir cwd m p) as [[]|]; try done.
    replace (bool_decide (PurePath.parent p = p)) with true; [by rewrite orb_true_r|].
    symmetry. apply bool_decide_eq_true. destruct p. unfold PurePath.parent. simpl in *.
    by rewrite Hp.
  - assert (length (parts (PurePath.parent p)) = length ps) as Hl.
    { unfold PurePath.parent. simpl. rewrite Hp.
      destruct (exists_last (l:=c :: ps)) as (ps' & c' & E); [done|].
      rewrite E, removelast_last. apply (f_equal length) in E.
      rewrite length_app in E. simpl in E. lia. }
    simpl in Hn. simpl. destruct (FS.os_mkdir cwd m p) as [[]|]; try done.
    destruct (negb parents || _); [done|].
    rewrite (IH true true m (PurePath.parent p)) by lia. rewrite Hl.
    destruct (FS.Path_mkdir cwd (length ps) true true m (PurePath.parent p)) as [|m1]; [done|].
    apply Path_mkdir_no_parents.
Qed.

End Stat.

(** ** The executor *)

Section Executor.

Variable h : host.
Variable user : list event -> string -> string -> bool.
Implicit Types (m : gmap (list string) inode) (w : world) (link_path target_path : Path).

Ltac unfold_run :=
  unfold _append_log, _confirm, showerror, showinfo, showwarning;
  unfold bind, ret, raise, ask_fs, call_fs, emit, try_except; simpl.

Lemma is_dir_exists cwd m p : FS.is_dir cwd m p = true → FS.exists_ cwd m p = true.
Proof. unfold FS.is_dir, FS.exists_. by destruct (FS.stat cwd m p). Qed.

Lemma ensure_dir_is_dir m p m' :
  ensure_dir h m p = inr m' → FS.is_dir (cwd h) m' p = true.
Proof. apply Path_mkdir_is_dir. Qed.

Lemma ensure_dir_noop m p : FS.is_dir (cwd h) m p = true → ensure_dir h m p = inr m.
Proof. apply Path_mkdir_noop. Qed.

Lemma ensure_dir_idem m p m' : ensure_dir h m p = inr m' → ensure_dir h m' p = inr m'.
Proof. intros H. by apply ensure_dir_noop, ensure_dir_is_dir with m. Qed.

(** The tests of [handle_link_path] select the branch of the state that
    [classify] computes. *)
Lemma handle_link_path_state link_path target_path w :
  handle_link_path h user link_path target_path w
  = handle_state h user (classify h (fs w) link_path target_path) link_path target_path w.
Proof.
  unfold handle_link_path, classify, bind, ask_fs.
  destruct (FS.is_symlink _ _ _); [by destruct (is_symlink_to _ _ _ _)|].
  destruct (FS.exists_ _ _ _); [|done].
  destruct (FS.is_dir _ _ _); [|done].
  by destruct (dir_is_empty _ _ _).
Qed.

Lemma do_run_body_raise link_path target_path w e :
  ensure_dir h (fs w) target_path = inl e →
  do_run_body h user link_path target_path w = (Raise e, w).
Proof. intros H. unfold do_run_body, bind, call_fs. by rewrite H. Qed.

Lemma do_run_body_state link_path target_path w m1 :
  ensure_dir h (fs w) target_path = inr m1 →
  do_run_body h user link_path target_path w
  = handle_state h user (classify h m1 link_path target_path) link_path target_path
      (MkWorld m1 (trace w)).
Proof.
  intros H. unfold do_run_body, bind, call_fs. rewrite H.
  by rewrite handle_link_path_state.
Qed.


(** *** The branches that leave the file system as [ensure_dir] left it *)

Lemma already_linked_run link_path target_path w :
  already_linked link_path target_path w
  = (Ret tt, MkWorld (fs w)
               (trace w ++ [Log ("OK: " +:+ PurePath.str link_path +:+ " already links to "
                                 +:+ PurePath.str target_path)])).
Proof. done. Qed.

Lemma replace_symlink_declined link_path target_path w :
  let question :=
    PurePath.str link_path +:+ " is a symlink to a different target. Replace it?" in
  user (trace w) "Replace symlink" question = false →
  replace_symlink h user link_path target_path w
  = (Ret tt, MkWorld (fs w)
               (trace w ++ [AskYesNo "Replace symlink" question false;
                            Log ("Skipped replacing symlink: " +:+ PurePath.str link_path)])).
Proof.
  intros question H. unfold replace_symlink. unfold_run. fold question. rewrite H. unfold emit. simpl.
  by rewrite <- app_assoc.
Qed.

Lemma move_and_link_declined link_path target_path w :
  let question :=
    PurePath.str link_path +:+ " is a non-empty directory. Move its contents to "
    +:+ PurePath.str target_path +:+ " and replace with a symlink?" in
  user (trace w) "Move contents?" question = false →
  move_and_link h user link_path target_path w
  = (Ret tt, MkWorld (fs w)
               (trace w ++ [AskYesNo "Move contents?" question false;
                            Log ("Skipped: left existing directory: "
                                 +:+ PurePath.str link_path)])).
Proof.
  intros question H. unfold move_and_link. unfold_run. fold question. rewrite H. unfold emit. simpl.
  by rewrite <- app_assoc.
Qed.

Lemma report_not_a_directory_run link_path w :
  report_not_a_directory link_path w
  = (Ret tt, MkWorld (fs w)
               (trace w ++ [ShowError "Path exists and is not a directory"
                              (PurePath.str link_path);
                            Log ("ERROR: Path exists and is not a directory: "
                                 +:+ PurePath.str link_path)])).
Proof. unfold report_not_a_directory. unfold_run. by rewrite <- app_assoc. Qed.


(** *** Link creation *)

(** [create_symlink_safe] returns in every case; a refusal leaves the
    file system as it was. *)
Lemma create_symlink_safe_returns link_path target_path w :
  ∃ success message m',
    create_symlink_safe h link_path target_path w
    = (Ret (success, message), MkWorld m' (trace w))
    ∧ (success = false → m' = fs w).
Proof.
  unfold create_symlink_safe. unfold_run.
  destruct (FS.os_symlink _ _ _ _ _) as [e|m'] eqn:E; simpl.
  - destruct (windows h && bool_decide (OSError e = OSError EPERM));
      destruct w; simpl; eauto.
  - by eexists true, _, m'.
Qed.

Lemma create_symlink_safe_refused link_path target_path w :
  may_symlink h = false →
  ∃ message, create_symlink_safe h link_path target_path w = (Ret (false, message), w).
Proof.
  intros Hno. unfold create_symlink_safe, FS.os_symlink. rewrite Hno. unfold_run.
  destruct (windows h && _); destruct w; eauto.
Qed.

(** [link_and_report] returns in every case, with one line in the log. *)
Lemma link_and_report_returns done link_path target_path w :
  ∃ m' evs line,
    link_and_report h done link_path target_path w
    = (Ret tt, MkWorld m' (trace w ++ evs))
    ∧ logs evs = [line].
Proof.
  unfold link_and_report, bind.
  destruct (create_symlink_safe_returns link_path target_path w)
    as (success & message & m' & -> & _).
  destruct success; unfold_run.
  - by eexists _, [_], _.
  - rewrite <- app_assoc. by eexists _, [_; _], _.
Qed.

Lemma link_and_report_refused done link_path target_path w :
  may_symlink h = false →
  ∃ message,
    link_and_report h done link_path target_path w
    = (Ret tt, MkWorld (fs w)
                 (trace w ++ [Log ("ERROR: " +:+ message); ShowError "Symlink Error" message])).
Proof.
  intros Hno. unfold link_and_report, bind.
  destruct (create_symlink_safe_refused link_path target_path w Hno) as (message & ->).
  exists message. unfold_run. by rewrite <- app_assoc.
Qed.

(** *** Moving the contents *)


(** *** Calls that do not use the dialogs or the log *)

Lemma silent_call_fs f : silent (call_fs f).
Proof. intros w r w'. unfold call_fs. destruct (f (fs w)); by intros [= <- <-]. Qed.

Lemma silent_bind {A B} (c : M A) (f : A → M B) :
  silent c → (∀ a, silent (f a)) → silent (bind c f).
Proof.
  intros Hc Hf w r w'. unfold bind. destruct (c w) as [[a|e] w1] eqn:E.
  - intros H. rewrite (Hf _ _ _ _ H). eauto.
  - intros [= <- <-]. eauto.
Qed.

Lemma silent_move_all items dst : silent (move_all h items dst).
Proof.
  induction items as [|item items IH]; [by intros w r w' [= <- <-]|].
  apply silent_bind; [apply silent_call_fs|done].
Qed.

Lemma silent_move_dir_contents src dst : silent (move_dir_contents h src dst).
Proof.
  apply silent_bind; [apply silent_call_fs|intros _].
  apply silent_bind; [|intros; apply silent_move_all].
  intros w r w'. by destruct (FS.iterdir _ _ _); intros [= <- <-].
Qed.

Lemma silent_remove_dir link_path :
  silent (try_except
            (call_fs (fun m => FS.oserror (FS.os_rmdir (cwd h) m link_path)))
            (fun e => if is_OSError e
                      then call_fs (fun m => FS.shutil_rmtree (cwd h) m link_path)
                      else raise e)).
Proof.
  intros w r w'. unfold try_except.
  destruct (call_fs _ w) as [[a|e] w1] eqn:E; apply silent_call_fs in E.
  - intros [= <- <-]. done.
  - destruct (is_OSError e).
    + intros H%silent_call_fs. congruence.
    + intros [= <- <-]. done.
Qed.

(** An operation that returns has written one line to the log. *)
Lemma do_run_body_one_line link_path target_path w w' :
  do_run_body h user link_path target_path w = (Ret tt, w') →
  ∃ evs line, trace w' = trace w ++ evs ∧ logs evs = [line].
Proof.
  unfold do_run_body, bind.
  destruct (call_fs _ w) as [[[]|e] w1] eqn:E1; [|done].
  apply silent_call_fs in E1. rewrite <- E1. clear E1 w.
  rewrite handle_link_path_state.
  destruct (classify h (fs w1) link_path target_path); simpl.
  - (* Missing *)
    destruct (link_and_report_returns "Linked: " link_path target_path w1)
      as (m' & evs & line & Hr & Hl).
    unfold link_new. rewrite Hr. intros [= <-]. eauto.
  - intros [= <-]. by eexists [_], _.
  - (* SymlinkWrong *)
    unfold replace_symlink, bind, _confirm.
    destruct (user _ _ _); simpl.
    + destruct (call_fs _ _) as [[[]|e] w2] eqn:E2; [|done].
      apply silent_call_fs in E2. simpl in E2.
      destruct (link_and_report_returns "Replaced symlink: " link_path target_path w2)
        as (m' & evs & line & Hr & Hl).
      rewrite Hr, E2. intros [= <-]. simpl. rewrite <- app_assoc.
      by eexists (_ :: evs), line.
    + unfold _append_log, emit. simpl. intros [= <-]. simpl. rewrite <- app_assoc.
      by eexists [_; _], _.
  - (* EmptyDirectory *)
    unfold replace_empty_dir, bind.
    destruct (call_fs _ _) as [[[]|e] w2] eqn:E2; [|done].
    apply silent_call_fs in E2.
    destruct (link_and_report_returns "Linked (empty replaced): " link_path target_path w2)
      as (m' & evs & line & Hr & Hl).
    rewrite Hr, E2. intros [= <-]. eauto.
  - (* NonEmptyDirectory *)
    unfold move_and_link. unfold bind at 1. unfold _confirm.
    destruct (user _ _ _); simpl.
    + unfold bind at 1.
      destruct (move_dir_contents _ _ _ _) as [[[]|e] w2] eqn:E2; [|done].
      apply silent_move_dir_contents in E2. simpl in E2.
      unfold bind at 1.
      destruct (try_except _ _ w2) as [[[]|e] w3] eqn:E3; [|done].
      apply silent_remove_dir in E3.
      destruct (link_and_report_returns "Moved contents and linked: " link_path target_path w3)
        as (m' & evs & line & Hr & Hl).
      rewrite Hr, E3, E2. intros [= <-]. simpl. rewrite <- app_assoc.
      by eexists (_ :: evs), line.
    + unfold _append_log, emit. simpl. intros [= <-]. simpl. rewrite <- app_assoc.
      by eexists [_; _], _.
  - unfold report_not_a_directory. unfold_run. intros [= <-]. simpl.
    rewrite <- app_assoc. by eexists [_; _], _.
Qed.

End Executor.

(** C9.  The loop body calls [ensure_dir] on the target path before it
    looks at the link path.  If the call raises, the body raises the same
    exception and has done nothing else; otherwise the target path is a
    directory from then on, the state of the link path is decided on the
    file system that [ensure_dir] left, and that file system is the final
    one when the link path is already linked, when the user declines the
    replacement or the move, when the link path is not a directory, and
    when the host refuses the link at a missing link path. *)
Theorem C9_target_dir_before_classification
  (h : host) (user : list event -> string -> string -> bool)
  (link_path target_path : Path) (w : world) :
  (∀ e, ensure_dir h (fs w) target_path = inl e →
        do_run_body h user link_path target_path w = (Raise e, w))
  ∧ (∀ m1, ensure_dir h (fs w) target_path = inr m1 →
       let st := classify h m1 link_path target_path in
       let res := do_run_body h user link_path target_path w in
       FS.is_dir (cwd h) m1 target_path = true
       ∧ res = handle_state h user st link_path target_path (MkWorld m1 (trace w))
       ∧ (st = SymlinkCorrect → res.1 = Ret tt ∧ fs res.2 = m1)
       ∧ (st = SymlinkWrong →
          user (trace w) "Replace symlink"
            (PurePath.str link_path +:+ " is a symlink to a different target. Replace it?")
          = false →
          res.1 = Ret tt ∧ fs res.2 = m1)
       ∧ (st = NonEmptyDirectory →
          user (trace w) "Move contents?"
            (PurePath.str link_path +:+ " is a non-empty directory. Move its contents to "
             +:+ PurePath.str target_path +:+ " and replace with a symlink?")
          = false →
          res.1 = Ret tt ∧ fs res.2 = m1)
       ∧ (st = NonDirectoryFile → res.1 = Ret tt ∧ fs res.2 = m1)
       ∧ (st = Missing → may_symlink h = false → res.1 = Ret tt ∧ fs res.2 = m1)).
Proof.
  split; [intros e He; by apply do_run_body_raise|].
  intros m1 H1. cbv zeta.
  rewrite (do_run_body_state h user link_path target_path w m1 H1).
  split; [by eapply ensure_dir_is_dir|]. split; [done|].
  split; [|split; [|split; [|split]]].
  - by intros ->.
  - intros -> Hu. simpl.
    by rewrite (replace_symlink_declined h user link_path target_path (MkWorld m1 (trace w))).
  - intros -> Hu. simpl.
    by rewrite (move_and_link_declined h user link_path target_path (MkWorld m1 (trace w))).
  - by intros ->.
  - intros -> Hno. simpl. unfold link_new.
    by destruct (link_and_report_refused h "Linked: " link_path target_path
                   (MkWorld m1 (trace w)) Hno) as (message & ->).
Qed.

(** C4, amended.  When the link path is a correct symbolic link once
    [ensure_dir] has returned on the target path, the operation changes
    nothing else: the file system is the one [ensure_dir] left (the one
    before, when the target path was a directory already), no question is
    asked, one line "OK: ... already links to ..." is logged, and a second
    execution leaves the file system as it is and logs the same line. *)
Theorem C4_already_linked_no_further_mutation
  (h : host) (user : list event -> string -> string -> bool)
  (link_path target_path : Path) (w : world) (m1 : gmap (list string) inode) :
  ensure_dir h (fs w) target_path = inr m1 →
  classify h m1 link_path target_path = SymlinkCorrect →
  let line := Log ("OK: " +:+ PurePath.str link_path +:+ " already links to "
                   +:+ PurePath.str target_path) in
  do_run_body h user link_path target_path w = (Ret tt, MkWorld m1 (trace w ++ [line]))
  ∧ do_run_body h user link_path target_path (MkWorld m1 (trace w ++ [line]))
    = (Ret tt, MkWorld m1 ((trace w ++ [line]) ++ [line]))
  ∧ (FS.is_dir (cwd h) (fs w) target_path = true → m1 = fs w).
Proof.
  intros H1 Hst line. split; [|split].
  - by rewrite (do_run_body_state h user _ _ w m1 H1), Hst.
  - rewrite (do_run_body_state h user _ _ (MkWorld m1 _) m1); [by rewrite Hst|].
    by apply ensure_dir_idem with (fs w).
  - intros Hd. apply (ensure_dir_noop h) in Hd. congruence.
Qed.

(** C5, amended.  In the states SymlinkWrong and NonEmptyDirectory a
    declined confirmation is reported as skipped, and the file system is
    then the one [ensure_dir] left when it returned on the target path:
    the link path and all the rest are untouched, and nothing at all has
    changed when the target path was a directory already.  The question is
    asked on that file system, so that no other mutation precedes the
    answer. *)
Theorem C5_declined_is_skipped
  (h : host) (user : list event -> string -> string -> bool)
  (link_path target_path : Path) (w : world) (m1 : gmap (list string) inode) :
  ensure_dir h (fs w) target_path = inr m1 →
  (FS.is_dir (cwd h) (fs w) target_path = true → m1 = fs w)
  ∧ (let question :=
       PurePath.str link_path +:+ " is a symlink to a different target. Replace it?" in
     classify h m1 link_path target_path = SymlinkWrong →
     user (trace w) "Replace symlink" question = false →
     do_run_body h user link_path target_path w
     = (Ret tt, MkWorld m1
                  (trace w ++ [AskYesNo "Replace symlink" question false;
                               Log ("Skipped replacing symlink: "
                                    +:+ PurePath.str link_path)])))
  ∧ (let question :=
       PurePath.str link_path +:+ " is a non-empty directory. Move its contents to "
       +:+ PurePath.str target_path +:+ " and replace with a symlink?" in
     classify h m1 link_path target_path = NonEmptyDirectory →
     user (trace w) "Move contents?" question = false →
     do_run_body h user link_path target_path w
     = (Ret tt, MkWorld m1
                  (trace w ++ [AskYesNo "Move contents?" question false;
                               Log ("Skipped: left existing directory: "
                                    +:+ PurePath.str link_path)]))).
Proof.
  intros H1. rewrite (do_run_body_state h user _ _ w m1 H1). split; [|split].
  - intros Hd. apply (ensure_dir_noop h) in Hd. congruence.
  - intros question -> Hu.
    apply (replace_symlink_declined h user link_path target_path (MkWorld m1 (trace w)) Hu).
  - intros question -> Hu.
    apply (move_and_link_declined h user link_path target_path (MkWorld m1 (trace w)) Hu).
Qed.



(** C1, amended.  The tests of [handle_link_path] classify every link
    path, in this order: a symbolic link (also a dangling one, for which
    [exists()] is false) is compared with the target path by canonical
    resolution, equal paths giving SymlinkCorrect, different paths or a
    failed resolution SymlinkWrong; a directory is EmptyDirectory when its
    entries can be listed and there are none, NonEmptyDirectory otherwise;
    a file is NonDirectoryFile; a path at which there is nothing is
    Missing.  SymlinkCorrect holds if and only if the link path is a
    symbolic link and both resolutions give the same canonical path. *)
Theorem C1_classification
  (h : host) (user : list event -> string -> string -> bool)
  (m : gmap (list string) inode) (link_path target_path : Path) :
  let st := classify h m link_path target_path in
  (∀ w, fs w = m →
        handle_link_path h user link_path target_path w
        = handle_state h user st link_path target_path w)
  ∧ (∀ e, FS.lstat (cwd h) m link_path = inl e → st = Missing)
  ∧ (∀ k t, FS.lstat (cwd h) m link_path = inr (k, Link t) →
            st = match FS.resolve (cwd h) m link_path, FS.resolve (cwd h) m target_path with
                 | inr a, inr b => if bool_decide (a = b) then SymlinkCorrect else SymlinkWrong
                 | _, _ => SymlinkWrong
                 end)
  ∧ (∀ k b, FS.lstat (cwd h) m link_path = inr (k, Dir b) →
            st = if b && bool_decide (FS.children m k = [])
                 then EmptyDirectory else NonEmptyDirectory)
  ∧ (∀ k r s, FS.lstat (cwd h) m link_path = inr (k, File r s) → st = NonDirectoryFile)
  ∧ (st = SymlinkCorrect ↔
     FS.is_symlink (cwd h) m link_path = true
     ∧ ∃ c, FS.resolve (cwd h) m link_path = inr c
            ∧ FS.resolve (cwd h) m target_path = inr c).
Proof.
  intros st. subst st. split; [|split; [|split; [|split; [|split]]]].
  - intros w <-. apply handle_link_path_state.
  - intros e Hl. unfold classify, FS.is_symlink, FS.exists_. rewrite Hl.
    destruct (FS.stat (cwd h) m link_path) as [|[k n]] eqn:Hs; [done|].
    destruct (stat_lstat _ _ _ _ _ Hs) as [?|(? & ? & ?)]; congruence.
  - intros k t Hl. unfold classify, is_symlink_to, FS.is_symlink. rewrite Hl.
    destruct (FS.resolve (cwd h) m link_path) as [|a]; [done|].
    destruct (FS.resolve (cwd h) m target_path) as [|b]; [done|].
    by destruct (bool_decide (a = b)).
  - intros k b Hl.
    assert (FS.stat (cwd h) m link_path = inr (k, Dir b)) as Hs by by apply lstat_stat.
    unfold classify, FS.is_symlink, FS.exists_, FS.is_dir, dir_is_empty,
      FS.exists_, FS.is_dir, FS.iterdir, FS.os_listdir.
    rewrite Hl, Hs. simpl. destruct b; [|done]. simpl.
    by destruct (FS.children m k).
  - intros k r s Hl.
    assert (FS.stat (cwd h) m link_path = inr (k, File r s)) as Hs by by apply lstat_stat.
    unfold classify, FS.is_symlink, FS.exists_, FS.is_dir. by rewrite Hl, Hs.
  - unfold classify, is_symlink_to.
    destruct (FS.is_symlink (cwd h) m link_path).
    + destruct (FS.resolve (cwd h) m link_path) as [|a];
        [split; [done|by intros (_ & ? & ? & _)]|].
      destruct (FS.resolve (cwd h) m target_path) as [|b];
        [split; [done|by intros (_ & ? & _ & ?)]|].
      destruct (bool_decide_reflect (a = b)) as [->|Hne].
      * split; eauto.
      * split; [done|]. intros (_ & c & [= ->] & [= ->]). done.
    + split; [|by intros [? _]].
      destruct (FS.exists_ _ _ _); [|done]. destruct (FS.is_dir _ _ _); [|done].
      by destruct (dir_is_empty _ _ _).
Qed.

(** C6.  The planner derives the destination root from the name of the
    parent of the steamapps directory, ["steam_library"] standing in for an
    empty name, calls [ensure_dir] on the destination base and on the
    root, and returns the root with the plan: "downloading" always, then
    "temp" if and only if the flag is set.  It returns exactly when both
    calls return; the root is then a directory, created by the call or
    left as it was. *)
Theorem C6_destination_root_and_plan
  (h : host) (steamapps dest_base : Path) (link_temp : bool) (w : world) :
  let parent_name := PurePath.name (PurePath.parent steamapps) in
  ∃ target_root plan,
    (parent_name ≠ "" → target_root = dest_base // (parent_name +:+ "_symlink"))
    ∧ (parent_name = "" → target_root = dest_base // "steam_library_symlink")
    ∧ plan = ("downloading", true) :: (if link_temp then [("temp", true)] else [])
    ∧ (In ("temp", true) plan ↔ link_temp = true)
    ∧ (∀ m1 m2,
         ensure_dir h (fs w) dest_base = inr m1 →
         ensure_dir h m1 target_root = inr m2 →
         do_run_plan h steamapps dest_base link_temp w
         = (Ret (target_root, plan), MkWorld m2 (trace w))
         ∧ FS.is_dir (cwd h) m2 target_root = true
         ∧ (FS.is_dir (cwd h) m1 target_root = true → m2 = m1))
    ∧ (∀ e, ensure_dir h (fs w) dest_base = inl e →
            do_run_plan h steamapps dest_base link_temp w = (Raise e, w))
    ∧ (∀ m1 e,
         ensure_dir h (fs w) dest_base = inr m1 →
         ensure_dir h m1 target_root = inl e →
         do_run_plan h steamapps dest_base link_temp w
         = (Raise e, MkWorld m1 (trace w))).
Proof.
  intros parent_name. unfold do_run_plan. fold parent_name.
  exists (dest_base // ((if String.eqb parent_name "" then "steam_library" else parent_name)
                        +:+ "_symlink")).
  eexists. split; [|split; [|split; [reflexivity|split; [|split; [|split]]]]].
  - intros Hn. by destruct (String.eqb_spec parent_name "").
  - intros Hn. by destruct (String.eqb_spec parent_name "").
  - destruct link_temp; split; try done.
    + intros _. right. by left.
    + intros [|[]]; done.
  - intros m1 m2 H1 H2. unfold bind, call_fs, ret. rewrite H1. simpl. rewrite H2. simpl.
    split; [done|]. split; [by eapply ensure_dir_is_dir|].
    intros Hd. apply (ensure_dir_noop h) in Hd. congruence.
  - intros e H1. unfold bind, call_fs. by rewrite H1.
  - intros m1 e H1 H2. unfold bind, call_fs. rewrite H1. simpl. by rewrite H2.
Qed.


(** ** Discovery *)

#[export] Instance str_key_le_total : Total str_key_le.
Proof. intros p q. apply String.le_total. Qed.

#[export] Instance str_key_le_trans : Transitive str_key_le.
Proof. intros p q r. unfold str_key_le. apply transitivity. Qed.


(** ** The configuration parser *)

Section Strings.

Implicit Types (s a b p r : string) (c : ascii) (f : ascii -> bool).

Lemma append_nil s : "" +:+ s = s.
Proof. done. Qed.

Lemma append_cons c a b : String c a +:+ b = String c (a +:+ b).
Proof. done. Qed.

Lemma append_assoc a b r : (a +:+ b) +:+ r = a +:+ b +:+ r.
Proof. induction a as [|c a IH]; [done|]. rewrite !append_cons. congruence. Qed.

Lemma length_append a b : String.length (a +:+ b) = String.length a + String.length b.
Proof. induction a as [|c a IH]; [done|]. rewrite append_cons. simpl. congruence. Qed.

Lemma all_chars_cons f c s :
  VdfSpec.all_chars f (String c s) ↔ f c = true ∧ VdfSpec.all_chars f s.
Proof.
  unfold VdfSpec.all_chars. simpl. split.
  - intros H. split; [apply H; by left|]. intros c' Hc. apply H. by right.
  - intros [Hc Hs] c' [<-|Hin]; [done|by apply Hs].
Qed.

Lemma strip_prefix_spec p s r : Re.strip_prefix p s = Some r ↔ s = p +:+ r.
Proof.
  revert s. induction p as [|c p IH]; intros s; simpl.
  - rewrite append_nil. split; congruence.
  - rewrite append_cons. destruct s as [|c' s]; [done|].
    destruct (Ascii.eqb_spec c c') as [->|Hne].
    + rewrite IH. split; congruence.
    + split; [done|]. congruence.
Qed.

Lemma span_spec f s a b :
  Re.span f s = (a, b) → s = a +:+ b ∧ VdfSpec.all_chars f a ∧ stops f b.
Proof.
  revert a b. induction s as [|c s IH]; intros a b; simpl.
  - intros [= <- <-]. split; [done|]. split; [by intros ? []|done].
  - destruct (f c) eqn:Hc.
    + destruct (Re.span f s) as [a' b']. intros [= <- <-].
      destruct (IH a' b' eq_refl) as (-> & Ha & Hb). rewrite append_cons.
      split; [done|]. split; [by apply all_chars_cons|done].
    + intros [= <- <-]. split; [done|]. split; [by intros ? []|done].
Qed.

Lemma span_app f a b :
  VdfSpec.all_chars f a → stops f b → Re.span f (a +:+ b) = (a, b).
Proof.
  intros Ha Hb. induction a as [|c a IH].
  - rewrite append_nil. destruct b as [|c b]; [done|]. simpl in *. by rewrite Hb.
  - rewrite append_cons. simpl. apply all_chars_cons in Ha as [-> Ha]. by rewrite IH.
Qed.


Lemma isspace_dq : Text.isspace Re.dq = false.
Proof. reflexivity. Qed.

Lemma not_dq_false c : Re.not_dq c = false → c = Re.dq.
Proof. unfold Re.not_dq. by destruct (Ascii.eqb_spec c Re.dq). Qed.

(** A match at the start of the text is an entry without text before it. *)
Lemma match_here_occurrence s x post :
  Re.match_here s = Some (x, post) ↔ VdfSpec.occurrence s "" x post.
Proof.
  unfold Re.match_here, VdfSpec.occurrence. split.
  - destruct (Re.strip_prefix Re.quoted_path s) as [r1|] eqn:E1; [|done].
    apply strip_prefix_spec in E1 as ->.
    destruct (Re.span Text.isspace r1) as [ws r2] eqn:E2.
    apply span_spec in E2 as (-> & Hws & _).
    destruct ws as [|w ws]; [done|]. destruct r2 as [|c r3]; [done|].
    destruct (Ascii.eqb_spec c Re.dq) as [->|]; [|done].
    destruct (Re.span Re.not_dq r3) as [x' r4] eqn:E3.
    apply span_spec in E3 as (-> & Hx & Hstop).
    destruct x' as [|x0 x']; [done|]. destruct r4 as [|c r5]; [done|].
    intros [= <- <-]. simpl in Hstop. apply not_dq_false in Hstop as ->.
    exists (String w ws). by rewrite append_nil.
  - intros (ws & -> & Hne & Hws & Hxne & Hx). rewrite append_nil.
    rewrite (proj2 (strip_prefix_spec Re.quoted_path _ _) eq_refl).
    rewrite span_app; [|done|apply isspace_dq].
    destruct ws as [|w ws]; [done|].
    rewrite Ascii.eqb_refl.
    rewrite span_app; [|done|]; [|unfold stops, Re.not_dq; by rewrite Ascii.eqb_refl].
    by destruct x.
Qed.

Lemma match_here_shorter s x post :
  Re.match_here s = Some (x, post) → (String.length post < String.length s)%nat.
Proof.
  intros (ws & -> & _)%match_here_occurrence.
  rewrite append_nil, !length_append. simpl. rewrite length_append. simpl. lia.
Qed.

(** Entries of a text and of the text without its first character. *)
Lemma occurrence_cons c s pre x post :
  VdfSpec.occurrence (String c s) (String c pre) x post ↔ VdfSpec.occurrence s pre x post.
Proof.
  unfold VdfSpec.occurrence. split; intros (ws & E & H); exists ws; (split; [|done]).
  - rewrite append_cons in E. congruence.
  - rewrite append_cons. congruence.
Qed.

Lemma occurrence_cons_inv c s pre x post :
  VdfSpec.occurrence (String c s) pre x post →
  pre = "" ∨ ∃ pre', pre = String c pre' ∧ VdfSpec.occurrence s pre' x post.
Proof.
  destruct pre as [|c' pre']; [by left|]. intros H. right. exists pre'.
  assert (c' = c) as ->.
  { destruct H as (ws & E & _). rewrite append_cons in E. congruence. }
  split; [done|]. by apply occurrence_cons in H.
Qed.

Lemma occurrence_empty pre x post : ¬ VdfSpec.occurrence "" pre x post.
Proof.
  intros (ws & E & _). apply (f_equal String.length) in E.
  rewrite !length_append in E. simpl in E. lia.
Qed.

Lemma entries_cons c s xs :
  (∀ x post, ¬ VdfSpec.occurrence (String c s) "" x post) →
  VdfSpec.entries s xs → VdfSpec.entries (String c s) xs.
Proof.
  intros Hno Hs. inversion Hs as [? Hnone|? pre x post xs' Hocc Hleft Hrest]; subst.
  - apply VdfSpec.entries_none. intros pre x post H.
    destruct (occurrence_cons_inv _ _ _ _ _ H) as [->|(pre' & -> & H')];
      [exact (Hno _ _ H)|exact (Hnone _ _ _ H')].
  - apply (VdfSpec.entries_next _ (String c pre) x post); [by apply occurrence_cons| |done].
    intros pre' x' post' H.
    destruct (occurrence_cons_inv _ _ _ _ _ H) as [->|(pre'' & -> & H')];
      [by destruct (Hno x' post')|].
    simpl. apply Hleft in H'. lia.
Qed.

(** [findall] returns the values of the entries of the text in their
    order of appearance. *)
Lemma findall_from_entries n s :
  (String.length s <= n)%nat → VdfSpec.entries s (Re.findall_from n s).
Proof.
  revert s. induction n as [|n IH]; intros s Hn.
  - destruct s; [|simpl in Hn; lia]. apply VdfSpec.entries_none. intros ???.
    apply occurrence_empty.
  - simpl. destruct (Re.match_here s) as [[x rest]|] eqn:E.
    + apply (VdfSpec.entries_next _ "" x rest).
      * by apply match_here_occurrence.
      * intros. simpl. lia.
      * apply IH. apply match_here_shorter in E. lia.
    + destruct s as [|c s].
      * apply VdfSpec.entries_none. intros ???. apply occurrence_empty.
      * apply entries_cons; [|apply IH; simpl in Hn; lia].
        intros x post H%match_here_occurrence. congruence.
Qed.

(** The entries of a text are determined by it. *)
Lemma entries_findall_from n s xs :
  (String.length s <= n)%nat → VdfSpec.entries s xs → xs = Re.findall_from n s.
Proof.
  revert s xs. induction n as [|n IH]; intros s xs Hn Hs.
  - destruct s; [|simpl in Hn; lia].
    inversion Hs as [|? pre x post xs' Hocc]; subst; [done|].
    by apply occurrence_empty in Hocc.
  - simpl. inversion Hs as [? Hnone|? pre x post xs' Hocc Hleft Hrest]; subst.
    + destruct (Re.match_here s) as [[x rest]|] eqn:E.
      { apply match_here_occurrence in E. by apply Hnone in E. }
      destruct s as [|c s]; [done|]. apply IH; [simpl in Hn; lia|].
      apply VdfSpec.entries_none. intros pre x post H. eapply Hnone.
      by apply (occurrence_cons c).
    + destruct pre as [|c pre].
      * apply match_here_occurrence in Hocc as E. rewrite E. f_equal.
        apply IH; [|done]. apply match_here_shorter in E. lia.
      * destruct (Re.match_here s) as [[x0 rest0]|] eqn:E.
        { apply match_here_occurrence, Hleft in E. simpl in E. lia. }
        destruct s as [|c' s]; [by apply occurrence_empty in Hocc|].
        assert (c = c') as <-.
        { destruct Hocc as (ws & Heq & _). rewrite append_cons in Heq. congruence. }
        apply IH; [simpl in Hn; lia|].
        apply (VdfSpec.entries_next _ pre x post); [by apply occurrence_cons in Hocc| |done].
        intros pre' x' post' H. apply (occurrence_cons c) in H. apply Hleft in H.
        simpl in H. lia.
Qed.

End Strings.


(** ** The theorems at concrete inputs

    Closed statements are decided by evaluation. *)

Ltac by_eval := apply (bool_decide_eq_true_1 _); vm_compute; reflexivity.

Lemma C1_witness :
  classify Ex.linux Ex.linked Ex.link_path Ex.target_path = SymlinkCorrect
  ∧ classify Ex.linux Ex.elsewhere Ex.link_path Ex.target_path = SymlinkWrong
  ∧ classify Ex.linux Ex.nonempty Ex.link_path Ex.target_path = NonEmptyDirectory
  ∧ classify Ex.linux Ex.plain_file Ex.link_path Ex.target_path = NonDirectoryFile
  ∧ classify Ex.linux Ex.base Ex.link_path Ex.target_path = Missing.
Proof.
  split; [|split; [|split; [|split]]].
  - apply (C1_classification Ex.linux Ex.yes Ex.linked Ex.link_path Ex.target_path).
    split; [by_eval|].
    exists (MkPath "/" ["mnt"; "ssd"; "lib_symlink"; "downloading"]). split; by_eval.
  - destruct (C1_classification Ex.linux Ex.yes Ex.elsewhere Ex.link_path Ex.target_path)
      as (_ & _ & H & _).
    rewrite (H ["home"; "u"; "lib"; "steamapps"; "downloading"] "/mnt"); by_eval.
  - destruct (C1_classification Ex.linux Ex.yes Ex.nonempty Ex.link_path Ex.target_path)
      as (_ & _ & _ & H & _).
    rewrite (H ["home"; "u"; "lib"; "steamapps"; "downloading"] true); by_eval.
  - destruct (C1_classification Ex.linux Ex.yes Ex.plain_file Ex.link_path Ex.target_path)
      as (_ & _ & _ & _ & H & _).
    apply (H ["home"; "u"; "lib"; "steamapps"; "downloading"] true "x"). by_eval.
  - destruct (C1_classification Ex.linux Ex.yes Ex.base Ex.link_path Ex.target_path)
      as (_ & H & _).
    apply (H ENOENT). by_eval.
Defined.

(** C1 as the specification states it fails where both paths resolve to
    the same directory and the link path is not a symbolic link: here the
    target path is a link to the directory at the link path. *)
Lemma C1_counterexample :
  FS.resolve (cwd Ex.linux) Ex.reversed Ex.link_path
  = inr (MkPath "/" ["home"; "u"; "lib"; "steamapps"; "downloading"])
  ∧ FS.resolve (cwd Ex.linux) Ex.reversed Ex.target_path
    = inr (MkPath "/" ["home"; "u"; "lib"; "steamapps"; "downloading"])
  ∧ classify Ex.linux Ex.reversed Ex.link_path Ex.target_path = NonEmptyDirectory.
Proof. repeat split; by_eval. Qed.




Lemma C4_witness :
  do_run_body Ex.linux Ex.yes Ex.link_path Ex.target_path (MkWorld Ex.linked [])
  = (Ret tt,
     MkWorld Ex.linked
       [Log "OK: /home/u/lib/steamapps/downloading already links to /mnt/ssd/lib_symlink/downloading"]).
Proof.
  destruct (C4_already_linked_no_further_mutation Ex.linux Ex.yes Ex.link_path
              Ex.target_path (MkWorld Ex.linked []) Ex.linked) as (-> & _);
    by_eval.
Defined.

(** C4 as the specification states it fails on a link whose directory is
    gone: the link points at the target path, and the operation creates
    the directory before it finds the link correct. *)
Lemma C4_counterexample :
  let res := do_run_body Ex.linux Ex.yes Ex.link_path Ex.target_path
               (MkWorld Ex.dangling []) in
  is_symlink_to Ex.linux Ex.dangling Ex.link_path Ex.target_path = true
  ∧ res.1 = Ret tt
  ∧ Ex.dangling !! ["mnt"; "ssd"; "lib_symlink"; "downloading"] = None
  ∧ fs res.2 !! ["mnt"; "ssd"; "lib_symlink"; "downloading"] = Some (Dir true).
Proof. repeat split; by_eval. Qed.

Lemma C5_witness :
  do_run_body Ex.linux Ex.no Ex.link_path Ex.target_path (MkWorld Ex.elsewhere [])
  = (Ret tt,
     MkWorld Ex.elsewhere
       [AskYesNo "Replace symlink"
          "/home/u/lib/steamapps/downloading is a symlink to a different target. Replace it?"
          false;
        Log "Skipped replacing symlink: /home/u/lib/steamapps/downloading"]).
Proof.
  destruct (C5_declined_is_skipped Ex.linux Ex.no Ex.link_path Ex.target_path
              (MkWorld Ex.elsewhere []) Ex.elsewhere) as (_ & H & _); [by_eval|].
  rewrite H; by_eval.
Defined.

(** C5 as the specification states it fails on a first run: the user
    declines the move, and the directories of the destination have been
    created all the same. *)
Lemma C5_counterexample :
  let res := do_run_body Ex.linux Ex.no Ex.link_path Ex.target_path
               (MkWorld Ex.nonempty []) in
  classify Ex.linux Ex.nonempty Ex.link_path Ex.target_path = NonEmptyDirectory
  ∧ res.1 = Ret tt
  ∧ logs (trace res.2)
    = ["Skipped: left existing directory: /home/u/lib/steamapps/downloading"]
  ∧ Ex.nonempty !! ["mnt"; "ssd"; "lib_symlink"; "downloading"] = None
  ∧ fs res.2 !! ["mnt"; "ssd"; "lib_symlink"; "downloading"] = Some (Dir true).
Proof. repeat split; by_eval. Qed.

Lemma C6_witness :
  do_run_plan Ex.linux Ex.steamapps Ex.ssd true (MkWorld Ex.base [])
  = (Ret (MkPath "/" ["mnt"; "ssd"; "lib_symlink"],
          [("downloading", true); ("temp", true)]),
     MkWorld Ex.with_root [])
  ∧ do_run_plan Ex.linux (MkPath "/" ["steamapps"]) Ex.ssd false (MkWorld Ex.base [])
    = (Ret (MkPath "/" ["mnt"; "ssd"; "steam_library_symlink"], [("downloading", true)]),
       MkWorld (<[ ["mnt"; "ssd"; "steam_library_symlink"] := Dir true ]> Ex.base) []).
Proof.
  split.
  - destruct (C6_destination_root_and_plan Ex.linux Ex.steamapps Ex.ssd true
                (MkWorld Ex.base [])) as (target_root & plan & Hr & _ & -> & _ & H & _).
    rewrite Hr in H by by_eval.
    destruct (H Ex.base Ex.with_root) as (-> & _); by_eval.
  - destruct (C6_destination_root_and_plan Ex.linux (MkPath "/" ["steamapps"]) Ex.ssd false
                (MkWorld Ex.base [])) as (target_root & plan & _ & Hr & -> & _ & H & _).
    rewrite Hr in H by by_eval.
    destruct (H Ex.base (<[ ["mnt"; "ssd"; "steam_library_symlink"] := Dir true ]> Ex.base))
      as (-> & _); by_eval.
Defined.




Lemma C9_witness :
  let res := do_run_body Ex.linux Ex.no Ex.link_path Ex.target_path
               (MkWorld Ex.nonempty []) in
  let m1 := <[ ["mnt"; "ssd"; "lib_symlink"; "downloading"] := Dir true ]>
              (<[ ["mnt"; "ssd"; "lib_symlink"] := Dir true ]> Ex.nonempty) in
  FS.is_dir (cwd Ex.linux) m1 Ex.target_path = true ∧ res.1 = Ret tt ∧ fs res.2 = m1.
Proof.
  destruct (C9_target_dir_before_classification Ex.linux Ex.no Ex.link_path Ex.target_path
              (MkWorld Ex.nonempty [])) as [_ H].
  destruct (H (<[ ["mnt"; "ssd"; "lib_symlink"; "downloading"] := Dir true ]>
                (<[ ["mnt"; "ssd"; "lib_symlink"] := Dir true ]> Ex.nonempty)))
    as (Hd & _ & _ & _ & Hne & _); [by_eval|].
  destruct Hne as [Hr Hf]; [by_eval|by_eval|].
  split; [exact Hd|]. split; [exact Hr|exact Hf].
Defined.


(** * Further properties of the code *)

(** ** What a larger file system keeps *)

Section Frame.

Variable cwd : list string.
Implicit Types (m : gmap (list string) inode) (p : Path) (k d cur rest : list string).

Lemma node_subseteq m m' k n : m ⊆ m' → FS.node m k = Some n → FS.node m' k = Some n.
Proof.
  intros Hs. destruct k as [|c k]; [done|]. simpl.
  intros H. by eapply lookup_weaken.
Qed.

(** A walk that succeeds is the same walk when nodes are added. *)
Lemma walk_subseteq links m m' cur rest r :
  m ⊆ m' → FS.walk links m cur rest = inr r → FS.walk links m' cur rest = inr r.
Proof.
  intros Hs. revert cur rest. induction links as [|l IHl]; intros cur rest; revert cur;
    (induction rest as [|c rest IH]; intros cur Hw; [by rewrite walk_nil in * |]);
    rewrite walk_cons in Hw; rewrite walk_cons; destruct (String.eqb c "..").
  - destruct (FS.node m (removelast cur)) as [[| b |]|] eqn:E; try done.
    rewrite (node_subseteq _ _ _ _ Hs E). by apply IH.
  - destruct (m !! (cur ++ [c])) as [n|] eqn:E; [|done].
    rewrite (lookup_weaken _ _ _ _ E Hs).
    destruct n as [| |t]; try done. by apply IH.
  - destruct (FS.node m (removelast cur)) as [[| b |]|] eqn:E; try done.
    rewrite (node_subseteq _ _ _ _ Hs E). by apply IH.
  - destruct (m !! (cur ++ [c])) as [n|] eqn:E; [|done].
    rewrite (lookup_weaken _ _ _ _ E Hs).
    destruct n as [| |t]; try done; [by apply IH|].
    destruct (String.eqb t ""); [done|]. by apply IHl.
Qed.

Lemma stat_subseteq m m' p k n :
  m ⊆ m' → FS.stat cwd m p = inr (k, n) → FS.stat cwd m' p = inr (k, n).
Proof.
  intros Hs ([b Hb] & Hw & Hn)%stat_inv. apply stat_intro.
  - exists b. by eapply node_subseteq.
  - by eapply walk_subseteq.
  - by eapply node_subseteq.
Qed.

Lemma locate_subseteq m m' p k :
  m ⊆ m' → FS.locate cwd m p = inr k → FS.locate cwd m' p = inr k.
Proof.
  intros Hs. unfold FS.locate. destruct (FS.unsnoc (parts p)) as [[ps c]|].
  - destruct (FS.stat cwd m (MkPath (root p) ps)) as [|[d [| b |]]] eqn:Es; try done.
    rewrite (stat_subseteq _ _ _ _ _ Hs Es).
    destruct (String.eqb c ".."); [|done].
    destruct (FS.node m (removelast d)) as [[| b' |]|] eqn:E; try done.
    by rewrite (node_subseteq _ _ _ _ Hs E).
  - destruct (FS.node m (FS.start cwd p)) as [[| b |]|] eqn:E; try done.
    by rewrite (node_subseteq _ _ _ _ Hs E).
Qed.

Lemma lstat_subseteq m m' p k n :
  m ⊆ m' → FS.lstat cwd m p = inr (k, n) → FS.lstat cwd m' p = inr (k, n).
Proof.
  intros Hs. unfold FS.lstat.
  destruct (FS.locate cwd m p) as [|k'] eqn:El; [done|].
  rewrite (locate_subseteq _ _ _ _ Hs El).
  destruct (FS.node m k') eqn:E; [|done]. by rewrite (node_subseteq _ _ _ _ Hs E).
Qed.

Lemma is_dir_subseteq m m' p :
  m ⊆ m' → FS.is_dir cwd m p = true → FS.is_dir cwd m' p = true.
Proof.
  intros Hs. unfold FS.is_dir.
  destruct (FS.stat cwd m p) as [|[k [| b |]]] eqn:Es; try done.
  by rewrite (stat_subseteq _ _ _ _ _ Hs Es).
Qed.

End Frame.

(** ** [ensure_dir] *)

Section EnsureDir.

Variable h : host.
Implicit Types (m : gmap (list string) inode) (p : Path).

Lemma is_dir_parent m p :
  FS.is_dir (cwd h) m p = true → FS.is_dir (cwd h) m (PurePath.parent p) = true.
Proof.
  unfold FS.is_dir at 1. destruct (FS.stat (cwd h) m p) as [|[k [| b |]]] eqn:Es; try done.
  intros _. pose proof (unsnoc_inv (parts p)) as Hp.
  destruct (FS.unsnoc (parts p)) as [[ps c]|].
  - apply stat_inv in Es as (Hd & Hw & Hn). rewrite Hp in Hw.
    apply walk_app_inv in Hw as (d & l' & Hw & [b' Hb] & _); [|done|done].
    unfold FS.is_dir, PurePath.parent. rewrite Hp, removelast_last.
    by rewrite (stat_intro (cwd h) m (MkPath (root p) ps) d (Dir b')).
  - replace (PurePath.parent p) with p; [unfold FS.is_dir; by rewrite Es|].
    destruct p as [r ps]. unfold PurePath.parent. simpl in *. by rewrite Hp.
Qed.

Lemma adds_dirs_only_refl m : adds_dirs_only m m.
Proof. intros k. by left. Qed.

Lemma adds_dirs_only_trans m1 m2 m3 :
  adds_dirs_only m1 m2 → adds_dirs_only m2 m3 → adds_dirs_only m1 m3.
Proof.
  intros H12 H23 k. destruct (H12 k) as [E12|[E1 E2]], (H23 k) as [E23|[E2' E3]].
  - left. congruence.
  - right. split; congruence.
  - right. split; congruence.
  - congruence.
Qed.

Lemma os_mkdir_adds m p m' : FS.os_mkdir (cwd h) m p = inr m' → adds_dirs_only m m'.
Proof.
  unfold FS.os_mkdir. destruct (FS.locate (cwd h) m p) as [|k]; [done|].
  destruct (FS.node m k) eqn:En; [done|]. intros [= <-] k'.
  destruct (decide (k = k')) as [<-|Hne].
  - right. rewrite lookup_insert_eq. split; [|done]. by destruct k.
  - left. by rewrite lookup_insert_ne.
Qed.

Lemma Path_mkdir_adds n parents exist_ok m p m' :
  FS.Path_mkdir (cwd h) n parents exist_ok m p = inr m' → adds_dirs_only m m'.
Proof.
  revert parents exist_ok m p m'. induction n as [|n IH]; intros parents exist_ok m p m';
    simpl; destruct (FS.os_mkdir (cwd h) m p) as [e|m1] eqn:E.
  - destruct e; try (destruct (negb exist_ok || negb (FS.is_dir (cwd h) m p)); [done|];
      intros [= <-]; apply adds_dirs_only_refl).
    by destruct (negb parents || _).
  - intros [= <-]. by eapply os_mkdir_adds.
  - destruct e; try (destruct (negb exist_ok || negb (FS.is_dir (cwd h) m p)); [done|];
      intros [= <-]; apply adds_dirs_only_refl).
    destruct (negb parents || _); [done|].
    destruct (FS.Path_mkdir (cwd h) n true true m (PurePath.parent p)) as [|m2] eqn:E2;
      [done|].
    intros H3. eapply adds_dirs_only_trans; eauto.
  - intros [= <-]. by eapply os_mkdir_adds.
Qed.

Lemma ensure_dir_subseteq m p m' : ensure_dir h m p = inr m' → m ⊆ m'.
Proof.
  intros H%Path_mkdir_adds. apply map_subseteq_spec. intros k n Hk.
  destruct (H k) as [->|[? _]]; congruence.
Qed.

End EnsureDir.

(** X1.  When [ensure_dir] returns, the path and its parent are
    directories, and a second call returns without changing anything. *)
Theorem X1_ensure_dir_establishes_directory
  (h : host) (m m' : gmap (list string) inode) (path : Path) :
  ensure_dir h m path = inr m' →
  FS.is_dir (cwd h) m' path = true
  ∧ FS.is_dir (cwd h) m' (PurePath.parent path) = true
  ∧ ensure_dir h m' path = inr m'.
Proof.
  intros H. assert (FS.is_dir (cwd h) m' path = true) as Hd by by eapply ensure_dir_is_dir.
  split; [done|]. split; [by apply is_dir_parent|by eapply ensure_dir_idem].
Qed.

(** X2.  [ensure_dir] removes and overwrites nothing: every node that was
    there is there unchanged, every node that was not there is still absent
    or is a new directory, and every path that led somewhere, with or
    without following a final link, leads to the same place and node. *)
Theorem X2_ensure_dir_only_adds_directories
  (h : host) (m m' : gmap (list string) inode) (path : Path) :
  ensure_dir h m path = inr m' →
  m ⊆ m'
  ∧ (∀ k n, m' !! k = Some n → m !! k = Some n ∨ (m !! k = None ∧ n = Dir true))
  ∧ (∀ q kn, FS.stat (cwd h) m q = inr kn → FS.stat (cwd h) m' q = inr kn)
  ∧ (∀ q kn, FS.lstat (cwd h) m q = inr kn → FS.lstat (cwd h) m' q = inr kn).
Proof.
  intros H. pose proof (ensure_dir_subseteq h _ _ _ H) as Hs.
  apply Path_mkdir_adds in H. split; [done|]. split; [|split].
  - intros k n Hk. destruct (H k) as [E|[E1 E2]]; [left|right; split]; congruence.
  - intros q [k n]. by apply stat_subseteq.
  - intros q [k n]. by apply lstat_subseteq.
Qed.

(** X3.  Where something other than a directory is at the path (a file,
    a dangling link, a link to a file), [ensure_dir] raises
    [FileExistsError]. *)
Theorem X3_ensure_dir_occupied_path_raises
  (h : host) (m : gmap (list string) inode) (path : Path) (k : list string) (n : inode) :
  FS.lstat (cwd h) m path = inr (k, n) →
  FS.is_dir (cwd h) m path = false →
  ensure_dir h m path = inl (OSError EEXIST).
Proof.
  intros Hl Hd. unfold ensure_dir.
  assert (FS.os_mkdir (cwd h) m path = inl EEXIST) as E.
  { unfold FS.os_mkdir. unfold FS.lstat in Hl.
    destruct (FS.locate (cwd h) m path) as [|k']; [done|]. by destruct (FS.node m k'). }
  destruct (length (parts path)); simpl; by rewrite E, Hd.
Qed.

(** ** [create_symlink_safe] and the lines that report a link *)

Section Links.

Variable h : host.
Variable user : list event -> string -> string -> bool.
Implicit Types (m : gmap (list string) inode) (w : world) (link_path target_path : Path).

Ltac run_steps :=
  unfold _append_log, _confirm, showerror, showinfo, showwarning;
  unfold bind, ret, raise, ask_fs, call_fs, emit, try_except; simpl.

Lemma locate_insert_fresh m k0 n0 p k :
  FS.node m k0 = None → FS.locate (cwd h) m p = inr k →
  FS.locate (cwd h) (<[k0:=n0]> m) p = inr k.
Proof.
  intros H0. unfold FS.locate. destruct (FS.unsnoc (parts p)) as [[ps c]|].
  - destruct (FS.stat (cwd h) m (MkPath (root p) ps)) as [|[d [| b |]]] eqn:Es; try done.
    rewrite (stat_insert_fresh _ _ _ n0 _ _ _ H0 Es).
    destruct (String.eqb c ".."); [|done].
    destruct (FS.node m (removelast d)) as [[| b' |]|] eqn:E; try done.
    by rewrite (node_insert_fresh _ _ n0 _ _ H0 E).
  - destruct (FS.node m (FS.start (cwd h) p)) as [[| b |]|] eqn:E; try done.
    by rewrite (node_insert_fresh _ _ n0 _ _ H0 E).
Qed.

(** A link made by [os.symlink] is what [lstat] finds at its path. *)
Lemma os_symlink_lstat allowed m target p m' :
  FS.os_symlink (cwd h) allowed m target p = inr m' →
  ∃ k, m !! k = None ∧ m' = <[k := Link target]> m
       ∧ FS.lstat (cwd h) m' p = inr (k, Link target).
Proof.
  unfold FS.os_symlink. destruct allowed; [|done]. simpl.
  destruct (FS.locate (cwd h) m p) as [|k] eqn:El; [done|].
  destruct (FS.node m k) eqn:En; [done|]. intros [= <-]. exists k.
  assert (m !! k = None) as Hk by by destruct k. split; [done|]. split; [done|].
  unfold FS.lstat. rewrite (locate_insert_fresh _ _ _ _ _ En El).
  destruct k; [done|]. simpl. by rewrite lookup_insert_eq.
Qed.

Lemma os_symlink_occupied allowed m target p kn :
  FS.lstat (cwd h) m p = inr kn → ∃ e, FS.os_symlink (cwd h) allowed m target p = inl e.
Proof.
  unfold FS.os_symlink, FS.lstat. destruct allowed; simpl; [|eauto].
  destruct (FS.locate (cwd h) m p) as [|k]; [done|].
  destruct (FS.node m k); [eauto|done].
Qed.

(** What [create_symlink_safe] returns and does, case by case. *)
Lemma create_symlink_safe_cases link_path target_path w :
  (∃ k, create_symlink_safe h link_path target_path w
        = (Ret (true, "Successfully created symlink: " +:+ PurePath.str link_path
                      +:+ " -> " +:+ PurePath.str target_path),
           MkWorld (<[k := Link (PurePath.str target_path)]> (fs w)) (trace w))
        ∧ fs w !! k = None
        ∧ FS.lstat (cwd h) (<[k := Link (PurePath.str target_path)]> (fs w)) link_path
          = inr (k, Link (PurePath.str target_path)))
  ∨ (∃ e message,
       FS.os_symlink (cwd h) (may_symlink h) (fs w) (PurePath.str target_path) link_path
       = inl e
       ∧ create_symlink_safe h link_path target_path w = (Ret (false, message), w)
       ∧ (windows h = true → e = EPERM →
          message = privilege_message link_path target_path)).
Proof.
  unfold create_symlink_safe. run_steps.
  destruct (FS.os_symlink _ _ _ _ _) as [e|m'] eqn:E; simpl.
  - right. exists e.
    destruct (windows h) eqn:Hw; simpl.
    + destruct (bool_decide_reflect (OSError e = OSError EPERM)) as [Heq|Hne].
      * eexists. split; [done|]. split; [by destruct w|done].
      * eexists. split; [done|]. split; [by destruct w|]. intros _ ->. done.
    + eexists. split; [done|]. split; [by destruct w|done].
  - left. apply os_symlink_lstat in E as (k & Hk & -> & Hl). by exists k.
Qed.

Lemma link_and_report_cases done link_path target_path w :
  (∃ k, link_and_report h done link_path target_path w
        = (Ret tt,
           MkWorld (<[k := Link (PurePath.str target_path)]> (fs w))
             (trace w ++ [Log (done +:+ PurePath.str link_path +:+ " -> "
                               +:+ PurePath.str target_path)]))
        ∧ fs w !! k = None
        ∧ FS.lstat (cwd h) (<[k := Link (PurePath.str target_path)]> (fs w)) link_path
          = inr (k, Link (PurePath.str target_path)))
  ∨ (∃ message,
       link_and_report h done link_path target_path w
       = (Ret tt, MkWorld (fs w) (trace w ++ [Log ("ERROR: " +:+ message);
                                              ShowError "Symlink Error" message]))).
Proof.
  unfold link_and_report, bind.
  destruct (create_symlink_safe_cases link_path target_path w)
    as [(k & -> & Hk & Hl)|(e & message & _ & -> & _)].
  - left. exists k. by run_steps.
  - right. exists message. run_steps. by rewrite <- app_assoc.
Qed.

Lemma last_snoc2 {A} (l : list A) x y : last (l ++ [x; y]) = Some y.
Proof. change (last (l ++ ([x] ++ [y])) = Some y). by rewrite app_assoc, last_snoc. Qed.

(** The log line that reports a link is the last event only where the
    link has been made. *)
Lemma do_run_body_success_line link_path target_path w w' done :
  In done ["Linked: "; "Replaced symlink: "; "Linked (empty replaced): ";
           "Moved contents and linked: "] →
  do_run_body h user link_path target_path w = (Ret tt, w') →
  last (trace w') = Some (Log (done +:+ PurePath.str link_path +:+ " -> "
                               +:+ PurePath.str target_path)) →
  ∃ k, FS.lstat (cwd h) (fs w') link_path = inr (k, Link (PurePath.str target_path)).
Proof.
  intros Hdone. unfold do_run_body, bind.
  destruct (call_fs _ w) as [[[]|e] w1] eqn:E1; [|done]. clear E1 w.
  rewrite handle_link_path_state.
  assert (∀ w2 d,
            link_and_report h d link_path target_path w2 = (Ret tt, w') →
            last (trace w') = Some (Log (done +:+ PurePath.str link_path +:+ " -> "
                                         +:+ PurePath.str target_path)) →
            ∃ k, FS.lstat (cwd h) (fs w') link_path
                 = inr (k, Link (PurePath.str target_path))) as Hlink.
  { intros w2 d Hr Hlast.
    destruct (link_and_report_cases d link_path target_path w2)
      as [(k & Hk & _ & Hl)|(message & Hk)]; rewrite Hk in Hr; injection Hr as <-.
    - by exists k.
    - simpl in Hlast. by rewrite last_snoc2 in Hlast. }
  assert (∀ a b x, String a b +:+ x = done +:+ PurePath.str link_path +:+ " -> "
                                      +:+ PurePath.str target_path →
                   a = "L"%char ∨ a = "R"%char ∨ a = "M"%char) as Hfirst.
  { intros a b x Heq. destruct Hdone as [<-|[<-|[<-|[<-|[]]]]];
      rewrite !(append_cons _ _ _) in Heq; injection Heq as -> _; auto. }
  destruct (classify h (fs w1) link_path target_path); simpl.
  - (* Missing *) apply Hlink.
  - (* SymlinkCorrect *)
    intros [= <-]. simpl. rewrite last_snoc. intros [= Heq%Hfirst].
    by destruct Heq as [|[|]].
  - (* SymlinkWrong *)
    unfold replace_symlink, bind, _confirm. destruct (user _ _ _); simpl.
    + destruct (call_fs _ _) as [[[]|e] w2]; [|done]. apply Hlink.
    + unfold _append_log, emit. simpl. intros [= <-]. simpl.
      rewrite last_snoc. intros [= Heq%Hfirst]. by destruct Heq as [|[|]].
  - (* EmptyDirectory *)
    unfold replace_empty_dir, bind.
    destruct (call_fs _ _) as [[[]|e] w2]; [|done]. apply Hlink.
  - (* NonEmptyDirectory *)
    unfold move_and_link. unfold bind at 1. unfold _confirm. destruct (user _ _ _); simpl.
    + unfold bind at 1. destruct (move_dir_contents _ _ _ _) as [[[]|e] w2]; [|done].
      unfold bind at 1. destruct (try_except _ _ w2) as [[[]|e] w3]; [|done]. apply Hlink.
    + unfold _append_log, emit. simpl. intros [= <-]. simpl.
      rewrite last_snoc. intros [= Heq%Hfirst]. by destruct Heq as [|[|]].
  - (* NonDirectoryFile *)
    unfold report_not_a_directory. run_steps. intros [= <-]. simpl.
    rewrite last_snoc. intros [= Heq%Hfirst]. by destruct Heq as [|[|]].
Qed.

End Links.

(** X4.  [create_symlink_safe] never raises and leaves the dialogs and
    the log alone.  When it reports success the link path is a new symbolic
    link whose text is [str(target_path)], at a place where nothing was, and
    nothing else has changed; when it reports failure nothing has changed.
    It fails where anything is at the link path, so it never replaces an
    entry, and on a host that refuses links, with the guidance about
    privileges as its message on Windows. *)
Theorem X4_create_symlink_safe_effect
  (h : host) (link_path target_path : Path) (w : world) :
  ∃ success message w',
    create_symlink_safe h link_path target_path w = (Ret (success, message), w')
    ∧ trace w' = trace w
    ∧ (success = true →
       ∃ k, fs w !! k = None
            ∧ fs w' = <[k := Link (PurePath.str target_path)]> (fs w)
            ∧ FS.lstat (cwd h) (fs w') link_path
              = inr (k, Link (PurePath.str target_path)))
    ∧ (success = false → fs w' = fs w)
    ∧ ((∃ kn, FS.lstat (cwd h) (fs w) link_path = inr kn) → success = false)
    ∧ (may_symlink h = false →
       success = false
       ∧ (windows h = true → message = privilege_message link_path target_path)).
Proof.
  destruct (create_symlink_safe_cases h link_path target_path w)
    as [(k & Hr & Hk & Hl)|(e & message & He & Hr & Hm)].
  - eexists true, _, _. split; [exact Hr|]. split; [done|].
    split; [intros _; by exists k|]. split; [done|]. split.
    + intros [kn Hkn].
      destruct (os_symlink_occupied h (may_symlink h) (fs w) (PurePath.str target_path)
                  link_path kn Hkn) as [e He].
      unfold create_symlink_safe, try_except, bind, call_fs in Hr. rewrite He in Hr.
      simpl in Hr. destruct (windows h && _); discriminate.
    + intros Hno.
      unfold create_symlink_safe, try_except, bind, call_fs, FS.os_symlink in Hr.
      rewrite Hno in Hr. simpl in Hr. destruct (windows h && _); discriminate.
  - eexists false, message, w. split; [exact Hr|]. split; [done|].
    split; [done|]. split; [done|]. split; [done|].
    intros Hno. split; [done|]. intros Hw. apply Hm; [done|].
    unfold FS.os_symlink in He. rewrite Hno in He. simpl in He. congruence.
Qed.

(** X5.  A line of the log that reports a link tells the truth: when an
    operation returns and the last event is the line "Linked: ...",
    "Replaced symlink: ...", "Linked (empty replaced): ..." or "Moved
    contents and linked: ..." for its two paths, the link path is a
    symbolic link whose text is [str(target_path)]. *)
Theorem X5_reported_link_exists
  (h : host) (user : list event -> string -> string -> bool)
  (link_path target_path : Path) (w w' : world) (done : string) :
  In done ["Linked: "; "Replaced symlink: "; "Linked (empty replaced): ";
           "Moved contents and linked: "] →
  do_run_body h user link_path target_path w = (Ret tt, w') →
  last (trace w') = Some (Log (done +:+ PurePath.str link_path +:+ " -> "
                               +:+ PurePath.str target_path)) →
  ∃ k, FS.lstat (cwd h) (fs w') link_path = inr (k, Link (PurePath.str target_path)).
Proof. apply do_run_body_success_line. Qed.

(** ** What is removed before a link that fails *)

Section Removal.

Variable h : host.
Variable user : list event -> string -> string -> bool.
Implicit Types (m : gmap (list string) inode) (w : world) (link_path target_path : Path).

Lemma empty_directory_inv m link_path target_path k b :
  FS.lstat (cwd h) m link_path = inr (k, Dir b) →
  classify h m link_path target_path = EmptyDirectory →
  FS.children m k = [].
Proof.
  intros Hl. assert (FS.stat (cwd h) m link_path = inr (k, Dir b)) as Hs by by apply lstat_stat.
  unfold classify, FS.is_symlink, FS.exists_, FS.is_dir, dir_is_empty,
    FS.exists_, FS.is_dir, FS.iterdir, FS.os_listdir.
  rewrite Hl, Hs. simpl. destruct b; [|done]. by destruct (FS.children m k).
Qed.

End Removal.

(** X6.  What an operation removes is not put back when the link then
    fails.  On a host that refuses symbolic links, a link to another target
    that the user agreed to replace is gone afterwards, and so is an empty
    directory at the link path; the operation returns with an ERROR line. *)
Theorem X6_removal_is_not_undone
  (h : host) (user : list event -> string -> string -> bool)
  (link_path target_path : Path) (w : world) (m1 : gmap (list string) inode)
  (k : list string) :
  may_symlink h = false →
  ensure_dir h (fs w) target_path = inr m1 →
  (∀ t, FS.lstat (cwd h) m1 link_path = inr (k, Link t) →
        classify h m1 link_path target_path = SymlinkWrong →
        let question :=
          PurePath.str link_path +:+ " is a symlink to a different target. Replace it?" in
        user (trace w) "Replace symlink" question = true →
        ∃ message,
          do_run_body h user link_path target_path w
          = (Ret tt, MkWorld (delete k m1)
                       (trace w ++ [AskYesNo "Replace symlink" question true;
                                    Log ("ERROR: " +:+ message);
                                    ShowError "Symlink Error" message])))
  ∧ (∀ b, FS.lstat (cwd h) m1 link_path = inr (k, Dir b) →
          classify h m1 link_path target_path = EmptyDirectory →
          k ≠ [] →
          ∃ message,
            do_run_body h user link_path target_path w
            = (Ret tt, MkWorld (delete k m1)
                         (trace w ++ [Log ("ERROR: " +:+ message);
                                      ShowError "Symlink Error" message]))).
Proof.
  intros Hno H1. rewrite (do_run_body_state h user _ _ w m1 H1). split.
  - intros t Hl -> question Hu. simpl.
    unfold replace_symlink, bind, _confirm. simpl. fold question. rewrite Hu. simpl.
    unfold call_fs, FS.os_unlink. simpl. rewrite Hl. simpl.
    destruct (link_and_report_refused h "Replaced symlink: " link_path target_path
                (MkWorld (delete k m1) (trace w ++ [AskYesNo "Replace symlink" question true]))
                Hno) as (message & ->).
    exists message. simpl. by rewrite <- app_assoc.
  - intros b Hl Hst Hk. pose proof (empty_directory_inv h _ _ _ _ _ Hl Hst) as Hc.
    rewrite Hst. simpl.
    unfold replace_empty_dir, bind, call_fs, FS.os_rmdir. simpl. rewrite Hl.
    destruct k as [|c k]; [done|]. rewrite Hc. simpl.
    destruct (link_and_report_refused h "Linked (empty replaced): " link_path target_path
                (MkWorld (delete (c :: k) m1) (trace w)) Hno) as (message & ->).
    by exists message.
Qed.

(** ** The pattern of [parse_libraryfolders] *)

Section Pattern.

Implicit Types (s a b gap pre x post rest : string) (c : ascii).

Lemma append_nil_r s : s +:+ "" = s.
Proof. induction s as [|c s IH]; [done|]. rewrite append_cons. congruence. Qed.

Lemma occurrence_prepend a s pre x post :
  VdfSpec.occurrence s pre x post → VdfSpec.occurrence (a +:+ s) (a +:+ pre) x post.
Proof.
  intros (ws & -> & H). exists ws. split; [|done]. by rewrite append_assoc.
Qed.

(** No entry begins inside a stretch of text without a double quote. *)
Lemma occurrence_after_gap gap s pre x post :
  VdfSpec.all_chars Re.not_dq gap →
  VdfSpec.occurrence (gap +:+ s) pre x post →
  ∃ pre', pre = gap +:+ pre' ∧ VdfSpec.occurrence s pre' x post.
Proof.
  revert pre. induction gap as [|c gap IH]; intros pre Hgap Hocc.
  - exists pre. by rewrite !append_nil in *.
  - apply all_chars_cons in Hgap as [Hc Hgap]. rewrite append_cons in Hocc.
    destruct (occurrence_cons_inv _ _ _ _ _ Hocc) as [->|(pre' & -> & Hocc')].
    + destruct Hocc as (ws & Heq & _). rewrite append_nil in Heq.
      unfold Re.quoted_path in Heq. rewrite append_cons in Heq. injection Heq as -> _.
      by vm_compute in Hc.
    + destruct (IH pre' Hgap Hocc') as (pre'' & -> & H). exists pre''.
      by rewrite append_cons.
Qed.

Lemma entries_sound s xs x :
  VdfSpec.entries s xs → In x xs →
  x ≠ "" ∧ VdfSpec.all_chars Re.not_dq x ∧ ∃ pre post, VdfSpec.occurrence s pre x post.
Proof.
  induction 1 as [|text pre x0 post xs Hocc Hleft Hrest IH]; [done|].
  intros [->|Hin].
  - destruct Hocc as (ws & Heq & ? & ? & ? & ?) eqn:E. split; [done|]. split; [done|].
    exists pre, post. by exists ws.
  - destruct (IH Hin) as (Hne & Hq & pre' & post' & Hocc'). split; [done|]. split; [done|].
    destruct Hocc as (ws & -> & _). destruct Hocc' as (ws' & -> & Hrest').
    exists (pre +:+ Re.quoted_path +:+ ws +:+ String Re.dq (x0 +:+ String Re.dq pre')),
      post'.
    exists ws'. split; [|done].
    by repeat first [rewrite append_assoc | rewrite append_cons].
Qed.

End Pattern.

(** X7.  A configuration text is read entry by entry: after any text
    without a double quote, the key in quotes, blanks, and a value in
    quotes that is not empty and has no quote, [re.findall] gives that value
    and then the values of the rest of the text; a text without a double
    quote gives nothing. *)
Theorem X7_findall_reads_entry_by_entry
  (gap ws x rest : string) :
  VdfSpec.all_chars Re.not_dq gap →
  ws ≠ "" → VdfSpec.all_chars Text.isspace ws →
  x ≠ "" → VdfSpec.all_chars Re.not_dq x →
  Re.findall (gap +:+ Re.quoted_path +:+ ws +:+ String Re.dq (x +:+ String Re.dq rest))
  = x :: Re.findall rest
  ∧ Re.findall gap = [].
Proof.
  intros Hgap Hws1 Hws2 Hx1 Hx2. split.
  - symmetry. apply entries_findall_from; [done|].
    apply (VdfSpec.entries_next _ gap x rest).
    + by exists ws.
    + intros pre' x' post' (pre'' & -> & _)%occurrence_after_gap; [|done].
      rewrite length_append. lia.
    + by apply findall_from_entries.
  - symmetry. apply entries_findall_from; [done|]. apply VdfSpec.entries_none.
    intros pre x' post Hocc. rewrite <- (append_nil_r gap) in Hocc.
    apply occurrence_after_gap in Hocc as (pre' & _ & Hocc); [|done].
    by apply occurrence_empty in Hocc.
Qed.

(** X8.  Every value that [re.findall] returns is the value of an entry
    of the text: it is not empty and contains no double quote. *)
Theorem X8_findall_values_are_entries (text x : string) :
  In x (Re.findall text) →
  x ≠ "" ∧ VdfSpec.all_chars Re.not_dq x
  ∧ ∃ pre post, VdfSpec.occurrence text pre x post.
Proof.
  apply entries_sound. by apply findall_from_entries.
Qed.

(** ** The run as a whole *)

Section Run.

Variable h : host.
Variable user : list event -> string -> string -> bool.
Implicit Types (m : gmap (list string) inode) (w : world) (link_path target_path : Path).

#[local] Ltac run_steps :=
  unfold _append_log, _confirm, showerror, showinfo, showwarning;
  unfold bind, ret, raise, ask_fs, call_fs, emit, try_except; simpl.

Lemma lstrip_blank s : VdfSpec.all_chars Text.isspace s → Text.lstrip s = "".
Proof.
  induction s as [|c s IH]; [done|]. intros [Hc Hs]%all_chars_cons. simpl.
  rewrite Hc. by apply IH.
Qed.

Lemma strip_blank s : VdfSpec.all_chars Text.isspace s → Text.strip s = "".
Proof. intros H. unfold Text.strip. by rewrite lstrip_blank. Qed.

Lemma logs_app evs1 evs2 : logs (evs1 ++ evs2) = logs evs1 ++ logs evs2.
Proof. unfold logs. apply omap_app. Qed.

(** An operation that raises has written nothing to the log. *)
Lemma do_run_body_raise_no_line link_path target_path w w' e :
  do_run_body h user link_path target_path w = (Raise e, w') →
  ∃ evs, trace w' = trace w ++ evs ∧ logs evs = [].
Proof.
  unfold do_run_body, bind.
  destruct (call_fs _ w) as [[[]|e1] w1] eqn:E1.
  2:{ apply silent_call_fs in E1. intros [= <- <-]. exists []. by rewrite app_nil_r. }
  apply silent_call_fs in E1. rewrite <- E1. clear E1 w.
  rewrite handle_link_path_state.
  destruct (classify h (fs w1) link_path target_path); simpl.
  - destruct (link_and_report_returns h "Linked: " link_path target_path w1)
      as (m' & evs & line & Hr & Hl).
    unfold link_new. by rewrite Hr.
  - done.
  - unfold replace_symlink, bind, _confirm.
    destruct (user _ _ _); simpl; [|done].
    destruct (call_fs _ _) as [[[]|e2] w2] eqn:E2.
    + destruct (link_and_report_returns h "Replaced symlink: " link_path target_path w2)
        as (m' & evs & line & Hr & Hl).
      by rewrite Hr.
    + apply silent_call_fs in E2. simpl in E2. intros [= <- <-]. rewrite E2. by eexists [_].
  - unfold replace_empty_dir, bind.
    destruct (call_fs _ _) as [[[]|e2] w2] eqn:E2.
    + destruct (link_and_report_returns h "Linked (empty replaced): " link_path target_path w2)
        as (m' & evs & line & Hr & Hl).
      by rewrite Hr.
    + apply silent_call_fs in E2. intros [= <- <-]. rewrite E2. exists [].
      by rewrite app_nil_r.
  - unfold move_and_link. unfold bind at 1. unfold _confirm.
    destruct (user _ _ _); simpl; [|done].
    unfold bind at 1.
    destruct (move_dir_contents _ _ _ _) as [[[]|e2] w2] eqn:E2.
    + apply silent_move_dir_contents in E2. simpl in E2.
      unfold bind at 1.
      destruct (try_except _ _ w2) as [[[]|e3] w3] eqn:E3.
      * destruct (link_and_report_returns h "Moved contents and linked: "
                    link_path target_path w3) as (m' & evs & line & Hr & Hl).
        by rewrite Hr.
      * apply silent_remove_dir in E3. intros [= <- <-]. rewrite E3, E2. by eexists [_].
    + apply silent_move_dir_contents in E2. simpl in E2.
      intros [= <- <-]. rewrite E2. by eexists [_].
  - unfold report_not_a_directory. by run_steps.
Qed.

Lemma do_run_loop_lines steamapps target_root plan w r w' :
  do_run_loop h user steamapps target_root plan w = (r, w') →
  ∃ evs, trace w' = trace w ++ evs
         ∧ match r with
           | Ret _ => length (logs evs) = length plan
           | Raise _ => (length (logs evs) < length plan)%nat
           end.
Proof.
  revert w. induction plan as [|[sub flag] plan IH]; intros w; simpl.
  - intros [= <- <-]. exists []. by rewrite app_nil_r.
  - unfold bind at 1.
    destruct (do_run_body _ _ _ _ w) as [[[]|e] w1] eqn:E.
    + destruct (do_run_body_one_line h user _ _ _ _ E) as (evs1 & line & Ht1 & Hl1).
      intros (evs2 & Ht2 & Hr)%IH. exists (evs1 ++ evs2).
      rewrite Ht2, Ht1, app_assoc. split; [done|].
      rewrite logs_app, Hl1. simpl. destruct r; lia.
    + destruct (do_run_body_raise_no_line _ _ _ _ _ E) as (evs1 & Ht1 & Hl1).
      intros [= <- <-]. exists evs1. split; [done|]. rewrite Hl1. simpl. lia.
Qed.

End Run.

(** X9.  An input that consists of white space only counts as missing:
    the run shows the warning for the steamapps directory, or, when that
    one is given, the warning for the destination base, and does nothing
    else. *)
Theorem X9_blank_input_is_missing
  (h : host) (user : list event -> string -> string -> bool)
  (steamapps_var dest_var : string) (link_temp_var : bool) (w : world) :
  (VdfSpec.all_chars Text.isspace steamapps_var →
   _do_run h user steamapps_var dest_var link_temp_var w
   = (Ret tt, MkWorld (fs w)
                (trace w ++ [ShowWarning "Missing input"
                               "Please select a steamapps directory to modify."])))
  ∧ (Text.strip steamapps_var ≠ "" → VdfSpec.all_chars Text.isspace dest_var →
     _do_run h user steamapps_var dest_var link_temp_var w
     = (Ret tt, MkWorld (fs w)
                  (trace w ++ [ShowWarning "Missing input"
                                 "Please select a destination base folder on your SSD."]))).
Proof.
  split.
  - intros Hs. unfold _do_run. by rewrite (strip_blank _ Hs).
  - intros Hs Hd. unfold _do_run. rewrite (strip_blank _ Hd).
    by destruct (String.eqb_spec (Text.strip steamapps_var) "").
Qed.

(** X10.  When the user declines the summary ("Proceed?") the run
    returns at once: the destination base and the destination root have
    been created by then, no link path has been looked at, and nothing is
    logged. *)
Theorem X10_declined_summary_stops_the_run
  (h : host) (user : list event -> string -> string -> bool)
  (steamapps_var dest_var : string) (link_temp_var : bool) (w : world)
  (m1 m2 : gmap (list string) inode) :
  let steamapps := PurePath.of_string (Text.strip steamapps_var) in
  let dest_base := PurePath.of_string (Text.strip dest_var) in
  let lib_name :=
    if String.eqb (PurePath.name (PurePath.parent steamapps)) "" then "steam_library"
    else PurePath.name (PurePath.parent steamapps) in
  let target_root := dest_base // (lib_name +:+ "_symlink") in
  let plan := ("downloading", true) :: (if link_temp_var then [("temp", true)] else []) in
  let question :=
    "This will create/replace symlinks as follows:" +:+ nl +:+ nl
    +:+ Text.join nl (summary_lines steamapps target_root plan) in
  Text.strip steamapps_var ≠ "" → Text.strip dest_var ≠ "" →
  PurePath.name steamapps = "steamapps" →
  FS.is_dir (cwd h) (fs w) steamapps = true →
  ensure_dir h (fs w) dest_base = inr m1 →
  ensure_dir h m1 target_root = inr m2 →
  user (trace w) "Proceed?" question = false →
  _do_run h user steamapps_var dest_var link_temp_var w
  = (Ret tt, MkWorld m2 (trace w ++ [AskYesNo "Proceed?" question false]))
  ∧ FS.is_dir (cwd h) m2 dest_base = true
  ∧ FS.is_dir (cwd h) m2 target_root = true.
Proof.
  intros steamapps dest_base lib_name target_root plan question
    Hsa Hdest Hname Hdir H1 H2 Hno.
  split; [|split].
  - unfold _do_run. fold steamapps dest_base.
    destruct (String.eqb_spec (Text.strip steamapps_var) "") as [|_]; [done|].
    destruct (String.eqb_spec (Text.strip dest_var) "") as [|_]; [done|].
    rewrite Hname. simpl. unfold bind at 1. unfold ret at 1. simpl.
    unfold bind at 1. unfold ask_fs at 1. rewrite Hdir, (is_dir_exists _ _ _ Hdir). simpl.
    unfold do_run_plan. fold lib_name target_root.
    unfold bind, call_fs, ret, _confirm. rewrite H1. simpl. rewrite H2. simpl.
    unfold question, plan in Hno. simpl in Hno. by rewrite Hno.
  - eapply is_dir_subseteq; [by eapply ensure_dir_subseteq|by eapply ensure_dir_is_dir].
  - by eapply ensure_dir_is_dir.
Qed.

(** X11.  The log has one line for every operation of the plan when the
    loop returns, and fewer lines than operations when it raises. *)
Theorem X11_one_log_line_per_operation
  (h : host) (user : list event -> string -> string -> bool)
  (steamapps target_root : Path) (plan : list (string * bool)) (w : world) :
  let res := do_run_loop h user steamapps target_root plan w in
  ∃ evs, trace res.2 = trace w ++ evs
         ∧ match res.1 with
           | Ret _ => length (logs evs) = length plan
           | Raise _ => (length (logs evs) < length plan)%nat
           end.
Proof.
  intros res. apply (do_run_loop_lines h user steamapps target_root plan w).
  subst res. by destruct (do_run_loop h user steamapps target_root plan w).
Qed.

(** ** A link written by the program, read back *)

Section ReadBack.

Implicit Types (m : gmap (list string) inode) (cur rest k d : list string) (c : string).

Lemma realpath_nil links m cur : FS.realpath links m cur [] = Some cur.
Proof. by destruct links. Qed.

Lemma realpath_cons links m cur c rest :
  FS.realpath links m cur (c :: rest) =
  if String.eqb c ".." then FS.realpath links m (removelast cur) rest
  else
    match m !! (cur ++ [c]) with
    | Some (Link t) =>
        match links with
        | 0 => None
        | S l => FS.realpath l m (FS.link_start cur t) (FS.link_parts t ++ rest)
        end
    | _ => FS.realpath links m (cur ++ [c]) rest
    end.
Proof. by destruct links. Qed.

(** More links to follow do not change a resolution that succeeds. *)
Lemma realpath_mono links links' m cur rest r :
  (links <= links')%nat →
  FS.realpath links m cur rest = Some r → FS.realpath links' m cur rest = Some r.
Proof.
  revert links' cur rest. induction links as [|l IHl]; intros links' cur rest Hle; revert cur;
    (induction rest as [|c rest IH]; intros cur Hr; [by rewrite realpath_nil in * |]);
    rewrite realpath_cons in Hr; rewrite realpath_cons; destruct (String.eqb c "..");
    try (by apply IH).
  - destruct (m !! (cur ++ [c])) as [[| |t]|]; try (by apply IH). done.
  - destruct (m !! (cur ++ [c])) as [[| |t]|]; try (by apply IH).
    destruct links' as [|l']; [lia|]. apply IHl; [lia|done].
Qed.

(** Where the kernel's walk over the first components succeeds,
    [realpath] goes the same way. *)
Lemma walk_realpath_app links m cur rest d :
  FS.walk links m cur rest = inr d →
  ∃ l', (l' <= links)%nat
        ∧ ∀ rest2, FS.realpath links m cur (rest ++ rest2) = FS.realpath l' m d rest2.
Proof.
  revert cur rest. induction links as [|l IHl]; intros cur rest; revert cur;
    (induction rest as [|c rest IH]; intros cur Hw;
     [rewrite walk_nil in Hw; injection Hw as <-; eexists; split; [|reflexivity]; lia |]);
    rewrite walk_cons in Hw; destruct (String.eqb c "..") eqn:Ec.
  - destruct (FS.node m (removelast cur)) as [[]|]; try done.
    destruct (IH _ Hw) as (l' & Hle & H). exists l'. split; [done|]. intros rest2.
    simpl app. by rewrite realpath_cons, Ec.
  - destruct (m !! (cur ++ [c])) as [[| |t]|] eqn:E; try done.
    + destruct rest; [|done]. injection Hw as <-. exists 0%nat. split; [done|].
      intros rest2. simpl app. by rewrite realpath_cons, Ec, E.
    + destruct (IH _ Hw) as (l' & Hle & H). exists l'. split; [done|]. intros rest2.
      simpl app. by rewrite realpath_cons, Ec, E.
    + by destruct (String.eqb t "").
  - destruct (FS.node m (removelast cur)) as [[]|]; try done.
    destruct (IH _ Hw) as (l' & Hle & H). exists l'. split; [done|]. intros rest2.
    simpl app. by rewrite realpath_cons, Ec.
  - destruct (m !! (cur ++ [c])) as [[| |t]|] eqn:E; try done.
    + destruct rest; [|done]. injection Hw as <-. exists (S l). split; [done|].
      intros rest2. simpl app. by rewrite realpath_cons, Ec, E.
    + destruct (IH _ Hw) as (l' & Hle & H). exists l'. split; [done|]. intros rest2.
      simpl app. by rewrite realpath_cons, Ec, E.
    + destruct (String.eqb t ""); [done|].
      destruct (IHl _ _ Hw) as (l' & Hle & H). exists l'. split; [lia|]. intros rest2.
      simpl app. by rewrite realpath_cons, Ec, E, app_assoc.
Qed.

Lemma parse_root_slash s : PurePath.parse_root s ≠ "" → PurePath.starts_with "/" s = true.
Proof.
  unfold PurePath.parse_root, PurePath.starts_with.
  destruct s as [|a s]; [done|]. cbn [String.prefix].
  destruct (Ascii.ascii_dec "/" a); [intros _; by destruct s|done].
Qed.

Variable h : host.

(** A symbolic link whose text is the string of an absolute path is a
    link to that path, provided the link can be resolved. *)
Lemma written_link_is_symlink_to m link_path target_path k r :
  FS.lstat (cwd h) m link_path = inr (k, Link (PurePath.str target_path)) →
  root target_path ≠ "" →
  PurePath.of_string (PurePath.str target_path) = target_path →
  FS.resolve (cwd h) m link_path = inr r →
  is_symlink_to h m link_path target_path = true.
Proof.
  intros Hl Hroot Hstr Hres. unfold is_symlink_to, FS.is_symlink. rewrite Hl.
  assert (PurePath.starts_with "/" (PurePath.str target_path) = true) as Hslash.
  { apply parse_root_slash. rewrite <- Hstr in Hroot. exact Hroot. }
  assert (FS.link_parts (PurePath.str target_path) = parts target_path) as Hparts.
  { rewrite <- Hstr at 2. done. }
  assert (FS.start (cwd h) target_path = []) as Hstart.
  { unfold FS.start. by destruct (String.eqb_spec (root target_path) ""). }
  unfold FS.lstat, FS.locate in Hl. pose proof (unsnoc_inv (parts link_path)) as Hp.
  destruct (FS.unsnoc (parts link_path)) as [[ps c]|].
  2:{ destruct (FS.node m (FS.start (cwd h) link_path)) as [[| b |]|] eqn:E; try done.
      rewrite E in Hl. congruence. }
  destruct (FS.stat (cwd h) m (MkPath (root link_path) ps)) as [|[d [| b |]]] eqn:Es;
    try done.
  destruct (String.eqb c "..") eqn:Ec.
  { destruct (FS.node m (removelast d)) as [[| b' |]|] eqn:E; try done.
    rewrite E in Hl. congruence. }
  destruct (FS.node m (d ++ [c])) as [n|] eqn:En; [|done]. injection Hl as <- ->.
  rewrite node_snoc in En.
  apply stat_inv in Es as (_ & Hw & _).
  change (FS.start (cwd h) (MkPath (root link_path) ps)) with (FS.start (cwd h) link_path) in Hw.
  change (parts (MkPath (root link_path) ps)) with ps in Hw.
  destruct (walk_realpath_app _ _ _ _ _ Hw) as (l' & Hle & Hrp).
  unfold FS.resolve in *. rewrite Hp, Hrp, realpath_cons, Ec, En in Hres.
  rewrite Hp, Hrp, realpath_cons, Ec, En.
  destruct l' as [|l'']; [done|].
  unfold FS.link_start in *. rewrite Hslash, Hparts, app_nil_r in *.
  destruct (FS.realpath l'' m [] (parts target_path)) as [k1|] eqn:Er; [|done].
  rewrite Hstart. rewrite (realpath_mono l'' FS.MAXSYMLINKS _ _ _ k1); [|lia|done].
  by apply bool_decide_eq_true_2.
Qed.

End ReadBack.

(** X12.  A link that the program has written is recognised by
    [is_symlink_to]: where the link path is a symbolic link with the text
    [str(target_path)] of an absolute path, and resolving the link path
    does not fail, [is_symlink_to] answers yes. *)
Theorem X12_written_link_is_recognised
  (h : host) (m : gmap (list string) inode) (link_path target_path r : Path)
  (k : list string) :
  FS.lstat (cwd h) m link_path = inr (k, Link (PurePath.str target_path)) →
  root target_path ≠ "" →
  PurePath.of_string (PurePath.str target_path) = target_path →
  FS.resolve (cwd h) m link_path = inr r →
  is_symlink_to h m link_path target_path = true
  ∧ classify h m link_path target_path = SymlinkCorrect.
Proof.
  intros Hl Hroot Hstr Hres.
  pose proof (written_link_is_symlink_to h m link_path target_path k r Hl Hroot Hstr Hres) as H.
  split; [done|]. unfold classify, FS.is_symlink. by rewrite Hl, H.
Qed.

(** X13.  Running an operation again after it has reported a link is
    harmless: when the operation returned with one of the lines that
    report a link as its last event, the target path is absolute and still
    a directory, and the link path can be resolved, the second run finds
    the link correct, changes nothing and logs "OK: ... already links to
    ...". *)
Theorem X13_rerun_after_link_reports_ok
  (h : host) (user : list event -> string -> string -> bool)
  (link_path target_path r : Path) (w w1 : world) (done : string) :
  In done ["Linked: "; "Replaced symlink: "; "Linked (empty replaced): ";
           "Moved contents and linked: "] →
  do_run_body h user link_path target_path w = (Ret tt, w1) →
  last (trace w1) = Some (Log (done +:+ PurePath.str link_path +:+ " -> "
                               +:+ PurePath.str target_path)) →
  root target_path ≠ "" →
  PurePath.of_string (PurePath.str target_path) = target_path →
  FS.resolve (cwd h) (fs w1) link_path = inr r →
  FS.is_dir (cwd h) (fs w1) target_path = true →
  do_run_body h user link_path target_path w1
  = (Ret tt, MkWorld (fs w1)
               (trace w1 ++ [Log ("OK: " +:+ PurePath.str link_path +:+ " already links to "
                                  +:+ PurePath.str target_path)])).
Proof.
  intros Hdone Hrun Hlast Hroot Hstr Hres Hdir.
  destruct (do_run_body_success_line h user _ _ _ _ _ Hdone Hrun Hlast) as [k Hl].
  rewrite (do_run_body_state h user _ _ w1 (fs w1)); [|by apply ensure_dir_noop].
  unfold classify, FS.is_symlink. rewrite Hl.
  by rewrite (written_link_is_symlink_to h _ _ _ k r Hl Hroot Hstr Hres).
Qed.

(** ** The link made in place *)

Section InPlace.

Variable h : host.
Variable user : list event -> string -> string -> bool.
Implicit Types (m : gmap (list string) inode) (w : world) (link_path target_path : Path).

#[local] Ltac run_steps :=
  unfold _append_log, _confirm, showerror, showinfo, showwarning;
  unfold bind, ret, raise, ask_fs, call_fs, emit, try_except; simpl.

(** On a host that allows it, the link is made where the link path names
    a free location. *)
Lemma link_and_report_made done link_path target_path w k :
  may_symlink h = true →
  FS.locate (cwd h) (fs w) link_path = inr k → FS.node (fs w) k = None →
  link_and_report h done link_path target_path w
  = (Ret tt, MkWorld (<[k := Link (PurePath.str target_path)]> (fs w))
               (trace w ++ [Log (done +:+ PurePath.str link_path +:+ " -> "
                                 +:+ PurePath.str target_path)])).
Proof.
  intros Hy Hl Hn. unfold link_and_report, create_symlink_safe. run_steps.
  unfold FS.os_symlink. by rewrite Hy, Hl, Hn.
Qed.

Lemma node_delete m k : k ≠ [] → FS.node (delete k m) k = None.
Proof. destruct k; [done|]. intros _. simpl. apply lookup_delete_eq. Qed.

Lemma missing_state m link_path target_path k :
  FS.locate (cwd h) m link_path = inr k → FS.node m k = None →
  classify h m link_path target_path = Missing.
Proof.
  intros Hl Hn.
  assert (FS.lstat (cwd h) m link_path = inl ENOENT) as Hls.
  { unfold FS.lstat. by rewrite Hl, Hn. }
  unfold classify, FS.is_symlink, FS.exists_. rewrite Hls.
  destruct (FS.stat (cwd h) m link_path) as [|[k' n]] eqn:Es; [done|].
  apply stat_lstat in Es as [Es|(k'' & t & Es)]; congruence.
Qed.

End InPlace.

(** X14.  On a host that allows symbolic links the three simple cases
    end with the link in place and nothing else changed, beyond what
    [ensure_dir] did: at a link path where nothing is, in place of a link
    to another target that the user agrees to replace, and in place of an
    empty directory.  The log has the line for the case.  The link path
    must still name its location once the old entry is removed. *)
Theorem X14_link_is_made_in_place
  (h : host) (user : list event -> string -> string -> bool)
  (link_path target_path : Path) (w : world) (m1 : gmap (list string) inode)
  (k : list string) :
  may_symlink h = true →
  ensure_dir h (fs w) target_path = inr m1 →
  k ≠ [] →
  FS.locate (cwd h) (delete k m1) link_path = inr k →
  let linked := <[k := Link (PurePath.str target_path)]> m1 in
  let arrow := PurePath.str link_path +:+ " -> " +:+ PurePath.str target_path in
  (m1 !! k = None →
   do_run_body h user link_path target_path w
   = (Ret tt, MkWorld linked (trace w ++ [Log ("Linked: " +:+ arrow)])))
  ∧ (∀ t, FS.lstat (cwd h) m1 link_path = inr (k, Link t) →
          classify h m1 link_path target_path = SymlinkWrong →
          let question :=
            PurePath.str link_path +:+ " is a symlink to a different target. Replace it?" in
          user (trace w) "Replace symlink" question = true →
          do_run_body h user link_path target_path w
          = (Ret tt, MkWorld linked
                       (trace w ++ [AskYesNo "Replace symlink" question true;
                                    Log ("Replaced symlink: " +:+ arrow)])))
  ∧ (∀ b, FS.lstat (cwd h) m1 link_path = inr (k, Dir b) →
          classify h m1 link_path target_path = EmptyDirectory →
          do_run_body h user link_path target_path w
          = (Ret tt, MkWorld linked (trace w ++ [Log ("Linked (empty replaced): " +:+ arrow)]))).
Proof.
  intros Hy H1 Hk Hloc linked arrow.
  rewrite (do_run_body_state h user _ _ w m1 H1). split; [|split].
  - intros Hfree. rewrite (delete_id _ _ Hfree) in Hloc.
    assert (FS.node m1 k = None) as Hn by by destruct k.
    rewrite (missing_state h _ _ target_path _ Hloc Hn). simpl. unfold link_new.
    by rewrite (link_and_report_made h "Linked: " _ _ (MkWorld m1 (trace w)) k Hy Hloc Hn).
  - intros t Hl -> question Hu. simpl.
    unfold replace_symlink, bind, _confirm. simpl. fold question. rewrite Hu. simpl.
    unfold call_fs, FS.os_unlink. simpl. rewrite Hl. simpl.
    rewrite (link_and_report_made h "Replaced symlink: " _ _
               (MkWorld (delete k m1) (trace w ++ [AskYesNo "Replace symlink" question true]))
               k Hy Hloc (node_delete _ _ Hk)).
    simpl. by rewrite insert_delete_eq, <- app_assoc.
  - intros b Hl Hst. pose proof (empty_directory_inv h _ _ _ _ _ Hl Hst) as Hc.
    rewrite Hst. simpl.
    unfold replace_empty_dir, bind, call_fs, FS.os_rmdir. simpl. rewrite Hl.
    destruct k as [|c k]; [done|]. rewrite Hc. simpl.
    rewrite (link_and_report_made h "Linked (empty replaced): " _ _
               (MkWorld (delete (c :: k) m1) (trace w)) (c :: k) Hy Hloc (node_delete _ _ Hk)).
    simpl. by rewrite insert_delete_eq.
Qed.

(** ** Moving a subtree *)

Section Graft.

Implicit Types (m : gmap (list string) inode) (s d k rel : list string) (n : inode).

Lemma below_app d rel : FS.below d (d ++ rel) = true.
Proof. apply bool_decide_eq_true_2. by exists rel. Qed.

Lemma below_inv d k : FS.below d k = true → ∃ rel, k = d ++ rel.
Proof. intros H%bool_decide_eq_true_1. exact H. Qed.

Lemma lookup_prune m d k :
  FS.prune m d !! k = if FS.below d k then None else m !! k.
Proof.
  unfold FS.prune. destruct (FS.below d k) eqn:E.
  - apply map_lookup_filter_None. right. intros n _. simpl. by rewrite E.
  - destruct (m !! k) as [n|] eqn:Ek.
    + apply map_lookup_filter_Some. split; [done|]. simpl. by rewrite E.
    + apply map_lookup_filter_None. by left.
Qed.

Lemma elem_of_grafted m s d k n :
  (k, n) ∈ List.map (fun kv : list string * inode => (d ++ drop (length s) kv.1, kv.2))
             (map_to_list (filter (fun kv : list string * inode => FS.below s kv.1 = true) m))
  ↔ ∃ rel, k = d ++ rel ∧ m !! (s ++ rel) = Some n.
Proof.
  rewrite list_elem_of_In, in_map_iff. split.
  - intros ([k' n'] & [= <- <-] & Hin). apply list_elem_of_In, elem_of_map_to_list in Hin.
    apply map_lookup_filter_Some in Hin as [Hk Hb]. simpl in Hb.
    apply below_inv in Hb as [rel ->]. exists rel. simpl.
    by rewrite drop_app_length.
  - intros (rel & -> & Hk). exists (s ++ rel, n). simpl. rewrite drop_app_length.
    split; [done|]. apply list_elem_of_In, elem_of_map_to_list.
    apply map_lookup_filter_Some. split; [done|]. simpl. apply below_app.
Qed.

(** What was below [s] is below [d], at the same relative place. *)
Lemma lookup_graft_moved m s d rel : FS.graft m s d !! (d ++ rel) = m !! (s ++ rel).
Proof.
  unfold FS.graft.
  set (L := List.map _ _).
  destruct (m !! (s ++ rel)) as [n|] eqn:E.
  - apply lookup_union_Some_raw. left.
    destruct (list_to_map L !! (d ++ rel)) as [x|] eqn:Ex.
    + apply elem_of_list_to_map_2, elem_of_grafted in Ex as (rel' & Heq & Hx).
      apply app_inv_head in Heq as <-. congruence.
    + apply not_elem_of_list_to_map in Ex. exfalso. apply Ex.
      apply list_elem_of_fmap. exists (d ++ rel, n). split; [done|].
      apply elem_of_grafted. by exists rel.
  - apply lookup_union_None. split.
    + destruct (list_to_map L !! (d ++ rel)) as [x|] eqn:Ex; [|done].
      apply elem_of_list_to_map_2, elem_of_grafted in Ex as (rel' & Heq & Hx).
      apply app_inv_head in Heq as <-. congruence.
    + by rewrite lookup_prune, below_app.
Qed.

Lemma lookup_graft_left_None m s d k :
  FS.below d k = false →
  (list_to_map
     (List.map (fun kv : list string * inode => (d ++ drop (length s) kv.1, kv.2))
        (map_to_list (filter (fun kv : list string * inode => FS.below s kv.1 = true) m)))
   : gmap (list string) inode) !! k = None.
Proof.
  intros Hd. match goal with |- ?l !! _ = _ => destruct (l !! k) as [x|] eqn:Ex end; [|done].
  apply elem_of_list_to_map_2, elem_of_grafted in Ex as (rel' & -> & Hx).
  by rewrite below_app in Hd.
Qed.

(** What was neither below [s] nor below [d] is where it was. *)
Lemma lookup_graft_other m s d k :
  FS.below s k = false → FS.below d k = false → FS.graft m s d !! k = m !! k.
Proof.
  intros Hs Hd. unfold FS.graft.
  rewrite lookup_union_r; [|by apply lookup_graft_left_None].
  by rewrite !lookup_prune, Hd, Hs.
Qed.

(** Nothing is left below [s]. *)
Lemma lookup_graft_source m s d k :
  FS.below s k = true → FS.below d k = false → FS.graft m s d !! k = None.
Proof.
  intros Hs Hd. unfold FS.graft.
  rewrite lookup_union_r; [|by apply lookup_graft_left_None].
  by rewrite !lookup_prune, Hd, Hs.
Qed.

End Graft.

(** ** Plain locations *)

Section Plain.

Variable cwd : list string.
Implicit Types (m : gmap (list string) inode) (p : Path) (k cur rest S D : list string)
  (c : string) (n : inode).

Lemma walk_plain links m cur rest :
  plain_from m cur rest = true → FS.walk links m cur rest = inr (cur ++ rest).
Proof.
  revert cur. induction rest as [|c rest IH]; intros cur H.
  - by rewrite walk_nil, app_nil_r.
  - simpl in H. apply andb_true_iff in H as [Hc H]. rewrite walk_cons.
    destruct (String.eqb c ".."); [done|].
    destruct (m !! (cur ++ [c])) as [[| b |]|]; try done.
    rewrite (IH _ H). by rewrite <- app_assoc.
Qed.

Lemma plain_from_dir m cur rest :
  plain_from m cur rest = true → is_Dir (FS.node m cur) → is_Dir (FS.node m (cur ++ rest)).
Proof.
  revert cur. induction rest as [|c rest IH]; intros cur H Hd.
  - by rewrite app_nil_r.
  - simpl in H. apply andb_true_iff in H as [Hc H].
    destruct (m !! (cur ++ [c])) as [[| b |]|] eqn:E; try done.
    replace (cur ++ c :: rest) with ((cur ++ [c]) ++ rest) by by rewrite <- app_assoc.
    apply IH; [done|]. exists b. by rewrite node_snoc.
Qed.

Lemma plain_from_agree m m' cur rest :
  (∀ q, q ≠ [] → q `prefix_of` rest → m' !! (cur ++ q) = m !! (cur ++ q)) →
  plain_from m' cur rest = plain_from m cur rest.
Proof.
  revert cur. induction rest as [|c rest IH]; intros cur H; [done|]. simpl.
  rewrite (H [c]); [|done|by apply prefix_cons, prefix_nil].
  destruct (m !! (cur ++ [c])) as [[| b |]|]; try done.
  rewrite IH; [done|]. intros q Hq Hp. rewrite <- !app_assoc. apply H; [done|].
  by apply prefix_cons.
Qed.

Lemma plain_snoc m cur rest c :
  plain_from m cur (rest ++ [c]) = true → plain_from m cur rest = true ∧ c ≠ "..".
Proof.
  revert cur. induction rest as [|c' rest IH]; intros cur H; simpl in *.
  - apply andb_true_iff in H as [Hc _]. split; [done|]. intros ->. done.
  - apply andb_true_iff in H as [Hc H]. rewrite Hc. simpl.
    destruct (m !! (cur ++ [c'])) as [[| b |]|]; try done. by apply IH.
Qed.

Lemma stat_plain m p n :
  root p ≠ "" → plain m (parts p) = true → FS.node m (parts p) = Some n →
  FS.stat cwd m p = inr (parts p, n).
Proof.
  intros Hr Hp Hn. assert (FS.start cwd p = []) as Hs.
  { unfold FS.start. by destruct (String.eqb_spec (root p) ""). }
  apply stat_intro; [rewrite Hs; apply is_Dir_root| |done].
  rewrite Hs. by rewrite (walk_plain _ _ _ _ Hp).
Qed.

Lemma plain_is_Dir m k : plain m k = true → is_Dir (FS.node m k).
Proof. intros H. apply (plain_from_dir m [] k H). apply is_Dir_root. Qed.

(** The location of a child of a plain directory. *)
Lemma locate_plain_child m r S c :
  r ≠ "" → plain m S = true → c ≠ ".." →
  FS.locate cwd m (MkPath r (S ++ [c])) = inr (S ++ [c]).
Proof.
  intros Hr Hp Hc. unfold FS.locate. simpl. rewrite unsnoc_app.
  destruct (plain_is_Dir _ _ Hp) as [b Hb].
  rewrite (stat_plain m (MkPath r S) (Dir b)); [|done..].
  by destruct (String.eqb_spec c "..").
Qed.

Lemma stat_plain_missing_child m r S c :
  r ≠ "" → plain m S = true → c ≠ ".." → m !! (S ++ [c]) = None →
  FS.stat cwd m (MkPath r (S ++ [c])) = inl ENOENT.
Proof.
  intros Hr Hp Hc Hn. unfold FS.stat.
  assert (FS.start cwd (MkPath r (S ++ [c])) = []) as ->.
  { unfold FS.start. simpl. by destruct (String.eqb_spec r ""). }
  simpl.
  destruct (walk_app FS.MAXSYMLINKS m [] S [c] S) as (l' & _ & ->);
    [by apply (walk_plain _ _ [])|by apply plain_is_Dir|].
  rewrite walk_cons, Hn. by destruct (String.eqb_spec c "..").
Qed.

End Plain.

(** ** The entries of a directory *)

Section Children.

Implicit Types (m : gmap (list string) inode) (k : list string) (c : string).

Lemma children_spec m k c : c ∈ FS.children m k ↔ is_Some (m !! (k ++ [c])).
Proof.
  unfold FS.children. rewrite list_elem_of_omap. split.
  - intros ([k' n] & Hin%elem_of_map_to_list & Hf). simpl in Hf.
    pose proof (unsnoc_inv k') as Hk. destruct (FS.unsnoc k') as [[d' c']|]; [|done].
    destruct (decide (d' = k)) as [->|]; [|done]. injection Hf as ->. subst k'. eauto.
  - intros [n Hn]. exists (k ++ [c], n). split; [by apply elem_of_map_to_list|].
    simpl. rewrite unsnoc_app. by destruct (decide (k = k)).
Qed.

Lemma NoDup_omap_inj {A B} (f : A → option B) (l : list A) :
  NoDup l →
  (∀ x y z, x ∈ l → y ∈ l → f x = Some z → f y = Some z → x = y) →
  NoDup (omap f l).
Proof.
  induction 1 as [|x l Hx Hl IH]; intros Hinj; [constructor|]. simpl.
  assert (NoDup (omap f l)) as Hnd.
  { apply IH. intros x' y z Hx' Hy. apply Hinj; by right. }
  destruct (f x) as [z|] eqn:E; [|done]. constructor; [|done].
  intros (y & Hy & Hfy)%list_elem_of_omap. apply Hx.
  rewrite (Hinj x y z); [done|by left|by right|done|done].
Qed.

Lemma NoDup_children m k : NoDup (FS.children m k).
Proof.
  unfold FS.children. apply NoDup_omap_inj; [apply NoDup_map_to_list|].
  intros [k1 n1] [k2 n2] z H1%elem_of_map_to_list H2%elem_of_map_to_list. simpl.
  pose proof (unsnoc_inv k1) as E1. pose proof (unsnoc_inv k2) as E2.
  destruct (FS.unsnoc k1) as [[d1 c1]|]; [|done].
  destruct (FS.unsnoc k2) as [[d2 c2]|]; [|done].
  destruct (decide (d1 = k)) as [->|]; [|done].
  destruct (decide (d2 = k)) as [->|]; [|done].
  intros [= ->] [= ->]. subst k1 k2. congruence.
Qed.

End Children.

(** ** [move_dir_contents] *)

Section Move.

Variable h : host.
Implicit Types (m : gmap (list string) inode) (k S D rel : list string) (c : string)
  (n : inode) (src dst : Path).

Lemma below_child_inv S c c' rel : FS.below (S ++ [c]) (S ++ c' :: rel) = true → c = c'.
Proof.
  intros H%bool_decide_eq_true_1. apply prefix_app_inv in H.
  by apply prefix_cons_inv_1 in H.
Qed.

Lemma below_child S c k : FS.below (S ++ [c]) k = true → FS.below S k = true.
Proof.
  intros H%bool_decide_eq_true_1. apply bool_decide_eq_true_2. by eapply prefix_app_l.
Qed.

(** Nothing is below two directories of which neither is below the
    other. *)
Lemma below_both S D k :
  FS.below S D = false → FS.below D S = false →
  FS.below S k = true → FS.below D k = true → False.
Proof.
  intros H1%bool_decide_eq_false_1 H2%bool_decide_eq_false_1
    H3%bool_decide_eq_true_1 H4%bool_decide_eq_true_1.
  destruct (prefix_weak_total _ _ _ H3 H4); done.
Qed.

Lemma below_prefix S D c q :
  FS.below D S = false → q `prefix_of` S →
  FS.below (S ++ [c]) q = false ∧ FS.below (D ++ [c]) q = false.
Proof.
  intros H%bool_decide_eq_false_1 Hq. split; apply bool_decide_eq_false_2; intros Hb.
  - apply prefix_length in Hq, Hb. rewrite length_app in Hb. simpl in Hb. lia.
  - apply H. etrans; [|exact Hq]. by eapply prefix_app_l.
Qed.

Lemma below_refl S : FS.below S S = true.
Proof. by apply bool_decide_eq_true_2. Qed.

Lemma below_cross S D c c' rel :
  FS.below S D = false → FS.below D S = false →
  FS.below (S ++ [c]) (D ++ c' :: rel) = false.
Proof.
  intros Hsd Hds. destruct (FS.below (S ++ [c]) (D ++ c' :: rel)) eqn:E; [|done]. exfalso.
  apply (below_both S D (D ++ c' :: rel) Hsd Hds); [by eapply below_child|apply below_app].
Qed.

Lemma below_sibling S c c' rel : c' ≠ c → FS.below (S ++ [c]) (S ++ c' :: rel) = false.
Proof.
  intros Hne. destruct (FS.below (S ++ [c]) (S ++ c' :: rel)) eqn:E; [|done].
  apply below_child_inv in E. congruence.
Qed.

Lemma name_child r S c : PurePath.name (MkPath r (S ++ [c])) = c.
Proof. unfold PurePath.name. simpl. apply last_last. Qed.

Lemma joinpath_clean dst c :
  clean c = true → dst // c = MkPath (root dst) (parts dst ++ [c]) ∧ c ≠ "..".
Proof.
  unfold clean. intros [H1%bool_decide_eq_true_1 H2]%andb_true_iff.
  unfold PurePath.joinpath. rewrite H1. simpl. split; [done|]. intros ->. done.
Qed.

(** One move of the loop: the entry and all that is below it go to
    the destination under the same name. *)
Lemma shutil_move_child m src dst c n :
  root src ≠ "" → root dst ≠ "" →
  plain m (parts src) = true → plain m (parts dst) = true →
  FS.below (parts src) (parts dst) = false → FS.below (parts dst) (parts src) = false →
  clean c = true →
  m !! (parts src ++ [c]) = Some n → m !! (parts dst ++ [c]) = None →
  FS.shutil_move (cwd h) m (MkPath (root src) (parts src ++ [c]))
    (dst // PurePath.name (MkPath (root src) (parts src ++ [c])))
  = inr (FS.graft m (parts src ++ [c]) (parts dst ++ [c])).
Proof.
  intros Hrs Hrd Hps Hpd Hsd Hds Hclean Hn Hfree.
  rewrite name_child. destruct (joinpath_clean dst c Hclean) as [-> Hc].
  unfold FS.shutil_move, FS.is_dir.
  rewrite (stat_plain_missing_child (cwd h) m (root dst) (parts dst) c); [|done..].
  unfold FS.os_rename, FS.lstat.
  rewrite !locate_plain_child; [|done..].
  rewrite !node_snoc, Hn, Hfree. simpl.
  destruct (decide (parts src ++ [c] = parts dst ++ [c])) as [Heq|_].
  { apply app_inj_tail in Heq as [Heq _]. rewrite Heq, below_refl in Hsd. done. }
  assert (FS.below (parts src ++ [c]) (parts dst ++ [c]) = false) as Hb.
  { by apply below_cross. }
  destruct n; by rewrite ?Hb.
Qed.

Lemma move_all_children src dst names :
  root src ≠ "" → root dst ≠ "" →
  FS.below (parts src) (parts dst) = false → FS.below (parts dst) (parts src) = false →
  NoDup names →
  ∀ m tr,
    plain m (parts src) = true → plain m (parts dst) = true →
    (∀ c, c ∈ names →
          clean c = true ∧ is_Some (m !! (parts src ++ [c]))
          ∧ m !! (parts dst ++ [c]) = None) →
    ∃ m',
      move_all h (List.map (fun c => MkPath (root src) (parts src ++ [c])) names) dst
        (MkWorld m tr)
      = (Ret tt, MkWorld m' tr)
      ∧ (∀ c rel, c ∈ names →
                  m' !! (parts dst ++ c :: rel) = m !! (parts src ++ c :: rel))
      ∧ (∀ c rel, c ∈ names → m' !! (parts src ++ c :: rel) = None)
      ∧ (∀ k, (∀ c, c ∈ names →
                    FS.below (parts src ++ [c]) k = false
                    ∧ FS.below (parts dst ++ [c]) k = false) →
              m' !! k = m !! k).
Proof.
  intros Hrs Hrd Hsd Hds. set (S := parts src). set (D := parts dst).
  induction 1 as [|c names Hc Hnd IH]; intros m tr Hps Hpd Hnames.
  { exists m. split; [done|]. split; [intros ? ? []%elem_of_nil|].
    split; [intros ? ? []%elem_of_nil|done]. }
  destruct (Hnames c) as (Hclean & [n Hn] & Hfree); [by left|].
  set (m1 := FS.graft m (S ++ [c]) (D ++ [c])).
  assert (∀ k, FS.below (S ++ [c]) k = false → FS.below (D ++ [c]) k = false →
               m1 !! k = m !! k) as Hother.
  { intros k. apply lookup_graft_other. }
  assert (∀ c1 c2 rel, FS.below (S ++ [c1]) (D ++ c2 :: rel) = false) as Hcross1.
  { intros. by apply below_cross. }
  assert (∀ c1 c2 rel, FS.below (D ++ [c1]) (S ++ c2 :: rel) = false) as Hcross2.
  { intros. by apply below_cross. }
  assert (∀ X c1 c2 rel, c2 ≠ c1 → FS.below (X ++ [c1]) (X ++ c2 :: rel) = false) as Hsib.
  { intros. by apply below_sibling. }
  destruct (IH m1 tr) as (m' & Hrun & Hi & Hii & Hiii).
  - unfold plain. rewrite <- Hps. apply plain_from_agree. intros q _ Hq. simpl.
    apply Hother; by apply (below_prefix S D c q).
  - unfold plain. rewrite <- Hpd. apply plain_from_agree. intros q _ Hq. simpl.
    destruct (below_prefix D S c q Hsd Hq). by apply Hother.
  - intros c' Hc'. assert (c' ≠ c) as Hne by (intros ->; done).
    destruct (Hnames c') as (Hclean' & Hn' & Hfree'); [by right|].
    split; [done|]. split.
    + rewrite Hother; [done|by apply Hsib|apply Hcross2].
    + rewrite Hother; [done|apply Hcross1|by apply Hsib].
  - exists m'. split; [|split; [|split]].
    + cbn [move_all List.map]. unfold bind at 1. unfold call_fs at 1. cbn [fs trace].
      pose proof (shutil_move_child m src dst c n Hrs Hrd Hps Hpd Hsd Hds Hclean Hn Hfree)
        as Hmv.
      fold S D in Hmv. fold m1 in Hmv. rewrite Hmv. exact Hrun.
    + intros c0 rel [->|Hc0]%elem_of_cons.
      * rewrite Hiii.
        -- replace (D ++ c :: rel) with ((D ++ [c]) ++ rel) by by rewrite <- app_assoc.
           unfold m1. rewrite lookup_graft_moved. by rewrite <- app_assoc.
        -- intros c' Hc'. assert (c ≠ c') as Hne by (intros ->; done).
           split; [apply Hcross1|by apply Hsib].
      * assert (c0 ≠ c) as Hne by (intros ->; done).
        rewrite (Hi c0 rel Hc0). apply Hother; [by apply Hsib|apply Hcross2].
    + intros c0 rel [->|Hc0]%elem_of_cons; [|by apply Hii].
      rewrite Hiii.
      * apply lookup_graft_source; [|apply Hcross2].
        replace (S ++ c :: rel) with ((S ++ [c]) ++ rel) by by rewrite <- app_assoc.
        apply below_app.
      * intros c' Hc'. assert (c ≠ c') as Hne by (intros ->; done).
        split; [by apply Hsib|apply Hcross2].
    + intros k Hk. rewrite Hiii.
      * destruct (Hk c) as [? ?]; [by left|]. by apply Hother.
      * intros c' Hc'. apply Hk. by right.
Qed.

(** What [move_dir_contents] does between two plain directories. *)
Lemma move_dir_contents_moves src dst w :
  root src ≠ "" → root dst ≠ "" →
  plain (fs w) (parts src) = true → plain (fs w) (parts dst) = true →
  FS.node (fs w) (parts src) = Some (Dir true) →
  FS.below (parts src) (parts dst) = false → FS.below (parts dst) (parts src) = false →
  Forall (fun c => clean c = true ∧ fs w !! (parts dst ++ [c]) = None)
    (FS.children (fs w) (parts src)) →
  ∃ m',
    move_dir_contents h src dst w = (Ret tt, MkWorld m' (trace w))
    ∧ (∀ c rel, c ∈ FS.children (fs w) (parts src) →
                m' !! (parts dst ++ c :: rel) = fs w !! (parts src ++ c :: rel))
    ∧ FS.children m' (parts src) = []
    ∧ (∀ k, (∀ c, c ∈ FS.children (fs w) (parts src) →
                  FS.below (parts src ++ [c]) k = false
                  ∧ FS.below (parts dst ++ [c]) k = false) →
            m' !! k = fs w !! k).
Proof.
  intros Hrs Hrd Hps Hpd Hsrc Hsd Hds Hall. rewrite Forall_forall in Hall.
  destruct (move_all_children src dst (FS.children (fs w) (parts src))
              Hrs Hrd Hsd Hds (NoDup_children _ _) (fs w) (trace w) Hps Hpd)
    as (m' & Hrun & Hi & Hii & Hiii).
  { intros c Hc. destruct (Hall c Hc) as [? ?]. split; [done|]. split; [|done].
    by apply children_spec. }
  exists m'. split; [|split; [done|split; [|done]]].
  - unfold move_dir_contents, bind, call_fs.
    destruct (plain_is_Dir _ _ Hpd) as [b Hb].
    rewrite (ensure_dir_noop h (fs w) dst).
    2:{ unfold FS.is_dir. by rewrite (stat_plain (cwd h) (fs w) dst (Dir b)). }
    simpl. unfold FS.iterdir, FS.os_listdir.
    rewrite (stat_plain (cwd h) (fs w) src (Dir true)); [|done..].
    by destruct w.
  - destruct (FS.children m' (parts src)) as [|c l] eqn:E; [done|]. exfalso.
    assert (c ∈ FS.children m' (parts src)) as Hc by (rewrite E; by left).
    apply children_spec in Hc as [n Hn].
    destruct (decide (c ∈ FS.children (fs w) (parts src))) as [Hin|Hout].
    + rewrite (Hii c [] Hin) in Hn. done.
    + rewrite Hiii in Hn.
      * apply Hout, children_spec. eauto.
      * intros c' Hc'. assert (c ≠ c') as Hne by (intros ->; done). split.
        -- by apply below_sibling.
        -- by apply below_cross.
Qed.

End Move.

(** X15.  [move_dir_contents] loses nothing.  Let the source and the
    destination be absolute paths to directories that are reached without
    symbolic links, neither inside the other, the source listable, its
    entries named as one path component, and none of these names taken in
    the destination.  Then the call returns; every entry of the source,
    with all that is below it, is in the destination at the same relative
    place; the source is empty; and nothing else has changed. *)
Theorem X15_move_dir_contents_moves_everything
  (h : host) (src dst : Path) (w : world) :
  root src ≠ "" → root dst ≠ "" →
  plain (fs w) (parts src) = true → plain (fs w) (parts dst) = true →
  FS.node (fs w) (parts src) = Some (Dir true) →
  FS.below (parts src) (parts dst) = false → FS.below (parts dst) (parts src) = false →
  Forall (fun c => clean c = true ∧ fs w !! (parts dst ++ [c]) = None)
    (FS.children (fs w) (parts src)) →
  ∃ m',
    move_dir_contents h src dst w = (Ret tt, MkWorld m' (trace w))
    ∧ (∀ c rel, c ∈ FS.children (fs w) (parts src) →
                m' !! (parts dst ++ c :: rel) = fs w !! (parts src ++ c :: rel))
    ∧ FS.children m' (parts src) = []
    ∧ (∀ k, (∀ c, c ∈ FS.children (fs w) (parts src) →
                  FS.below (parts src ++ [c]) k = false
                  ∧ FS.below (parts dst ++ [c]) k = false) →
            m' !! k = fs w !! k).
Proof. apply move_dir_contents_moves. Qed.

(** ** A directory moved and linked *)

Section MoveAndLink.

Variable h : host.
Variable user : list event -> string -> string -> bool.
Implicit Types (m : gmap (list string) inode) (k S D rel : list string) (c : string)
  (n : inode) (w : world) (link_path target_path : Path).

Lemma walk_plain_app links m cur rest rest2 :
  plain_from m cur rest = true →
  FS.walk links m cur (rest ++ rest2) = FS.walk links m (cur ++ rest) rest2.
Proof.
  revert cur. induction rest as [|c rest IH]; intros cur H.
  - by rewrite app_nil_r.
  - simpl in H. apply andb_true_iff in H as [Hc H]. simpl app. rewrite walk_cons.
    destruct (String.eqb c ".."); [done|].
    destruct (m !! (cur ++ [c])) as [[| b |]|]; try done.
    rewrite (IH _ H). by rewrite <- app_assoc.
Qed.

Lemma prefix_removelast_not {A} (l q : list A) :
  l ≠ [] → q `prefix_of` removelast l → q ≠ l.
Proof.
  intros Hne Hq ->. destruct (exists_last Hne) as (l' & a & E). rewrite E in Hq.
  rewrite removelast_last in Hq. by apply prefix_snoc_not in Hq.
Qed.

Lemma prefix_removelast {A} (l q : list A) :
  l ≠ [] → q `prefix_of` removelast l → q `prefix_of` l.
Proof.
  intros Hne Hq. destruct (exists_last Hne) as (l' & a & E). rewrite E in *.
  rewrite removelast_last in Hq. by apply prefix_app_r.
Qed.

Lemma lstat_plain m p n :
  root p ≠ "" → parts p ≠ [] → plain m (parts p) = true →
  FS.node m (parts p) = Some n →
  FS.lstat (cwd h) m p = inr (parts p, n).
Proof.
  destruct p as [r ps]. simpl. intros Hr Hne Hp Hn.
  destruct (exists_last Hne) as (S0 & c0 & ->).
  apply plain_snoc in Hp as [Hp Hc]. unfold FS.lstat.
  by rewrite locate_plain_child, Hn.
Qed.

(** A non-empty plain directory at the link path is in that state. *)
Lemma nonempty_state m link_path target_path :
  root link_path ≠ "" → parts link_path ≠ [] → plain m (parts link_path) = true →
  FS.node m (parts link_path) = Some (Dir true) →
  FS.children m (parts link_path) ≠ [] →
  classify h m link_path target_path = NonEmptyDirectory.
Proof.
  intros Hr Hne Hp Hn Hc. unfold classify, FS.is_symlink, FS.exists_, FS.is_dir, dir_is_empty,
    FS.exists_, FS.is_dir, FS.iterdir, FS.os_listdir.
  rewrite (lstat_plain m link_path (Dir true)); [|done..].
  rewrite (stat_plain (cwd h) m link_path (Dir true)); [|done..]. simpl.
  by destruct (FS.children m (parts link_path)).
Qed.

(** The operation on a non-empty plain directory, when the user agrees
    and the host allows the link. *)
Lemma move_and_link_made link_path target_path w m1 :
  may_symlink h = true →
  ensure_dir h (fs w) target_path = inr m1 →
  root link_path ≠ "" → root target_path ≠ "" → parts link_path ≠ [] →
  plain m1 (parts link_path) = true → plain m1 (parts target_path) = true →
  FS.node m1 (parts link_path) = Some (Dir true) →
  FS.children m1 (parts link_path) ≠ [] →
  FS.below (parts link_path) (parts target_path) = false →
  FS.below (parts target_path) (parts link_path) = false →
  Forall (fun c => clean c = true ∧ m1 !! (parts target_path ++ [c]) = None)
    (FS.children m1 (parts link_path)) →
  let question :=
    PurePath.str link_path +:+ " is a non-empty directory. Move its contents to "
    +:+ PurePath.str target_path +:+ " and replace with a symlink?" in
  user (trace w) "Move contents?" question = true →
  ∃ m',
    do_run_body h user link_path target_path w
    = (Ret tt,
       MkWorld (<[parts link_path := Link (PurePath.str target_path)]> m')
         (trace w ++ [AskYesNo "Move contents?" question true;
                      Log ("Moved contents and linked: " +:+ PurePath.str link_path
                           +:+ " -> " +:+ PurePath.str target_path)]))
    ∧ (∀ c rel, c ∈ FS.children m1 (parts link_path) →
                m' !! (parts target_path ++ c :: rel) = m1 !! (parts link_path ++ c :: rel))
    ∧ FS.children m' (parts link_path) = []
    ∧ (∀ k, (∀ c, c ∈ FS.children m1 (parts link_path) →
                  FS.below (parts link_path ++ [c]) k = false
                  ∧ FS.below (parts target_path ++ [c]) k = false) →
            m' !! k = m1 !! k).
Proof.
  intros Hy H1 Hrl Hrt Hne Hpl Hpt Hn Hc Hlt Htl Hall question Hu.
  destruct (move_dir_contents_moves h link_path target_path
              (MkWorld m1 (trace w ++ [AskYesNo "Move contents?" question true])))
    as (m' & Hmove & Hi & Hii & Hiii); [done..|].
  simpl in Hi, Hii, Hiii.
  exists m'. split; [|done].
  rewrite (do_run_body_state h user _ _ w m1 H1).
  rewrite (nonempty_state m1 link_path target_path); [|done..]. cbn [handle_state].
  unfold move_and_link. unfold bind at 1. unfold _confirm. cbn [fs trace].
  fold question. rewrite Hu.
  cbn [negb fs trace]. unfold bind at 1. rewrite Hmove. unfold bind at 1.
  assert (∀ q, q `prefix_of` parts link_path → m' !! q = m1 !! q) as Hpre.
  { intros q Hq. apply Hiii. intros c _. by apply (below_prefix _ (parts target_path)). }
  assert (plain m' (parts link_path) = true) as Hpl'.
  { rewrite <- Hpl. apply plain_from_agree. intros q _ Hq. by apply Hpre. }
  assert (FS.node m' (parts link_path) = Some (Dir true)) as Hn'.
  { rewrite <- Hn. destruct (parts link_path) as [|c0 S0] eqn:E; [done|]. simpl.
    by apply Hpre. }
  assert (FS.os_rmdir (cwd h) m' link_path = inr (delete (parts link_path) m')) as Hrm.
  { unfold FS.os_rmdir. rewrite (lstat_plain m' link_path (Dir true)); [|done..].
    cbv beta iota. destruct (parts link_path) as [|c0 S0] eqn:E; [done|]. by rewrite Hii. }
  unfold try_except, call_fs at 1. cbn [fs trace]. rewrite Hrm. cbn [FS.oserror].
  rewrite (link_and_report_made h "Moved contents and linked: " link_path target_path _
             (parts link_path) Hy).
  - cbn [fs trace]. by rewrite insert_delete_eq, <- app_assoc.
  - cbn [fs]. clear Hrm Hmove. clearbody question. destruct link_path as [r ps]. simpl in *.
    destruct (exists_last Hne) as (S0 & c0 & E). subst ps.
    apply plain_snoc in Hpl' as [Hp0 Hc0]. apply locate_plain_child; [done| |done].
    rewrite <- Hp0. apply plain_from_agree. intros q _ Hq. simpl.
    apply lookup_delete_ne. intros <-. apply prefix_length in Hq.
    rewrite length_app in Hq. simpl in Hq. lia.
  - cbn [fs]. by apply node_delete.
Qed.

(** Through the link, a moved entry is found where it used to be. *)
Lemma stat_through_link m link_path target_path c n :
  root link_path ≠ "" → root target_path ≠ "" → parts link_path ≠ [] →
  PurePath.of_string (PurePath.str target_path) = target_path →
  plain m (removelast (parts link_path)) = true →
  List.last (parts link_path) "" ≠ ".." →
  m !! parts link_path = Some (Link (PurePath.str target_path)) →
  plain m (parts target_path) = true →
  m !! (parts target_path ++ [c]) = Some n → (∀ t, n ≠ Link t) → c ≠ ".." →
  FS.stat (cwd h) m (MkPath (root link_path) (parts link_path ++ [c]))
  = inr (parts target_path ++ [c], n).
Proof.
  intros Hrl Hrt Hne Hstr Hp0 Hc0 Hlink Hpt Hn Hnl Hc.
  assert (PurePath.starts_with "/" (PurePath.str target_path) = true) as Hslash.
  { apply parse_root_slash. rewrite <- Hstr in Hrt. exact Hrt. }
  assert (FS.link_parts (PurePath.str target_path) = parts target_path) as Hparts.
  { rewrite <- Hstr at 2. done. }
  assert (PurePath.str target_path ≠ "") as Ht.
  { intros E. rewrite E in Hslash. done. }
  apply stat_intro.
  - replace (FS.start _ _) with (@nil string); [apply is_Dir_root|].
    unfold FS.start. simpl. by destruct (String.eqb_spec (root link_path) "").
  - replace (FS.start _ _) with (@nil string).
    2:{ unfold FS.start. simpl. by destruct (String.eqb_spec (root link_path) ""). }
    simpl parts. rewrite (app_removelast_last "" Hne) at 1. rewrite <- app_assoc.
    rewrite (walk_plain_app _ m [] _ _ Hp0). simpl app.
    rewrite walk_cons. destruct (String.eqb_spec (List.last (parts link_path) "") "..");
      [done|].
    rewrite <- (app_removelast_last "" Hne), Hlink.
    destruct (String.eqb_spec (PurePath.str target_path) ""); [done|].
    unfold FS.MAXSYMLINKS. unfold FS.link_start. rewrite Hslash, Hparts.
    rewrite (walk_plain_app _ m [] _ _ Hpt). simpl app.
    rewrite walk_cons, Hn. destruct (String.eqb_spec c ".."); [done|].
    destruct n as [| |t]; [done|by rewrite walk_nil|by destruct (Hnl t)].
  - by rewrite node_snoc.
Qed.

End MoveAndLink.

(** X16.  A non-empty directory is moved and linked.  On a host that
    allows symbolic links, let the link path and the target path be
    absolute paths to directories reached without symbolic links, neither
    inside the other, once [ensure_dir] has returned; let the directory at
    the link path be listable and not empty, its entries named as one path
    component, none of the names taken in the target.  When the user
    agrees, the operation returns with the line "Moved contents and
    linked: ...": every entry, with all that is below it, is in the target
    at the same relative place, the link path is a symbolic link with the
    text [str(target_path)], and nothing else has changed. *)
Theorem X16_contents_moved_and_linked
  (h : host) (user : list event -> string -> string -> bool)
  (link_path target_path : Path) (w : world) (m1 : gmap (list string) inode) :
  may_symlink h = true →
  ensure_dir h (fs w) target_path = inr m1 →
  root link_path ≠ "" → root target_path ≠ "" → parts link_path ≠ [] →
  plain m1 (parts link_path) = true → plain m1 (parts target_path) = true →
  FS.node m1 (parts link_path) = Some (Dir true) →
  FS.children m1 (parts link_path) ≠ [] →
  FS.below (parts link_path) (parts target_path) = false →
  FS.below (parts target_path) (parts link_path) = false →
  Forall (fun c => clean c = true ∧ m1 !! (parts target_path ++ [c]) = None)
    (FS.children m1 (parts link_path)) →
  let question :=
    PurePath.str link_path +:+ " is a non-empty directory. Move its contents to "
    +:+ PurePath.str target_path +:+ " and replace with a symlink?" in
  user (trace w) "Move contents?" question = true →
  ∃ m',
    do_run_body h user link_path target_path w
    = (Ret tt,
       MkWorld (<[parts link_path := Link (PurePath.str target_path)]> m')
         (trace w ++ [AskYesNo "Move contents?" question true;
                      Log ("Moved contents and linked: " +:+ PurePath.str link_path
                           +:+ " -> " +:+ PurePath.str target_path)]))
    ∧ (∀ c rel, c ∈ FS.children m1 (parts link_path) →
                m' !! (parts target_path ++ c :: rel) = m1 !! (parts link_path ++ c :: rel))
    ∧ FS.children m' (parts link_path) = []
    ∧ (∀ k, (∀ c, c ∈ FS.children m1 (parts link_path) →
                  FS.below (parts link_path ++ [c]) k = false
                  ∧ FS.below (parts target_path ++ [c]) k = false) →
            m' !! k = m1 !! k).
Proof. apply move_and_link_made. Qed.

(** X17.  After a directory has been moved and linked, its entries are
    found where they used to be: under the conditions of the move, and
    with a target path written as [pathlib] writes it, the operation
    returns, and for every entry of the directory that is not itself a
    symbolic link, [link_path / name] now leads through the link to the
    entry in the target directory. *)
Theorem X17_moved_entries_found_through_link
  (h : host) (user : list event -> string -> string -> bool)
  (link_path target_path : Path) (w : world) (m1 : gmap (list string) inode) :
  may_symlink h = true →
  ensure_dir h (fs w) target_path = inr m1 →
  root link_path ≠ "" → root target_path ≠ "" → parts link_path ≠ [] →
  PurePath.of_string (PurePath.str target_path) = target_path →
  plain m1 (parts link_path) = true → plain m1 (parts target_path) = true →
  FS.node m1 (parts link_path) = Some (Dir true) →
  FS.children m1 (parts link_path) ≠ [] →
  FS.below (parts link_path) (parts target_path) = false →
  FS.below (parts target_path) (parts link_path) = false →
  Forall (fun c => clean c = true ∧ m1 !! (parts target_path ++ [c]) = None)
    (FS.children m1 (parts link_path)) →
  user (trace w) "Move contents?"
    (PurePath.str link_path +:+ " is a non-empty directory. Move its contents to "
     +:+ PurePath.str target_path +:+ " and replace with a symlink?") = true →
  ∃ w',
    do_run_body h user link_path target_path w = (Ret tt, w')
    ∧ FS.is_symlink (cwd h) (fs w') link_path = true
    ∧ ∀ c n, m1 !! (parts link_path ++ [c]) = Some n → (∀ t, n ≠ Link t) →
             FS.stat (cwd h) (fs w') (link_path // c) = inr (parts target_path ++ [c], n).
Proof.
  intros Hy H1 Hrl Hrt Hne Hstr Hpl Hpt Hn Hc Hlt Htl Hall Hu.
  destruct (move_and_link_made h user link_path target_path w m1)
    as (m' & Hrun & Hi & Hii & Hiii); [done..|].
  eexists. split; [exact Hrun|]. cbn [fs].
  set (mf := <[parts link_path := Link (PurePath.str target_path)]> m').
  assert (∀ q, q `prefix_of` parts link_path → m' !! q = m1 !! q) as Hpre.
  { intros q Hq. apply Hiii. intros c _. by apply (below_prefix _ (parts target_path)). }
  assert (∀ q, q `prefix_of` parts target_path → mf !! q = m1 !! q) as Hpre'.
  { intros q Hq. unfold mf. rewrite lookup_insert_ne.
    - apply Hiii. intros c _.
      by destruct (below_prefix (parts target_path) (parts link_path) c q Hlt Hq).
    - intros <-. apply bool_decide_eq_false_1 in Hlt. done. }
  assert (plain m1 (removelast (parts link_path)) = true
          ∧ List.last (parts link_path) "" ≠ "..") as [Hp0 Hc0].
  { apply (plain_snoc m1 []). unfold plain in Hpl. by rewrite <- app_removelast_last. }
  assert (FS.lstat (cwd h) mf link_path = inr (parts link_path, Link (PurePath.str target_path)))
    as Hl.
  { unfold FS.lstat. destruct link_path as [r ps]. simpl in *.
    rewrite (app_removelast_last "" Hne) at 1.
    rewrite locate_plain_child; [| done | | done].
    - rewrite <- app_removelast_last by done.
      destruct ps; [done|]. simpl. unfold mf. by rewrite lookup_insert_eq.
    - rewrite <- Hp0. apply plain_from_agree. intros q _ Hq. simpl. unfold mf.
      rewrite lookup_insert_ne; [apply Hpre; by apply prefix_removelast|].
      intros E. by apply (prefix_removelast_not ps q Hne Hq). }
  split; [unfold FS.is_symlink; by rewrite Hl|].
  intros c n Hcn Hnl.
  assert (c ∈ FS.children m1 (parts link_path)) as Hin by (apply children_spec; eauto).
  rewrite Forall_forall in Hall. destruct (Hall c Hin) as [Hclean _].
  destruct (joinpath_clean link_path c Hclean) as [-> Hcc].
  apply stat_through_link; try done.
  - rewrite <- Hp0. apply plain_from_agree. intros q _ Hq. simpl. unfold mf.
    rewrite lookup_insert_ne; [apply Hpre; by apply prefix_removelast|].
    intros E. by apply (prefix_removelast_not (parts link_path) q Hne Hq).
  - unfold mf. by rewrite lookup_insert_eq.
  - rewrite <- Hpt. apply plain_from_agree. intros q _ Hq. simpl. by apply Hpre'.
  - unfold mf. rewrite lookup_insert_ne.
    + by rewrite (Hi c [] Hin).
    + intros E. apply bool_decide_eq_false_1 in Htl. apply Htl.
      rewrite E. by apply prefix_app_r.
Qed.

(** ** The first run on a library *)

Section FirstRun.

Variable h : host.
Variable user : list event -> string -> string -> bool.
Implicit Types (m : gmap (list string) inode) (k K S R : list string) (c : string)
  (n : inode) (w : world) (p : Path).

Lemma plain_from_insert_fresh m k0 n cur rest :
  m !! k0 = None → plain_from m cur rest = true →
  plain_from (<[k0 := n]> m) cur rest = true.
Proof.
  intros H0. revert cur. induction rest as [|c rest IH]; intros cur H; [done|].
  simpl in *. apply andb_true_iff in H as [Hc H]. rewrite Hc. simpl.
  destruct (m !! (cur ++ [c])) as [[| b |]|] eqn:E; try done.
  rewrite lookup_insert_ne; [|intros ->; congruence]. rewrite E. by apply IH.
Qed.

Lemma plain_from_snoc m cur rest c b :
  plain_from m cur rest = true → c ≠ ".." → m !! (cur ++ rest ++ [c]) = Some (Dir b) →
  plain_from m cur (rest ++ [c]) = true.
Proof.
  revert cur. induction rest as [|c' rest IH]; intros cur H Hc Hn; simpl in *.
  - rewrite Hn. by destruct (String.eqb_spec c "..").
  - apply andb_true_iff in H as [Hc' H]. rewrite Hc'. simpl.
    destruct (m !! (cur ++ [c'])) as [[| b' |]|]; try done.
    apply IH; [done|done|]. by rewrite <- app_assoc.
Qed.

(** [ensure_dir] on a missing entry of a plain directory makes that
    directory and nothing else. *)
Lemma ensure_dir_child m r K c :
  r ≠ "" → plain m K = true → c ≠ ".." → m !! (K ++ [c]) = None →
  ensure_dir h m (MkPath r (K ++ [c])) = inr (<[K ++ [c] := Dir true]> m).
Proof.
  intros Hr Hp Hc Hn. unfold ensure_dir.
  assert (FS.os_mkdir (cwd h) m (MkPath r (K ++ [c])) = inr (<[K ++ [c] := Dir true]> m))
    as E.
  { unfold FS.os_mkdir. rewrite locate_plain_child; [|done..]. by rewrite node_snoc, Hn. }
  destruct (length _); simpl; by rewrite E.
Qed.

Lemma plain_child_made m K c :
  plain m K = true → c ≠ ".." → m !! (K ++ [c]) = None →
  plain (<[K ++ [c] := Dir true]> m) K = true
  ∧ plain (<[K ++ [c] := Dir true]> m) (K ++ [c]) = true.
Proof.
  intros Hp Hc Hn.
  assert (plain (<[K ++ [c] := Dir true]> m) K = true) as Hp'
    by by apply plain_from_insert_fresh.
  split; [done|]. apply (plain_from_snoc _ [] K c true); [done|done|].
  simpl. by rewrite lookup_insert_eq.
Qed.

(** One operation of the first run: the directory on the destination
    is made and the link to it is put in the library. *)
Lemma do_run_body_first m tr rs rt S R c :
  may_symlink h = true →
  rs ≠ "" → rt ≠ "" → c ≠ ".." → S ≠ R →
  plain m S = true → plain m R = true →
  m !! (S ++ [c]) = None → m !! (R ++ [c]) = None →
  do_run_body h user (MkPath rs (S ++ [c])) (MkPath rt (R ++ [c])) (MkWorld m tr)
  = (Ret tt,
     MkWorld (<[S ++ [c] := Link (PurePath.str (MkPath rt (R ++ [c])))]>
                (<[R ++ [c] := Dir true]> m))
       (tr ++ [Log ("Linked: " +:+ PurePath.str (MkPath rs (S ++ [c])) +:+ " -> "
                    +:+ PurePath.str (MkPath rt (R ++ [c])))])).
Proof.
  intros Hy Hrs Hrt Hc Hne HpS HpR HS HR.
  rewrite (do_run_body_state h user _ _ _ (<[R ++ [c] := Dir true]> m)).
  2:{ by apply ensure_dir_child. }
  set (m1 := <[R ++ [c] := Dir true]> m).
  assert (plain m1 S = true) as HpS' by by apply plain_from_insert_fresh.
  assert (m1 !! (S ++ [c]) = None) as HS'.
  { unfold m1. rewrite lookup_insert_ne; [done|]. intros E.
    apply app_inj_tail in E as [E _]. congruence. }
  assert (FS.locate (cwd h) m1 (MkPath rs (S ++ [c])) = inr (S ++ [c])) as Hl
    by by apply locate_plain_child.
  assert (FS.node m1 (S ++ [c]) = None) as Hn by by rewrite node_snoc.
  rewrite (missing_state h m1 _ (MkPath rt (R ++ [c])) _ Hl Hn). cbn [handle_state].
  unfold link_new.
  by rewrite (link_and_report_made h "Linked: " _ _ (MkWorld m1 tr) (S ++ [c]) Hy Hl Hn).
Qed.

End FirstRun.

(** X18.  The first run on a library.  Let the steamapps directory and
    the destination base be absolute paths to directories reached without
    symbolic links, the first named "steamapps" and the second another
    directory; let the host allow symbolic links, the destination root not
    exist yet, and the library have no "downloading" and no "temp".  When
    the user confirms the summary, the run makes the destination root and a
    directory in it for each planned name, puts a symbolic link to that
    directory in the library, logs one "Linked: ..." line per name and ends
    with the "Done" dialog; nothing else is changed. *)
Theorem X18_first_run_links_the_library
  (h : host) (user : list event -> string -> string -> bool)
  (steamapps_var dest_var : string) (link_temp_var : bool) (w : world)
  (steamapps dest_base : Path) :
  steamapps = PurePath.of_string (Text.strip steamapps_var) →
  dest_base = PurePath.of_string (Text.strip dest_var) →
  let lib_name :=
    if String.eqb (PurePath.name (PurePath.parent steamapps)) "" then "steam_library"
    else PurePath.name (PurePath.parent steamapps) in
  let target_root := dest_base // (lib_name +:+ "_symlink") in
  let plan := ("downloading", true) :: (if link_temp_var then [("temp", true)] else []) in
  let question :=
    "This will create/replace symlinks as follows:" +:+ nl +:+ nl
    +:+ Text.join nl (summary_lines steamapps target_root plan) in
  let line d :=
    Log ("Linked: " +:+ PurePath.str (steamapps // d) +:+ " -> "
         +:+ PurePath.str (target_root // d)) in
  let made d m :=
    <[parts steamapps ++ [d] := Link (PurePath.str (target_root // d))]>
      (<[parts target_root ++ [d] := Dir true]> m) in
  may_symlink h = true →
  root steamapps ≠ "" → root dest_base ≠ "" →
  PurePath.name steamapps = "steamapps" →
  parts dest_base ≠ parts steamapps →
  plain (fs w) (parts steamapps) = true → plain (fs w) (parts dest_base) = true →
  clean (lib_name +:+ "_symlink") = true →
  (∀ rel, fs w !! (parts target_root ++ rel) = None) →
  fs w !! (parts steamapps ++ ["downloading"]) = None →
  fs w !! (parts steamapps ++ ["temp"]) = None →
  user (trace w) "Proceed?" question = true →
  _do_run h user steamapps_var dest_var link_temp_var w
  = (Ret tt,
     MkWorld
       (let m1 := made "downloading" (<[parts target_root := Dir true]> (fs w)) in
        if link_temp_var then made "temp" m1 else m1)
       (trace w ++ [AskYesNo "Proceed?" question true; line "downloading"]
        ++ (if link_temp_var then [line "temp"] else [])
        ++ [ShowInfo "Done" "Requested symlinks processed. Check the log for details."])).
Proof.
  intros Hsa Hdest lib_name target_root plan question line made
    Hy Hrs Hrd Hname Hne HpS HpD Hclean Hfresh Hdl Htmp Hu.
  destruct (joinpath_clean dest_base _ Hclean) as [Hroot Hrn]. fold target_root in Hroot.
  set (S := parts steamapps) in *. set (D := parts dest_base) in *.
  set (rn := lib_name +:+ "_symlink") in *.
  assert (parts target_root = D ++ [rn]) as HR.
  { by rewrite Hroot. }
  assert (root target_root = root dest_base) as HrR by by rewrite Hroot.
  set (R := parts target_root) in *.
  assert (∀ d, clean d = true →
               steamapps // d = MkPath (root steamapps) (S ++ [d])
               ∧ target_root // d = MkPath (root target_root) (R ++ [d]) ∧ d ≠ "..") as Hjoin.
  { intros d Hd. destruct (joinpath_clean steamapps d Hd) as [-> ?].
    by destruct (joinpath_clean target_root d Hd) as [-> ?]. }
  assert (fs w !! R = None) as HRfree.
  { specialize (Hfresh []). by rewrite app_nil_r in Hfresh. }
  assert (S ≠ R) as HSR.
  { intros E. destruct (plain_is_Dir _ _ HpS) as [b Hb]. rewrite E in Hb.
    destruct R; [by destruct D|]. simpl in Hb. congruence. }
  assert (∀ d, S ++ [d] ≠ R) as HSdR.
  { intros d E. rewrite HR in E. apply app_inj_tail in E as [E _]. by apply Hne. }
  set (mR := <[R := Dir true]> (fs w)).
  assert (ensure_dir h (fs w) target_root = inr mR) as HeR.
  { rewrite Hroot. unfold mR. rewrite HR. apply ensure_dir_child; try done. by rewrite <- HR. }
  assert (plain mR S = true) as HpS1 by by apply plain_from_insert_fresh.
  assert (plain mR R = true) as HpR1.
  { unfold mR. rewrite HR. apply plain_child_made; try done. by rewrite <- HR. }
  assert (∀ d, fs w !! (S ++ [d]) = None → mR !! (S ++ [d]) = None) as HS1.
  { intros d Hd. unfold mR. by rewrite lookup_insert_ne. }
  assert (∀ d, mR !! (R ++ [d]) = None) as HR1.
  { intros d. unfold mR. rewrite lookup_insert_ne; [apply Hfresh|].
    intros E. apply (f_equal length) in E. rewrite length_app in E. simpl in E. lia. }
  (* the checks on the inputs *)
  unfold _do_run. cbv zeta. rewrite <- Hsa, <- Hdest.
  destruct (String.eqb_spec (Text.strip steamapps_var) "") as [E|_].
  { exfalso. apply Hrs. rewrite Hsa, E. reflexivity. }
  destruct (String.eqb_spec (Text.strip dest_var) "") as [E|_].
  { exfalso. apply Hrd. rewrite Hdest, E. reflexivity. }
  rewrite Hname. cbn [String.eqb Ascii.eqb Bool.eqb negb].
  unfold bind at 1. unfold ret at 1. cbn [negb]. unfold bind at 1. unfold ask_fs at 1.
  destruct (plain_is_Dir _ _ HpS) as [bS HbS]. destruct (plain_is_Dir _ _ HpD) as [bD HbD].
  unfold FS.exists_, FS.is_dir.
  rewrite (stat_plain (cwd h) (fs w) steamapps (Dir bS)); [|done..]. cbn [andb negb].
  (* the plan *)
  unfold bind at 1. unfold do_run_plan. fold lib_name. fold rn. fold target_root.
  unfold bind at 1. unfold call_fs at 1.
  rewrite (ensure_dir_noop h (fs w) dest_base).
  2:{ unfold FS.is_dir. by rewrite (stat_plain (cwd h) (fs w) dest_base (Dir bD)). }
  unfold bind at 1. unfold call_fs at 1. cbn [fs trace]. rewrite HeR.
  unfold ret at 1. cbn [app].
  unfold bind at 1. unfold _confirm. cbn [fs trace]. fold plan. fold question. rewrite Hu.
  cbn [negb]. unfold bind at 1.
  (* the loop *)
  destruct (Hjoin "downloading") as (Hl1 & Ht1 & Hd1); [done|].
  destruct (Hjoin "temp") as (Hl2 & Ht2 & Hd2); [done|].
  assert (do_run_body h user (steamapps // "downloading") (target_root // "downloading")
            (MkWorld mR (trace w ++ [AskYesNo "Proceed?" question true]))
          = (Ret tt, MkWorld (made "downloading" mR)
                       ((trace w ++ [AskYesNo "Proceed?" question true])
                        ++ [line "downloading"]))) as Hb1.
  { unfold made, line. rewrite Hl1, Ht1. fold S R.
    apply do_run_body_first; try done; try (by rewrite HrR); by apply HS1. }
  set (m1 := made "downloading" mR) in *.
  assert (plain m1 S = true ∧ plain m1 R = true) as [HpS2 HpR2].
  { unfold m1, made. fold S R.
    split; (apply plain_from_insert_fresh;
            [rewrite lookup_insert_ne; [by apply HS1|];
             intros E; apply app_inj_tail in E as [E _]; congruence
            |by apply plain_from_insert_fresh]). }
  assert (m1 !! (S ++ ["temp"]) = None ∧ m1 !! (R ++ ["temp"]) = None) as [HS2 HR2].
  { unfold m1, made. fold S R. split.
    - rewrite !lookup_insert_ne; [by apply HS1| |].
      + intros E. apply app_inj_tail in E as [_ E]. done.
      + intros E. apply app_inj_tail in E as [_ E]. done.
    - rewrite !lookup_insert_ne; [apply HR1| |].
      + intros E. apply app_inj_tail in E as [_ E]. done.
      + intros E. apply app_inj_tail in E as [_ E]. done. }
  unfold plan. destruct link_temp_var; cbn [do_run_loop app].
  - unfold bind at 1. rewrite Hb1. unfold bind at 1.
    assert (do_run_body h user (steamapps // "temp") (target_root // "temp")
              (MkWorld m1 ((trace w ++ [AskYesNo "Proceed?" question true])
                           ++ [line "downloading"]))
            = (Ret tt, MkWorld (made "temp" m1)
                         (((trace w ++ [AskYesNo "Proceed?" question true])
                           ++ [line "downloading"]) ++ [line "temp"]))) as Hb2.
    { unfold made at 1, line at 2. rewrite Hl2, Ht2. fold S R.
      apply do_run_body_first; try done. by rewrite HrR. }
    rewrite Hb2. unfold ret, showinfo, emit. cbn [fs trace].
    by rewrite <- !app_assoc.
  - unfold bind at 1. rewrite Hb1. unfold ret, showinfo, emit. cbn [fs trace].
    by rewrite <- !app_assoc.
Qed.


(** ** The further properties on concrete inputs *)

Lemma X1_witness :
  FS.is_dir (cwd Ex.linux) Ex.with_target Ex.target_path = true
  ∧ FS.is_dir (cwd Ex.linux) Ex.with_target (PurePath.parent Ex.target_path) = true
  ∧ ensure_dir Ex.linux Ex.with_target Ex.target_path = inr Ex.with_target.
Proof.
  apply (X1_ensure_dir_establishes_directory Ex.linux Ex.base Ex.with_target Ex.target_path).
  by_eval.
Defined.

Lemma X2_witness :
  Ex.base ⊆ Ex.with_target
  ∧ (∀ k n, Ex.with_target !! k = Some n →
            Ex.base !! k = Some n ∨ (Ex.base !! k = None ∧ n = Dir true))
  ∧ (∀ q kn, FS.stat (cwd Ex.linux) Ex.base q = inr kn →
             FS.stat (cwd Ex.linux) Ex.with_target q = inr kn)
  ∧ (∀ q kn, FS.lstat (cwd Ex.linux) Ex.base q = inr kn →
             FS.lstat (cwd Ex.linux) Ex.with_target q = inr kn).
Proof.
  apply (X2_ensure_dir_only_adds_directories Ex.linux Ex.base Ex.with_target Ex.target_path).
  by_eval.
Defined.

Lemma X3_witness :
  ensure_dir Ex.linux Ex.plain_file Ex.link_path = inl (OSError EEXIST)
  ∧ ensure_dir Ex.linux Ex.dangling Ex.link_path = inl (OSError EEXIST).
Proof.
  split.
  - apply (X3_ensure_dir_occupied_path_raises Ex.linux Ex.plain_file Ex.link_path
             ["home"; "u"; "lib"; "steamapps"; "downloading"] (File true "x")); by_eval.
  - apply (X3_ensure_dir_occupied_path_raises Ex.linux Ex.dangling Ex.link_path
             ["home"; "u"; "lib"; "steamapps"; "downloading"]
             (Link "/mnt/ssd/lib_symlink/downloading")); by_eval.
Defined.

Lemma X4_witness :
  ∃ w', create_symlink_safe Ex.unprivileged Ex.link_path Ex.target_path
          (MkWorld Ex.with_target [])
        = (Ret (false, privilege_message Ex.link_path Ex.target_path), w').
Proof.
  destruct (X4_create_symlink_safe_effect Ex.unprivileged Ex.link_path Ex.target_path
              (MkWorld Ex.with_target []))
    as (success & message & w' & Hr & _ & _ & _ & _ & Hno).
  destruct Hno as [-> Hm]; [reflexivity|]. rewrite Hm in Hr by reflexivity. by exists w'.
Defined.

Lemma X5_witness :
  ∃ k, FS.lstat (cwd Ex.linux)
         (fs (do_run_body Ex.linux Ex.yes Ex.link_path Ex.target_path (MkWorld Ex.base [])).2)
         Ex.link_path
       = inr (k, Link (PurePath.str Ex.target_path)).
Proof.
  apply (X5_reported_link_exists Ex.linux Ex.yes Ex.link_path Ex.target_path
           (MkWorld Ex.base []) _ "Linked: "); [by left|by_eval|by_eval].
Defined.

Lemma X6_witness :
  ∃ message,
    do_run_body Ex.unprivileged Ex.yes Ex.link_path Ex.target_path (MkWorld Ex.elsewhere [])
    = (Ret tt,
       MkWorld (delete ["home"; "u"; "lib"; "steamapps"; "downloading"] Ex.elsewhere)
         ([] ++ [AskYesNo "Replace symlink"
                   (PurePath.str Ex.link_path
                    +:+ " is a symlink to a different target. Replace it?") true;
                 Log ("ERROR: " +:+ message);
                 ShowError "Symlink Error" message])).
Proof.
  destruct (X6_removal_is_not_undone Ex.unprivileged Ex.yes Ex.link_path Ex.target_path
              (MkWorld Ex.elsewhere []) Ex.elsewhere
              ["home"; "u"; "lib"; "steamapps"; "downloading"]) as [H _];
    [reflexivity|by_eval|].
  apply (H "/mnt"); [by_eval|by_eval|reflexivity].
Defined.

Lemma X7_witness :
  Re.findall ("  " +:+ Re.quoted_path +:+ " " +:+ String Re.dq ("/mnt/games" +:+ String Re.dq " }"))
  = "/mnt/games" :: Re.findall " }"
  ∧ Re.findall "  " = [].
Proof.
  apply (X7_findall_reads_entry_by_entry "  " " " "/mnt/games" " }");
    try done; intros c Hc; simpl in Hc; repeat (destruct Hc as [<-|Hc]; [reflexivity|]); done.
Defined.

Lemma X8_witness :
  "/mnt/games" ≠ "" ∧ VdfSpec.all_chars Re.not_dq "/mnt/games"
  ∧ ∃ pre post, VdfSpec.occurrence Ex.vdf_text pre "/mnt/games" post.
Proof.
  apply (X8_findall_values_are_entries Ex.vdf_text "/mnt/games").
  replace (Re.findall Ex.vdf_text) with ["/mnt/games"; "/gone"] by (symmetry; by_eval).
  by left.
Defined.

Lemma X9_witness :
  _do_run Ex.linux Ex.yes "  " "/mnt/ssd" true (MkWorld Ex.base [])
  = (Ret tt, MkWorld Ex.base
               ([] ++ [ShowWarning "Missing input"
                         "Please select a steamapps directory to modify."]))
  ∧ _do_run Ex.linux Ex.yes "/home/u/lib/steamapps" " " true (MkWorld Ex.base [])
    = (Ret tt, MkWorld Ex.base
                 ([] ++ [ShowWarning "Missing input"
                           "Please select a destination base folder on your SSD."])).
Proof.
  split.
  - apply (X9_blank_input_is_missing Ex.linux Ex.yes "  " "/mnt/ssd" true (MkWorld Ex.base [])).
    intros c Hc; simpl in Hc; repeat (destruct Hc as [<-|Hc]; [reflexivity|]); done.
  - apply (X9_blank_input_is_missing Ex.linux Ex.yes "/home/u/lib/steamapps" " " true
             (MkWorld Ex.base [])); [by_eval|].
    intros c Hc; simpl in Hc; repeat (destruct Hc as [<-|Hc]; [reflexivity|]); done.
Defined.

Lemma X10_witness :
  (_do_run Ex.linux Ex.no " /home/u/lib/steamapps" "/mnt/ssd " true (MkWorld Ex.base [])).1
  = Ret tt
  ∧ FS.is_dir (cwd Ex.linux) Ex.with_root Ex.ssd = true
  ∧ FS.is_dir (cwd Ex.linux) Ex.with_root Ex.target_root = true.
Proof.
  pose proof (X10_declined_summary_stops_the_run Ex.linux Ex.no
                " /home/u/lib/steamapps" "/mnt/ssd " true (MkWorld Ex.base [])
                Ex.base Ex.with_root) as H.
  cbv zeta in H.
  destruct H as (-> & H1 & H2); [by_eval..|].
  split; [done|]. split.
  - rewrite <- H1. by_eval.
  - rewrite <- H2. by_eval.
Defined.

Lemma X12_witness :
  is_symlink_to Ex.linux Ex.linked Ex.link_path Ex.target_path = true
  ∧ classify Ex.linux Ex.linked Ex.link_path Ex.target_path = SymlinkCorrect.
Proof.
  apply (X12_written_link_is_recognised Ex.linux Ex.linked Ex.link_path Ex.target_path
           Ex.target_path ["home"; "u"; "lib"; "steamapps"; "downloading"]); by_eval.
Defined.

Lemma X13_witness :
  let w1 := (do_run_body Ex.linux Ex.yes Ex.link_path Ex.target_path (MkWorld Ex.base [])).2 in
  do_run_body Ex.linux Ex.yes Ex.link_path Ex.target_path w1
  = (Ret tt, MkWorld (fs w1)
               (trace w1 ++ [Log ("OK: " +:+ PurePath.str Ex.link_path +:+ " already links to "
                                  +:+ PurePath.str Ex.target_path)])).
Proof.
  intros w1.
  apply (X13_rerun_after_link_reports_ok Ex.linux Ex.yes Ex.link_path Ex.target_path
           Ex.target_path (MkWorld Ex.base []) w1 "Linked: "); [by left|by_eval..].
Defined.

Lemma X14_witness :
  do_run_body Ex.linux Ex.yes Ex.link_path Ex.target_path (MkWorld Ex.elsewhere [])
  = (Ret tt,
     MkWorld (<[ ["home"; "u"; "lib"; "steamapps"; "downloading"]
                 := Link (PurePath.str Ex.target_path) ]> Ex.elsewhere)
       ([] ++ [AskYesNo "Replace symlink"
                 (PurePath.str Ex.link_path
                  +:+ " is a symlink to a different target. Replace it?") true;
               Log ("Replaced symlink: " +:+ (PurePath.str Ex.link_path +:+ " -> "
                                              +:+ PurePath.str Ex.target_path))])).
Proof.
  destruct (X14_link_is_made_in_place Ex.linux Ex.yes Ex.link_path Ex.target_path
              (MkWorld Ex.elsewhere []) Ex.elsewhere
              ["home"; "u"; "lib"; "steamapps"; "downloading"]) as (_ & H & _);
    [reflexivity|by_eval|done|by_eval|].
  apply (H "/mnt"); [by_eval|by_eval|reflexivity].
Defined.

Lemma X15_witness :
  ∃ m',
    move_dir_contents Ex.linux Ex.link_path Ex.target_path (MkWorld ready_to_move [])
    = (Ret tt, MkWorld m' [])
    ∧ m' !! (parts Ex.target_path ++ ["a"]) = Some (File true "A")
    ∧ FS.children m' (parts Ex.link_path) = [].
Proof.
  destruct (X15_move_dir_contents_moves_everything Ex.linux Ex.link_path Ex.target_path
              (MkWorld ready_to_move []))
    as (m' & Hrun & Hi & Hii & _); [by_eval..|].
  exists m'. split; [exact Hrun|]. split; [|exact Hii].
  rewrite (Hi "a" []); by_eval.
Defined.

Lemma X16_witness :
  ∃ m',
    do_run_body Ex.linux Ex.yes Ex.link_path Ex.target_path (MkWorld Ex.nonempty [])
    = (Ret tt,
       MkWorld (<[parts Ex.link_path := Link (PurePath.str Ex.target_path)]> m')
         ([] ++ [AskYesNo "Move contents?"
                   (PurePath.str Ex.link_path
                    +:+ " is a non-empty directory. Move its contents to "
                    +:+ PurePath.str Ex.target_path +:+ " and replace with a symlink?") true;
                 Log ("Moved contents and linked: " +:+ PurePath.str Ex.link_path
                      +:+ " -> " +:+ PurePath.str Ex.target_path)]))
    ∧ m' !! (parts Ex.target_path ++ ["a"]) = Some (File true "A").
Proof.
  destruct (X16_contents_moved_and_linked Ex.linux Ex.yes Ex.link_path Ex.target_path
              (MkWorld Ex.nonempty []) ready_to_move)
    as (m' & Hrun & Hi & _); [by_eval..|].
  exists m'. split; [exact Hrun|]. rewrite (Hi "a" []); by_eval.
Defined.

Lemma X17_witness :
  ∃ w',
    do_run_body Ex.linux Ex.yes Ex.link_path Ex.target_path (MkWorld Ex.nonempty [])
    = (Ret tt, w')
    ∧ FS.stat (cwd Ex.linux) (fs w') (Ex.link_path // "a")
      = inr (parts Ex.target_path ++ ["a"], File true "A").
Proof.
  destruct (X17_moved_entries_found_through_link Ex.linux Ex.yes Ex.link_path Ex.target_path
              (MkWorld Ex.nonempty []) ready_to_move)
    as (w' & Hrun & _ & Hstat); [by_eval..|].
  exists w'. split; [exact Hrun|]. apply Hstat; [by_eval|done].
Defined.

Lemma X18_witness :
  (_do_run Ex.linux Ex.yes "/home/u/lib/steamapps" " /mnt/ssd" true (MkWorld Ex.base [])).1
  = Ret tt
  ∧ classify Ex.linux
      (fs (_do_run Ex.linux Ex.yes "/home/u/lib/steamapps" " /mnt/ssd" true
             (MkWorld Ex.base [])).2)
      Ex.link_path Ex.target_path
    = SymlinkCorrect.
Proof.
  pose proof (X18_first_run_links_the_library Ex.linux Ex.yes
                "/home/u/lib/steamapps" " /mnt/ssd" true (MkWorld Ex.base [])
                Ex.steamapps Ex.ssd) as H.
  cbv zeta in H. rewrite H; [split; by_eval|try by_eval..].
  intros rel. change (Ex.base !! (["mnt"; "ssd"; "lib_symlink"] ++ rel) = None).
  apply not_elem_of_list_to_map_1. cbn.
  intros Hin. repeat (apply elem_of_cons in Hin as [Hin|Hin]; [discriminate|]).
  by apply elem_of_nil in Hin.
Defined.

